(** * Sports Health Centers API: the request handlers of [main.py]

    A shallow embedding of the FastAPI service of [main.py]: the in-memory
    collection loaded at start-up, the request handlers that scan it, the
    haversine distance and the Python built-ins the handlers rely on.

    - Python [str] values are sequences of Unicode code points.
    - Python [float] values are IEEE 754 binary64 numbers, here the
      [spec_float] of the standard library with [prec = 53] and
      [emax = 1024]; arithmetic is the correctly rounded arithmetic of
      [SpecFloat].
    - The records of the collection are [dict] objects living in a heap;
      the global [centers] is a list of references into that heap.
    - A handler is a computation over that heap that may raise. *)

From Stdlib Require Import String Ascii.
From Stdlib Require Import ZArith NArith List Bool Lia Permutation Sorted.
From Stdlib Require Import Floats.SpecFloat.
Import ListNotations.

(* ===================================================================== *)
(** * Part I: definitions                                                  *)
(* ===================================================================== *)

(** ** Python strings *)

Definition char := N.
Definition str := list char.

Module Str.

(** An ASCII literal as a Python string. *)
Definition of_string (s : string) : str :=
  map N_of_ascii (list_ascii_of_string s).

Fixpoint eqb (a b : str) : bool :=
  match a, b with
  | [], [] => true
  | x :: a', y :: b' => N.eqb x y && eqb a' b'
  | _, _ => false
  end.

(** [a < b] on strings: lexicographic on code points, a proper prefix is
    smaller. *)
Fixpoint ltb (a b : str) : bool :=
  match a, b with
  | _, [] => false
  | [], _ :: _ => true
  | x :: a', y :: b' => N.ltb x y || (N.eqb x y && ltb a' b')
  end.

Fixpoint startswith (s prefix : str) {struct prefix} : bool :=
  match prefix, s with
  | [], _ => true
  | _ :: _, [] => false
  | p :: prefix', c :: s' => N.eqb p c && startswith s' prefix'
  end.

(** [needle in hay]: [needle] occurs at some position of [hay]. *)
Fixpoint contains (needle hay : str) : bool :=
  startswith hay needle ||
  match hay with
  | [] => false
  | _ :: hay' => contains needle hay'
  end.

(** [str.isspace] on one code point: the white-space table of CPython. *)
Definition isspace (c : char) : bool :=
  ((9 <=? c) && (c <=? 13) || (28 <=? c) && (c <=? 32) ||
   (c =? 133) || (c =? 160) || (c =? 5760) ||
   (8192 <=? c) && (c <=? 8202) ||
   (c =? 8232) || (c =? 8233) || (c =? 8239) || (c =? 8287) ||
   (c =? 12288))%N.

Fixpoint lstrip (s : str) : str :=
  match s with
  | [] => []
  | c :: s' => if isspace c then lstrip s' else s
  end.

Definition rstrip (s : str) : str := rev (lstrip (rev s)).

(** [s.strip()] *)
Definition strip (s : str) : str := rstrip (lstrip s).

(** [s.split(sep)] for a non-empty [sep]: scan left to right, cut at each
    occurrence of [sep] and resume after it.  [cur] holds the current
    segment in reverse; [skip] counts the characters of a matched
    separator that are still to be passed over. *)
Fixpoint split_from (s sep : str) (cur : str) (skip : nat) : list str :=
  match s with
  | [] => [rev cur]
  | c :: s' =>
      match skip with
      | S k => split_from s' sep cur k
      | O =>
          if startswith s sep
          then rev cur :: split_from s' sep [] (length sep - 1)
          else split_from s' sep (c :: cur) 0
      end
  end.

Definition split (s sep : str) : list str := split_from s sep [] 0.

(** [sep.join(parts)] *)
Fixpoint join (sep : str) (parts : list str) : str :=
  match parts with
  | [] => []
  | x :: rest =>
      match rest with
      | [] => x
      | _ :: _ => x ++ sep ++ join sep rest
      end
  end.

(** Insertion of [x] into a set kept as a duplicate-free list:
    [all.add(x)]. *)
Fixpoint set_add (x : str) (all : list str) : list str :=
  match all with
  | [] => [x]
  | y :: all' => if eqb x y then all else y :: set_add x all'
  end.

(** [sorted(xs)] on strings: a stable sort that only uses [<]. *)
Fixpoint insert (x : str) (l : list str) : list str :=
  match l with
  | [] => [x]
  | y :: l' => if ltb y x then y :: insert x l' else x :: l
  end.

Definition sorted (xs : list str) : list str := fold_right insert [] xs.

End Str.

Definition py : string -> str := Str.of_string.

(** The line break that separates the values of a multi-value field. *)
Definition CRLF : str := [13%N; 10%N].

(** ** Python floats *)

Definition float := spec_float.

Module F.

Definition prec : Z := 53.
Definition emax : Z := 1024.

Definition add : float -> float -> float := SFadd prec emax.
Definition sub : float -> float -> float := SFsub prec emax.
Definition mul : float -> float -> float := SFmul prec emax.
Definition div : float -> float -> float := SFdiv prec emax.
Definition sqrt : float -> float := SFsqrt prec emax.
Definition leb : float -> float -> bool := SFleb.
Definition ltb : float -> float -> bool := SFltb.
Definition eqb : float -> float -> bool := SFeqb.

Definition is_nan (x : float) : bool :=
  match x with S754_nan => true | _ => false end.

Definition is_inf (x : float) : bool :=
  match x with S754_infinity _ => true | _ => false end.

(** The float of an integer literal. *)
Definition of_Z (z : Z) : float := binary_normalize prec emax z 0 false.

(** The float of a decimal literal [m / 10^k]: the binary64 number
    nearest to it (ties to even), as the Python parser produces. *)
Definition decimal (m : Z) (k : nat) : float :=
  let den := S754_finite false (Z.to_pos (10 ^ Z.of_nat k)) 0 in
  match m with
  | Z0 => S754_zero false
  | Zpos p => SFdiv prec emax (S754_finite false p 0) den
  | Zneg p => SFdiv prec emax (S754_finite true p 0) den
  end.

(** The integer nearest to [n / d] for [d > 0], ties to the even one. *)
Definition round_half_even (n d : Z) : Z :=
  let q := (n / d)%Z in
  match (2 * (n mod d) ?= d)%Z with
  | Lt => q
  | Gt => (q + 1)%Z
  | Eq => if Z.even q then q else (q + 1)%Z
  end.

(** [round(x, ndigits)] for [ndigits >= 0]: the exact value of [x] is
    rounded to the nearest multiple of [10^-ndigits], ties to even, and
    that decimal is converted back to the nearest float.  Zeros,
    infinities and NaN round to themselves; the sign is kept. *)
Definition round (x : float) (ndigits : nat) : float :=
  match x with
  | S754_finite s m e =>
      let scale := (10 ^ Z.of_nat ndigits)%Z in
      let n := (Zpos m * scale * 2 ^ Z.max e 0)%Z in
      let d := (2 ^ Z.max (- e) 0)%Z in
      match round_half_even n d with
      | Zpos k => SFdiv prec emax (S754_finite s k 0)
                    (S754_finite false (Z.to_pos scale) 0)
      | _ => S754_zero s
      end
  | _ => x
  end.

(** [math.pi] and the constant of [math.radians]. *)
Definition pi : float := S754_finite false 7074237752028440 (-51).
Definition degToRad : float := div pi (of_Z 180).

(** [math.radians(x)] *)
Definition radians (x : float) : float := mul x degToRad.

End F.


(** ** Exceptions and results *)

Inductive exn :=
| RequestValidationError                      (* FastAPI, status 422 *)
| HTTPException (status_code : Z) (detail : str)
| ValueError
| OverflowError
| KeyError
| DanglingReference.                          (* a reference outside the heap *)

Inductive result (A : Type) :=
| Ok (a : A)
| Raise (e : exn).

Arguments Ok {A} a.
Arguments Raise {A} e.

Definition result_bind {A B} (r : result A) (k : A -> result B) : result B :=
  match r with
  | Ok a => k a
  | Raise e => Raise e
  end.

Notation "'let!' x ':=' e 'in' k" := (result_bind e (fun x => k))
  (at level 10, x name, e at level 100, k at level 200).

(** [math.sqrt]: the correctly rounded square root; a NaN produced from a
    number is a domain error. *)
Definition math_sqrt (x : float) : result float :=
  let r := F.sqrt x in
  if F.is_nan r && negb (F.is_nan x) then Raise ValueError else Ok r.

(** ** The Python runtime

    The built-ins whose values depend on the Unicode database or on the
    C mathematical library are parameters of the development:
    [str.lower], [float] applied to a string, [math.sin], [math.cos],
    [math.asin] and [**] on floats. *)

Class Runtime := {
  str_lower : str -> str;
  float_of_str : str -> result float;
  math_sin : float -> result float;
  math_cos : float -> result float;
  math_asin : float -> result float;
  float_pow : float -> float -> result float
}.

(** ** Records *)

(** A JSON scalar that holds a coordinate: a number or its text. *)
Inductive scalar :=
| Num (x : float)
| Text (s : str).

Module Center.

(** One record of the collection, a JSON object.  [distance_km] is the
    key that [get_nearby_centers] adds to its copies. *)
Record t := Build {
  id : str;
  Name : str;
  Description : str;
  Discipline : str;
  Pathologies : str;                 (* key "Pathologies / Prevention" *)
  address : str;
  lat : scalar;
  lng : scalar;
  distance_km : option float
}.

(** [{**center, "distance_km": d}] *)
Definition with_distance_km (center : t) (d : float) : t :=
  Build (id center) (Name center) (Description center) (Discipline center)
        (Pathologies center) (address center) (lat center) (lng center)
        (Some d).

End Center.

(** ** The heap and the handler monad *)

Definition ref := nat.

Record state := {
  heap : list Center.t;              (* the dict objects *)
  centers : list ref                 (* the global [centers] *)
}.

(** [centers = load_centers()]: the parsed content of the data file
    becomes the heap, and [centers] refers to each object in order. *)
Definition load_centers (dataset : list Center.t) : state :=
  {| heap := dataset; centers := seq 0 (length dataset) |}.

Definition M (A : Type) : Type := state -> result A * state.

Definition ret {A} (a : A) : M A := fun s => (Ok a, s).

Definition raise {A} (e : exn) : M A := fun s => (Raise e, s).

Definition bind {A B} (m : M A) (k : A -> M B) : M B :=
  fun s =>
    match m s with
    | (Ok a, s') => k a s'
    | (Raise e, s') => (Raise e, s')
    end.

Notation "x <- m ;; k" := (bind m (fun x => k))
  (at level 100, m at next level, right associativity).

Definition lift {A} (r : result A) : M A := fun s => (r, s).

Definition get_centers : M (list ref) := fun s => (Ok (centers s), s).

Definition deref (r : ref) : M Center.t :=
  fun s =>
    match nth_error (heap s) r with
    | Some d => (Ok d, s)
    | None => (Raise DanglingReference, s)
    end.

(** A new dict object, placed after the existing ones. *)
Definition alloc (d : Center.t) : M ref :=
  fun s => (Ok (length (heap s)),
            {| heap := heap s ++ [d]; centers := centers s |}).

(** [for x in xs: acc = body(acc, x)] *)
Fixpoint for_each {A B} (xs : list A) (acc : B) (body : B -> A -> M B) : M B :=
  match xs with
  | [] => ret acc
  | x :: xs' => acc' <- body acc x ;; for_each xs' acc' body
  end.

(** The objects behind a list of references, as the response carries
    them. *)
Fixpoint deref_all (rs : list ref) : M (list Center.t) :=
  match rs with
  | [] => ret []
  | r :: rs' => d <- deref r ;; ds <- deref_all rs' ;; ret (d :: ds)
  end.

(** ** Python lists *)

(** [l[start:stop]] *)
Definition slice {A} (l : list A) (start stop : Z) : list A :=
  let n := Z.of_nat (length l) in
  let clamp i := if (i <? 0)%Z then Z.max (i + n) 0 else Z.min i n in
  let lo := clamp start in
  let hi := clamp stop in
  firstn (Z.to_nat (hi - lo)) (skipn (Z.to_nat lo) l).

(** [l.sort(key=...)]: a stable sort on the keys that only uses [<]. *)
Fixpoint insert_by_key {A} (x : float * A) (l : list (float * A))
  : list (float * A) :=
  match l with
  | [] => [x]
  | y :: l' => if F.ltb (fst y) (fst x) then y :: insert_by_key x l' else x :: l
  end.

Definition sort_by_key {A} (l : list (float * A)) : list (float * A) :=
  fold_right insert_by_key [] l.

(** ** Request parameters *)

(** [Query(...)]: a required parameter with a validation. *)
Definition Query_required {A} (valid : A -> bool) (v : option A) : result A :=
  match v with
  | Some x => if valid x then Ok x else Raise RequestValidationError
  | None => Raise RequestValidationError
  end.

(** [Query(default=d, ...)]: an optional parameter with a validation. *)
Definition Query_default {A} (d : A) (valid : A -> bool) (v : option A)
  : result A :=
  match v with
  | Some x => if valid x then Ok x else Raise RequestValidationError
  | None => Ok d
  end.

(** [ge=1, le=500] on [limit] *)
Definition valid_limit (v : Z) : bool := (1 <=? v)%Z && (v <=? 500)%Z.

(** [ge=0] on [offset] *)
Definition valid_offset (v : Z) : bool := (0 <=? v)%Z.

(** [ge=1, le=500] on [radius_km] *)
Definition valid_radius (v : float) : bool :=
  F.leb (F.of_Z 1) v && F.leb v (F.of_Z 500).

(** ** Responses *)

Inductive response :=
| RootInfo (message : str) (total_centers : nat) (endpoints : list (str * str))
| AllCenters (total : nat) (limit offset : Z) (data : list Center.t)
| OneCenter (center : Center.t)
| SearchResult (query : str) (count : nat) (data : list Center.t)
| DisciplineResult (discipline : str) (count : nat) (data : list Center.t)
| DisciplineList (count : nat) (disciplines : list str)
| PathologyResult (pathology : str) (count : nat) (data : list Center.t)
| PathologyList (count : nat) (pathologies : list str)
| NearbyResult (lat lng radius_km : float) (count : nat) (data : list Center.t).

(** The endpoint directory of the root response. *)
Definition endpoints : list (str * str) :=
  [ (py "all_centers", py "/centers");
    (py "center_by_id", py "/centers/{id}");
    (py "search", py "/search?q=keyword");
    (py "by_discipline", py "/discipline?name=Tennis");
    (py "by_pathology", py "/pathology?name=Cancer");
    (py "nearby", py "/nearby?lat=47.0&lng=2.0&radius_km=50") ].

(** ** The service *)

Section Service.

Context {RT : Runtime}.

(** [float(v)] on a JSON scalar. *)
Definition to_float (v : scalar) : result float :=
  match v with
  | Num x => Ok x
  | Text s => float_of_str s
  end.

(** Distance between two points in kilometres. *)
Definition haversine_distance (lat1 lon1 lat2 lon2 : float) : result float :=
  let R := F.of_Z 6371 in
  let lat1 := F.radians lat1 in
  let lon1 := F.radians lon1 in
  let lat2 := F.radians lat2 in
  let lon2 := F.radians lon2 in
  let dlat := F.sub lat2 lat1 in
  let dlon := F.sub lon2 lon1 in
  let! s1 := math_sin (F.div dlat (F.of_Z 2)) in
  let! p1 := float_pow s1 (F.of_Z 2) in
  let! c1 := math_cos lat1 in
  let! c2 := math_cos lat2 in
  let! s2 := math_sin (F.div dlon (F.of_Z 2)) in
  let! p2 := float_pow s2 (F.of_Z 2) in
  let a := F.add p1 (F.mul (F.mul c1 c2) p2) in
  let! r := math_sqrt a in
  let! h := math_asin r in
  let c := F.mul (F.of_Z 2) h in
  Ok (F.mul R c).

(** [GET /] *)
Definition root : M response :=
  cs <- get_centers ;;
  ret (RootInfo (py "Sports Health Centers API") (length cs) endpoints).

(** [GET /centers] *)
Definition get_all_centers (limit offset : option Z) : M response :=
  limit <- lift (Query_default 100%Z valid_limit limit) ;;
  offset <- lift (Query_default 0%Z valid_offset offset) ;;
  cs <- get_centers ;;
  data <- deref_all (slice cs offset (offset + limit)) ;;
  ret (AllCenters (length cs) limit offset data).

(** [HTTPException(status_code=404, detail=f"Center with id {center_id}
    not found")] *)
Definition not_found (center_id : str) : exn :=
  HTTPException 404 (py "Center with id " ++ center_id ++ py " not found").

(** The loop of [get_center_by_id]: return the first record whose id is
    the requested one. *)
Fixpoint find_center (center_id : str) (cs : list ref) : M response :=
  match cs with
  | [] => raise (not_found center_id)
  | r :: cs' =>
      center <- deref r ;;
      if Str.eqb (Center.id center) center_id
      then ret (OneCenter center)
      else find_center center_id cs'
  end.

(** [GET /centers/{center_id}] *)
Definition get_center_by_id (center_id : str) : M response :=
  cs <- get_centers ;;
  find_center center_id cs.

(** [GET /search] *)
Definition search_centers (q : option str) : M response :=
  q <- lift (Query_required (fun v => 2 <=? length v) q) ;;
  let q_lower := str_lower q in
  cs <- get_centers ;;
  results <- for_each cs [] (fun results r =>
    center <- deref r ;;
    if Str.contains q_lower (str_lower (Center.Name center)) ||
       Str.contains q_lower (str_lower (Center.Description center)) ||
       Str.contains q_lower (str_lower (Center.Discipline center))
    then ret (results ++ [r])
    else ret results) ;;
  data <- deref_all results ;;
  ret (SearchResult q (length results) data).

(** [GET /discipline] *)
Definition get_by_discipline (name : option str) : M response :=
  name <- lift (Query_required (fun _ => true) name) ;;
  let name_lower := str_lower name in
  cs <- get_centers ;;
  results <- for_each cs [] (fun results r =>
    c <- deref r ;;
    if Str.contains name_lower (str_lower (Center.Discipline c))
    then ret (results ++ [r])
    else ret results) ;;
  data <- deref_all results ;;
  ret (DisciplineResult name (length results) data).

(** [GET /disciplines] *)
Definition list_disciplines : M response :=
  cs <- get_centers ;;
  all_disciplines <- for_each cs [] (fun all_disciplines r =>
    center <- deref r ;;
    ret (fold_left (fun all_disciplines d =>
           let d := Str.strip d in
           match d with
           | [] => all_disciplines
           | _ :: _ => Str.set_add d all_disciplines
           end)
         (Str.split (Center.Discipline center) CRLF) all_disciplines)) ;;
  ret (DisciplineList (length all_disciplines) (Str.sorted all_disciplines)).

(** [GET /pathology] *)
Definition get_by_pathology (name : option str) : M response :=
  name <- lift (Query_required (fun _ => true) name) ;;
  let name_lower := str_lower name in
  cs <- get_centers ;;
  results <- for_each cs [] (fun results r =>
    c <- deref r ;;
    if Str.contains name_lower (str_lower (Center.Pathologies c))
    then ret (results ++ [r])
    else ret results) ;;
  data <- deref_all results ;;
  ret (PathologyResult name (length results) data).

(** [GET /pathologies] *)
Definition list_pathologies : M response :=
  cs <- get_centers ;;
  all_pathologies <- for_each cs [] (fun all_pathologies r =>
    center <- deref r ;;
    ret (fold_left (fun all_pathologies p =>
           let p := Str.strip p in
           match p with
           | [] => all_pathologies
           | _ :: _ => Str.set_add p all_pathologies
           end)
         (Str.split (Center.Pathologies center) CRLF) all_pathologies)) ;;
  ret (PathologyList (length all_pathologies) (Str.sorted all_pathologies)).

(** The sort key of [get_nearby_centers]: [x["distance_km"]]. *)
Definition key_distance_km (r : ref) : M (float * ref) :=
  x <- deref r ;;
  match Center.distance_km x with
  | Some d => ret (d, r)
  | None => raise KeyError
  end.

Fixpoint with_keys (rs : list ref) : M (list (float * ref)) :=
  match rs with
  | [] => ret []
  | r :: rs' => k <- key_distance_km r ;; ks <- with_keys rs' ;; ret (k :: ks)
  end.

(** [GET /nearby] *)
Definition get_nearby_centers (lat lng radius_km : option float) : M response :=
  lat <- lift (Query_required (fun _ => true) lat) ;;
  lng <- lift (Query_required (fun _ => true) lng) ;;
  radius_km <- lift (Query_default (F.of_Z 50) valid_radius radius_km) ;;
  cs <- get_centers ;;
  results <- for_each cs [] (fun results r =>
    center <- deref r ;;
    center_lat <- lift (to_float (Center.lat center)) ;;
    center_lng <- lift (to_float (Center.lng center)) ;;
    distance <- lift (haversine_distance lat lng center_lat center_lng) ;;
    if F.leb distance radius_km
    then
      copy <- alloc (Center.with_distance_km center (F.round distance 2)) ;;
      ret (results ++ [copy])
    else ret results) ;;
  keyed <- with_keys results ;;
  let results := map snd (sort_by_key keyed) in
  data <- deref_all results ;;
  ret (NearbyResult lat lng radius_km (length results) data).

(** ** Requests *)

Inductive request :=
| GetRoot
| GetAllCenters (limit offset : option Z)
| GetCenterById (center_id : str)
| GetSearch (q : option str)
| GetDiscipline (name : option str)
| GetDisciplines
| GetPathology (name : option str)
| GetPathologies
| GetNearby (lat lng radius_km : option float).

Definition handle (req : request) : M response :=
  match req with
  | GetRoot => root
  | GetAllCenters limit offset => get_all_centers limit offset
  | GetCenterById center_id => get_center_by_id center_id
  | GetSearch q => search_centers q
  | GetDiscipline name => get_by_discipline name
  | GetDisciplines => list_disciplines
  | GetPathology name => get_by_pathology name
  | GetPathologies => list_pathologies
  | GetNearby lat lng radius_km => get_nearby_centers lat lng radius_km
  end.

(** The process after [reqs] have been served, starting from [s]. *)
Fixpoint serve (reqs : list request) (s : state) : state :=
  match reqs with
  | [] => s
  | req :: reqs' => serve reqs' (snd (handle req s))
  end.

(** The answer to [req] of a process that has loaded [dataset] and has
    already served [history]. *)
Definition answer (dataset : list Center.t) (history : list request)
  (req : request) : result response :=
  fst (handle req (serve history (load_centers dataset))).

(** The records that [centers] refers to. *)
Definition stored (s : state) : list (option Center.t) :=
  map (nth_error (heap s)) (centers s).

(** ** The handlers read by value

    What each handler computes, as a function of the records of the
    collection in collection order.  Part II shows that the handlers
    above return exactly these values. *)

(** The test of [search_centers] on one record. *)
Definition keyword_match (q_lower : str) (center : Center.t) : bool :=
  Str.contains q_lower (str_lower (Center.Name center)) ||
  Str.contains q_lower (str_lower (Center.Description center)) ||
  Str.contains q_lower (str_lower (Center.Discipline center)).

(** The test of [get_by_discipline] and [get_by_pathology] on one record. *)
Definition field_match (field : Center.t -> str) (name_lower : str)
  (c : Center.t) : bool :=
  Str.contains name_lower (str_lower (field c)).

(** The set built by [list_disciplines] and [list_pathologies], in
    insertion order. *)
Definition add_values (all : list str) (parts : list str) : list str :=
  fold_left (fun all d =>
    let d := Str.strip d in
    match d with
    | [] => all
    | _ :: _ => Str.set_add d all
    end) parts all.

Definition field_values (field : Center.t -> str) (ds : list Center.t)
  : list str :=
  fold_left (fun all center => add_values all (Str.split (field center) CRLF))
    ds [].

(** The distance of one record from the query point. *)
Definition distance_to (lat lng : float) (center : Center.t) : result float :=
  let! center_lat := to_float (Center.lat center) in
  let! center_lng := to_float (Center.lng center) in
  haversine_distance lat lng center_lat center_lng.

(** The loop of [get_nearby_centers]: the copies it keeps, each with its
    sort key, in collection order; the first failure aborts the scan. *)
Fixpoint nearby_scan (lat lng radius_km : float) (ds : list Center.t)
  : result (list (float * Center.t)) :=
  match ds with
  | [] => Ok []
  | center :: ds' =>
      let! distance := distance_to lat lng center in
      let! rest := nearby_scan lat lng radius_km ds' in
      Ok (if F.leb distance radius_km
          then (F.round distance 2,
                Center.with_distance_km center (F.round distance 2)) :: rest
          else rest)
  end.

Definition reply (ds : list Center.t) (req : request) : result response :=
  match req with
  | GetRoot =>
      Ok (RootInfo (py "Sports Health Centers API") (length ds) endpoints)
  | GetAllCenters limit offset =>
      let! limit := Query_default 100%Z valid_limit limit in
      let! offset := Query_default 0%Z valid_offset offset in
      Ok (AllCenters (length ds) limit offset
            (slice ds offset (offset + limit)))
  | GetCenterById center_id =>
      match find (fun c => Str.eqb (Center.id c) center_id) ds with
      | Some center => Ok (OneCenter center)
      | None => Raise (not_found center_id)
      end
  | GetSearch q =>
      let! q := Query_required (fun v => 2 <=? length v) q in
      let data := filter (keyword_match (str_lower q)) ds in
      Ok (SearchResult q (length data) data)
  | GetDiscipline name =>
      let! name := Query_required (fun _ => true) name in
      let data := filter (field_match Center.Discipline (str_lower name)) ds in
      Ok (DisciplineResult name (length data) data)
  | GetDisciplines =>
      let all := field_values Center.Discipline ds in
      Ok (DisciplineList (length all) (Str.sorted all))
  | GetPathology name =>
      let! name := Query_required (fun _ => true) name in
      let data := filter (field_match Center.Pathologies (str_lower name)) ds in
      Ok (PathologyResult name (length data) data)
  | GetPathologies =>
      let all := field_values Center.Pathologies ds in
      Ok (PathologyList (length all) (Str.sorted all))
  | GetNearby lat lng radius_km =>
      let! lat := Query_required (fun _ => true) lat in
      let! lng := Query_required (fun _ => true) lng in
      let! radius_km := Query_default (F.of_Z 50) valid_radius radius_km in
      let! kept := nearby_scan lat lng radius_km ds in
      let data := map snd (sort_by_key kept) in
      Ok (NearbyResult lat lng radius_km (length data) data)
  end.

End Service.

(** ** A concrete runtime

    [str.lower] on ASCII letters, [float] on plain decimal numerals, and
    the mathematical functions with the domain errors of the [math]
    module and polynomial approximations of their values.  It serves to
    run the handlers on concrete data. *)

Module Approx.

Definition lower_char (c : char) : char :=
  if ((65 <=? c) && (c <=? 90))%N then (c + 32)%N else c.

Definition lower (s : str) : str := map lower_char s.

(** Digits with at most one decimal point: the number read so far and
    the count of digits after the point. *)
Fixpoint digits (s : str) (m : Z) (k : nat) (point seen : bool)
  : option (Z * nat) :=
  match s with
  | [] => if seen then Some (m, k) else None
  | c :: s' =>
      if (c =? 46)%N then
        if point then None else digits s' m k true seen
      else if ((48 <=? c) && (c <=? 57))%N then
        digits s' (10 * m + Z.of_N (c - 48))%Z (if point then S k else k)
          point true
      else None
  end.

Definition to_float (s : str) : result float :=
  match s with
  | 45%N :: s' =>
      match digits s' 0%Z 0 false false with
      | Some (m, k) => Ok (SFopp (F.decimal m k))
      | None => Raise ValueError
      end
  | _ =>
      match digits s 0%Z 0 false false with
      | Some (m, k) => Ok (F.decimal m k)
      | None => Raise ValueError
      end
  end.

Definition one : float := F.of_Z 1.

(** [1 - x2 / n * rest], a step of the alternating series. *)
Definition step (x2 : float) (n : Z) (rest : float) : float :=
  F.sub one (F.mul (F.div x2 (F.of_Z n)) rest).

Definition sin (x : float) : result float :=
  if F.is_inf x then Raise ValueError
  else
    let x2 := F.mul x x in
    Ok (F.mul x (step x2 6 (step x2 20 (step x2 42 (step x2 72 one))))).

Definition cos (x : float) : result float :=
  if F.is_inf x then Raise ValueError
  else
    let x2 := F.mul x x in
    Ok (step x2 2 (step x2 12 (step x2 30 (step x2 56 one)))).

Definition asin (x : float) : result float :=
  if F.ltb one (SFabs x) then Raise ValueError
  else
    let x2 := F.mul x x in
    Ok (F.mul x
          (F.add one (F.mul x2
             (F.add (F.div one (F.of_Z 6)) (F.mul x2
                (F.add (F.div (F.of_Z 3) (F.of_Z 40)) (F.mul x2
                   (F.div (F.of_Z 15) (F.of_Z 336))))))))).

(** [x ** y], for the exponent the service uses. *)
Definition pow (x y : float) : result float :=
  if F.eqb y (F.of_Z 2) then Ok (F.mul x x) else Raise ValueError.

End Approx.

#[export] Instance approx_runtime : Runtime := {|
  str_lower := Approx.lower;
  float_of_str := Approx.to_float;
  math_sin := Approx.sin;
  math_cos := Approx.cos;
  math_asin := Approx.asin;
  float_pow := Approx.pow
|}.

(** A record with the given id, discipline field and coordinates. *)
Definition sample (id : string) (discipline : str) (lat lng : float)
  : Center.t :=
  Center.Build (py id) (py "Centre") (py "") discipline (py "")
    (py "") (Num lat) (Num lng) None.


(** ** Vocabulary of the statements *)

(** [needle] occurs in [hay]. *)
Definition substring (needle hay : str) : Prop :=
  exists before after, hay = before ++ needle ++ after.

(** In state [s] the references [rs] lead to the objects [ds]. *)
Definition points_to (s : state) (rs : list ref) (ds : list Center.t) : Prop :=
  Forall2 (fun r d => nth_error (heap s) r = Some d) rs ds.

(** From [s] to [s'] the global [centers] is the same list and every
    object of the heap of [s] is still at its place, unchanged. *)
Definition grows (s s' : state) : Prop :=
  centers s' = centers s /\ exists fresh, heap s' = heap s ++ fresh.

(** A computation that leaves every existing object as it is. *)
Definition frugal {A} (m : M A) : Prop := forall s, grows s (snd (m s)).

(** A string of white space only. *)
Definition blank (s : str) : Prop := Forall (fun c => Str.isspace c = true) s.

(** A string of ASCII characters only. *)
Definition ascii_only (s : str) : Prop := Forall (fun c => (c < 128)%N) s.

(** On ASCII strings [str.lower] is the ASCII lower-casing. *)
Definition lower_on_ascii (RT : Runtime) : Prop :=
  forall s, ascii_only s -> str_lower s = Approx.lower s.

(** The values of a multi-value field: its parts between line breaks,
    stripped. *)
Definition tokens (field : str) : list str :=
  map Str.strip (Str.split field CRLF).

(** [x <= y] and [x == y] on floats, as propositions. *)
Definition fle (x y : float) : Prop := F.leb x y = true.
Definition feq (x y : float) : Prop := F.eqb x y = true.

(** The [distance_km] of a returned record (NaN when the key is absent). *)
Definition km (c : Center.t) : float :=
  match Center.distance_km c with
  | Some d => d
  | None => S754_nan
  end.

(** [l.sort(key=key)] on a list of values. *)
Definition sort_on {A} (key : A -> float) (l : list A) : list A :=
  map snd (sort_by_key (map (fun x => (key x, x)) l)).

(** The record is within [radius_km] of the query point. *)
Definition within {RT : Runtime} (lat lng radius_km : float) (c : Center.t)
  : bool :=
  match distance_to lat lng c with
  | Ok d => F.leb d radius_km
  | Raise _ => false
  end.

(** The copy of a record that [get_nearby_centers] returns. *)
Definition annotate {RT : Runtime} (lat lng : float) (c : Center.t)
  : Center.t :=
  match distance_to lat lng c with
  | Ok d => Center.with_distance_km c (F.round d 2)
  | Raise _ => c
  end.

(** The distance of every record from the query point is defined. *)
Definition distances_defined {RT : Runtime} (lat lng : float)
  (ds : list Center.t) : Prop :=
  forall c, In c ds -> exists d, distance_to lat lng c = Ok d.

(** A zero or a finite non-zero float. *)
Definition is_finite (x : float) : bool :=
  match x with
  | S754_zero _ | S754_finite _ _ _ => true
  | _ => false
  end.

(** The float [+0.0]. *)
Definition zero : float := S754_zero false.

(** The query point of the example, [(47.39, 0.69)]. *)
Definition tours_lat : float := F.decimal 4739 2.
Definition tours_lng : float := F.decimal 69 2.

(** ** Envelopes of the responses *)

(** The records a response carries. *)
Definition response_data (r : response) : list Center.t :=
  match r with
  | AllCenters _ _ _ data => data
  | OneCenter center => [center]
  | SearchResult _ _ data => data
  | DisciplineResult _ _ data => data
  | PathologyResult _ _ data => data
  | NearbyResult _ _ _ _ data => data
  | RootInfo _ _ _ | DisciplineList _ _ | PathologyList _ _ => []
  end.

(** The ["count"] of a response and the number of items it counts. *)
Definition response_count (r : response) : option (nat * nat) :=
  match r with
  | SearchResult _ count data => Some (count, length data)
  | DisciplineResult _ count data => Some (count, length data)
  | PathologyResult _ count data => Some (count, length data)
  | NearbyResult _ _ _ count data => Some (count, length data)
  | DisciplineList count disciplines => Some (count, length disciplines)
  | PathologyList count pathologies => Some (count, length pathologies)
  | RootInfo _ _ _ | AllCenters _ _ _ _ | OneCenter _ => None
  end.

(** A request that the parameter declarations of its handler reject. *)
Definition rejected (req : request) : bool :=
  match req with
  | GetAllCenters limit offset =>
      match limit with Some v => negb (valid_limit v) | None => false end ||
      match offset with Some v => negb (valid_offset v) | None => false end
  | GetSearch q =>
      match q with Some v => negb (2 <=? length v) | None => true end
  | GetDiscipline name | GetPathology name =>
      match name with Some _ => false | None => true end
  | GetNearby lat lng radius_km =>
      match lat with Some _ => false | None => true end ||
      match lng with Some _ => false | None => true end ||
      match radius_km with Some v => negb (valid_radius v) | None => false end
  | GetRoot | GetCenterById _ | GetDisciplines | GetPathologies => false
  end.

(** ** The rule-based agent of [agent.py]

    [agent(question)] makes one [query_api] call and prints what comes
    back; the model is the argument of that call.  The printing, which
    formats floats and title-cases words, is not part of it. *)

Module Agent.

(** The argument of [query_api]. *)
Inductive query :=
| Nearby (lat lng : float)  (* f"/nearby?lat={lat}&lng={lng}&radius_km=50" *)
| Endpoint (path : str).    (* every other endpoint, as its string *)

Definition city_coords : list (str * (float * float)) :=
  [ (py "tours", (F.decimal 4739 2, F.decimal 69 2));
    (py "orl" ++ [233%N] ++ py "ans", (F.decimal 4790 2, F.decimal 191 2));
    (py "orleans", (F.decimal 4790 2, F.decimal 191 2));
    (py "bourges", (F.decimal 4708 2, F.decimal 240 2));
    (py "chartres", (F.decimal 4845 2, F.decimal 148 2));
    (py "blois", (F.decimal 4759 2, F.decimal 133 2));
    (py "ch" ++ [226%N] ++ py "teauroux", (F.decimal 4681 2, F.decimal 169 2));
    (py "chateauroux", (F.decimal 4681 2, F.decimal 169 2));
    (py "paris", (F.decimal 4886 2, F.decimal 235 2)) ].

Definition proximity_words : list str :=
  [ py "pr" ++ [232%N] ++ py "s"; py "near"; py "proche"; py "around";
    py "autour" ].

Definition sports : list str :=
  [ py "tennis"; py "basket"; py "football"; py "natation";
    py "karat" ++ [233%N]; py "karate"; py "badminton"; py "escalade";
    py "randonn" ++ [233%N] ++ py "e"; py "cyclisme"; py "danse";
    py "gymnastique"; py "yoga"; py "cano" ++ [235%N] ].

Definition pathologies : list str :=
  [ py "cancer"; py "diab" ++ [232%N] ++ py "te"; py "diabete";
    py "cardiovasculaire"; py "respiratoire"; py "neuro";
    py "ob" ++ [233%N] ++ py "sit" ++ [233%N]; py "obesite" ].

(** [for city, (lat, lng) in city_coords.items(): ...]: the query of the
    first iteration that returns, if one does. *)
Fixpoint city_loop (q : str) (items : list (str * (float * float)))
  : option query :=
  match items with
  | [] => None
  | (city, (lat, lng)) :: items' =>
      if Str.contains city q then
        if existsb (fun word => Str.contains word q) proximity_words
        then Some (Nearby lat lng)
        else city_loop q items'
      else city_loop q items'
  end.

(** [for word in words: if word in q: ...; return]: the query of the
    first word that occurs in [q]. *)
Fixpoint keyword_loop (q : str) (prefix : str) (words : list str)
  : option query :=
  match words with
  | [] => None
  | word :: words' =>
      if Str.contains word q then Some (Endpoint (prefix ++ word))
      else keyword_loop q prefix words'
  end.

Section Routing.

Context {RT : Runtime}.

Definition agent (question : str) : query :=
  let q := str_lower question in
  match city_loop q city_coords with
  | Some query => query
  | None =>
  match keyword_loop q (py "/discipline?name=") sports with
  | Some query => query
  | None =>
  match keyword_loop q (py "/pathology?name=") pathologies with
  | Some query => query
  | None =>
      if Str.contains (py "discipline") q || Str.contains (py "sport") q ||
         Str.contains (py "activit") q
      then Endpoint (py "/disciplines")
      else if Str.contains (py "patholog") q ||
              Str.contains (py "maladie") q ||
              Str.contains (py "condition") q
      then Endpoint (py "/pathologies")
      else
        let words := Str.strip question in
        Endpoint (py "/search?q=" ++ words)
  end end end.

End Routing.

End Agent.

(* ===================================================================== *)
(** * Part II: properties                                                  *)
(* ===================================================================== *)

(** ** Strings *)

Lemma str_eqb_eq (a b : str) : Str.eqb a b = true <-> a = b.
Proof.
  revert b; induction a as [|x a IH]; intros [|y b]; simpl;
    try (split; [discriminate | discriminate]); try tauto.
  rewrite andb_true_iff, N.eqb_eq, IH.
  split; [intros [-> ->]; reflexivity | intros H; inversion H; auto].
Qed.

Lemma str_eqb_refl (a : str) : Str.eqb a a = true.
Proof. apply str_eqb_eq; reflexivity. Qed.

Lemma startswith_spec (s prefix : str) :
  Str.startswith s prefix = true <-> exists rest, s = prefix ++ rest.
Proof.
  revert s; induction prefix as [|p prefix IH]; intros s; simpl.
  - split; [intros _; exists s; reflexivity | reflexivity].
  - destruct s as [|c s].
    + split; [discriminate | intros [rest H]; discriminate].
    + rewrite andb_true_iff, N.eqb_eq, IH. split.
      * intros [-> [rest ->]]. exists rest; reflexivity.
      * intros [rest H]. inversion H; subst. split; [reflexivity | eauto].
Qed.

Lemma contains_spec (needle hay : str) :
  Str.contains needle hay = true <-> substring needle hay.
Proof.
  unfold substring. induction hay as [|c hay IH]; simpl.
  - rewrite orb_false_r, startswith_spec. split.
    + intros [rest H]. exists [], rest. exact H.
    + intros [before [after H]]. destruct before as [|b before].
      * exists after. exact H.
      * discriminate.
  - rewrite orb_true_iff, startswith_spec, IH. split.
    + intros [[rest H] | [before [after H]]].
      * exists [], rest. exact H.
      * exists (c :: before), after. simpl. rewrite H. reflexivity.
    + intros [before [after H]]. destruct before as [|b before].
      * left. exists after. exact H.
      * right. simpl in H. inversion H; subst. exists before, after.
        reflexivity.
Qed.

Lemma contains_empty (hay : str) : Str.contains [] hay = true.
Proof. destruct hay; reflexivity. Qed.

(** *** [split] cuts at the separators: joining the parts with the
    separator gives the string back. *)

Lemma split_from_skip sep : forall k s cur,
  k <= length s ->
  Str.split_from s sep cur k = Str.split_from (skipn k s) sep cur 0.
Proof.
  induction k as [|k IH]; intros s cur H.
  - reflexivity.
  - destruct s as [|c s]; simpl in H; [lia |].
    simpl. apply IH. lia.
Qed.

Lemma split_from_nonempty sep : forall s cur k,
  Str.split_from s sep cur k <> [].
Proof.
  induction s as [|c s IH]; intros cur k; simpl; [discriminate |].
  destruct k; [| apply IH].
  destruct (Str.startswith (c :: s) sep); [discriminate | apply IH].
Qed.

Lemma split_from_match sep rest cur :
  sep <> [] ->
  Str.split_from (sep ++ rest) sep cur 0 =
  rev cur :: Str.split_from rest sep [] 0.
Proof.
  intros Hsep. destruct sep as [|p sep']; [congruence |].
  cbn [app Str.split_from].
  assert (S : Str.startswith (p :: sep' ++ rest) (p :: sep') = true)
    by (apply startswith_spec; exists rest; reflexivity).
  rewrite S. f_equal.
  replace (length (p :: sep') - 1) with (length sep') by (simpl; lia).
  rewrite split_from_skip by (rewrite length_app; lia).
  rewrite skipn_app, skipn_all, Nat.sub_diag. reflexivity.
Qed.

Lemma split_from_join sep :
  sep <> [] ->
  forall n s cur, length s <= n ->
  Str.join sep (Str.split_from s sep cur 0) = rev cur ++ s.
Proof.
  intros Hsep. induction n as [|n IH]; intros s cur H.
  - destruct s; [| simpl in H; lia]. simpl. rewrite app_nil_r. reflexivity.
  - destruct s as [|c s]; [simpl; rewrite app_nil_r; reflexivity |].
    destruct (Str.startswith (c :: s) sep) eqn:E.
    + apply startswith_spec in E. destruct E as [rest E]. rewrite E.
      rewrite split_from_match by exact Hsep.
      assert (L : length rest <= n).
      { apply (f_equal (@length _)) in E. rewrite length_app in E.
        simpl in E, H. destruct sep; [congruence | simpl in E; lia]. }
      pose proof (IH rest [] L) as J. simpl in J.
      pose proof (split_from_nonempty sep rest [] 0) as N.
      destruct (Str.split_from rest sep [] 0) as [|y ys] eqn:R;
        [congruence |].
      cbn [Str.join]. cbn [Str.join] in J. rewrite J. reflexivity.
    + cbn [Str.split_from]. rewrite E.
      rewrite IH by (simpl in H; lia).
      simpl. rewrite <- app_assoc. reflexivity.
Qed.

Lemma split_join s sep : sep <> [] -> Str.join sep (Str.split s sep) = s.
Proof. intros H. apply (split_from_join sep H (length s) s []). lia. Qed.

(** *** No part of [split] contains the separator. *)

Lemma substring_length (a b : str) : substring a b -> length a <= length b.
Proof. intros [p [q ->]]. rewrite !length_app. lia. Qed.

Lemma substring_app_r (a b c : str) : substring a b -> substring a (b ++ c).
Proof.
  intros [p [q ->]]. exists p, (q ++ c). rewrite <- !app_assoc. reflexivity.
Qed.

Lemma app_same_length {A} (a a' b b' : list A) :
  length a = length a' -> a ++ b = a' ++ b' -> a = a' /\ b = b'.
Proof.
  revert a'. induction a as [|x a IH]; intros [|y a'] L H; simpl in *;
    try discriminate; auto.
  inversion H; subst. destruct (IH a' ltac:(lia) H2) as [-> ->]. auto.
Qed.

Lemma firstn_plus {A} (l : list A) : forall n m,
  firstn (n + m) l = firstn n l ++ firstn m (skipn n l).
Proof.
  induction l as [|x l IH]; intros [|n] m; simpl; try reflexivity.
  - rewrite firstn_nil. reflexivity.
  - rewrite IH. reflexivity.
Qed.

(** Extending the window by one character: no occurrence appears unless
    the separator starts at [s]. *)
Lemma window_step (sep w s : str) :
  sep <> [] ->
  ~ substring sep (w ++ firstn (length sep - 1) s) ->
  Str.startswith s sep = false ->
  ~ substring sep (w ++ firstn (length sep) s).
Proof.
  intros Hsep Hold Hno Hnew.
  destruct (Nat.lt_ge_cases (length s) (length sep)) as [Hlt | Hge].
  - rewrite firstn_all2 in Hnew by lia.
    rewrite firstn_all2 in Hold by lia. contradiction.
  - assert (K : length sep = S (length sep - 1))
      by (destruct sep; [congruence | simpl; lia]).
    assert (F : firstn (length sep) s =
                firstn (length sep - 1) s ++
                firstn 1 (skipn (length sep - 1) s)).
    { rewrite K at 1. rewrite <- Nat.add_1_r. apply firstn_plus. }
    destruct (skipn (length sep - 1) s) as [|x rest] eqn:Sk.
    { apply (f_equal (@length _)) in Sk. rewrite length_skipn in Sk.
      simpl in Sk. lia. }
    simpl in F. rewrite F, app_assoc in Hnew.
    destruct Hnew as [b [a Hnew]].
    induction a as [|y a' _] using rev_ind.
    + rewrite app_nil_r in Hnew. rewrite <- app_assoc, <- F in Hnew.
      destruct (app_same_length w b (firstn (length sep) s) sep) as [_ E];
        [| exact Hnew |].
      * apply (f_equal (@length _)) in Hnew. rewrite !length_app in Hnew.
        rewrite length_firstn in Hnew. lia.
      * assert (S : Str.startswith s sep = true).
        { apply startswith_spec. exists (skipn (length sep) s).
          rewrite <- (firstn_skipn (length sep) s) at 1.
          rewrite E. reflexivity. }
        congruence.
    + rewrite !app_assoc in Hnew. apply app_inj_tail in Hnew.
      destruct Hnew as [Hnew _]. apply Hold.
      exists b, a'. rewrite Hnew, <- app_assoc. reflexivity.
Qed.

Lemma split_from_parts sep :
  sep <> [] ->
  forall n s cur, length s <= n ->
  ~ substring sep (rev cur ++ firstn (length sep - 1) s) ->
  forall part, In part (Str.split_from s sep cur 0) -> ~ substring sep part.
Proof.
  intros Hsep. induction n as [|n IH]; intros s cur H Inv part Hp.
  - destruct s; [| simpl in H; lia]. simpl in Hp.
    destruct Hp as [<- | []]. rewrite firstn_nil, app_nil_r in Inv. exact Inv.
  - destruct s as [|c s].
    { simpl in Hp. destruct Hp as [<- | []].
      rewrite firstn_nil, app_nil_r in Inv. exact Inv. }
    destruct (Str.startswith (c :: s) sep) eqn:E.
    + apply startswith_spec in E. destruct E as [rest E].
      rewrite E, split_from_match in Hp by exact Hsep.
      destruct Hp as [<- | Hp].
      * intros Hs. apply Inv. apply substring_app_r. exact Hs.
      * apply (IH rest []); [| | exact Hp].
        -- apply (f_equal (@length _)) in E. rewrite length_app in E.
           simpl in E, H. destruct sep; [congruence | simpl in E; lia].
        -- simpl. intros Hs. apply substring_length in Hs.
           rewrite length_firstn in Hs.
           destruct sep; [congruence | simpl in Hs; lia].
    + cbn [Str.split_from] in Hp. rewrite E in Hp.
      apply (IH s (c :: cur)); [simpl in H; lia | | exact Hp].
      simpl rev. rewrite <- app_assoc. simpl app.
      assert (K : length sep = S (length sep - 1))
        by (destruct sep; [congruence | simpl; lia]).
      change (c :: firstn (length sep - 1) s)
        with (firstn (S (length sep - 1)) (c :: s)).
      rewrite <- K. apply window_step; assumption.
Qed.

Lemma split_parts s sep part :
  sep <> [] -> In part (Str.split s sep) -> ~ substring sep part.
Proof.
  intros Hsep. apply (split_from_parts sep Hsep (length s) s []); [lia |].
  simpl. intros Hs. apply substring_length in Hs.
  rewrite length_firstn in Hs. destruct sep; [congruence | simpl in Hs; lia].
Qed.

(** *** [strip] removes the white space at both ends, and only that. *)

Lemma lstrip_spec (s : str) :
  exists l, s = l ++ Str.lstrip s /\ blank l /\
            forall c rest, Str.lstrip s = c :: rest -> Str.isspace c = false.
Proof.
  induction s as [|c s [l [E [B H]]]]; simpl.
  - exists []. split; [reflexivity |]. split; [constructor | discriminate].
  - destruct (Str.isspace c) eqn:W.
    + exists (c :: l). split; [simpl; congruence |].
      split; [constructor; assumption | exact H].
    + exists []. split; [reflexivity |]. split; [constructor |].
      intros c' rest Hc. inversion Hc; subst. exact W.
Qed.

Lemma strip_spec (s : str) :
  exists l r,
    s = l ++ Str.strip s ++ r /\ blank l /\ blank r /\
    (forall c rest, Str.strip s = c :: rest -> Str.isspace c = false) /\
    (forall front c, Str.strip s = front ++ [c] -> Str.isspace c = false).
Proof.
  unfold Str.strip, Str.rstrip.
  destruct (lstrip_spec s) as [l [E [B H]]].
  destruct (lstrip_spec (rev (Str.lstrip s))) as [l2 [E2 [B2 H2]]].
  set (t := Str.lstrip s) in *. set (u := Str.lstrip (rev t)) in *.
  assert (T : t = rev u ++ rev l2).
  { rewrite <- rev_app_distr, <- E2, rev_involutive. reflexivity. }
  exists l, (rev l2). split; [rewrite <- T; exact E |].
  split; [exact B |]. split; [apply Forall_rev; exact B2 |]. split.
  - intros c rest Hc. rewrite Hc in T. simpl in T. apply (H c _ T).
  - intros front c Hc. apply (f_equal (@rev _)) in Hc.
    rewrite rev_involutive, rev_app_distr in Hc. simpl in Hc.
    apply (H2 c _ Hc).
Qed.

(** The built-ins on the values of CPython. *)

Example split_trailing_line_break :
  Str.split (py "Tennis" ++ CRLF ++ py "Basket" ++ CRLF) CRLF =
  [py "Tennis"; py "Basket"; []].
Proof. reflexivity. Qed.

Example split_no_separator : Str.split (py "Tennis") CRLF = [py "Tennis"].
Proof. reflexivity. Qed.

Example split_empty : Str.split [] CRLF = [[]].
Proof. reflexivity. Qed.

Example split_lone_carriage_return :
  Str.split (py "a" ++ [13%N] ++ CRLF ++ py "b") CRLF =
  [py "a" ++ [13%N]; py "b"].
Proof. reflexivity. Qed.

Example strip_both_ends :
  Str.strip (py "  Tennis de table " ++ [9%N; 160%N]) = py "Tennis de table".
Proof. reflexivity. Qed.

Example strip_blank : Str.strip (py "   ") = [].
Proof. reflexivity. Qed.

Example round_up : F.round (F.decimal 1006 3) 2 = F.decimal 101 2.
Proof. vm_compute. reflexivity. Qed.

(** [round(2.675, 2) == 2.67]: the float nearest to 2.675 is below it. *)
Example round_binary_value : F.round (F.decimal 2675 3) 2 = F.decimal 267 2.
Proof. vm_compute. reflexivity. Qed.

(** [round(0.125, 2) == 0.12]: an exact tie goes to the even digit. *)
Example round_tie_to_even : F.round (F.decimal 125 3) 2 = F.decimal 12 2.
Proof. vm_compute. reflexivity. Qed.

Example round_negative_zero : F.round (F.decimal (-1) 3) 2 = S754_zero true.
Proof. vm_compute. reflexivity. Qed.

(** [47.39] is [0x1.7b1eb851eb852p+5] and [math.radians(47.39)] is
    [0x1.a77b29aca2fb8p-1]. *)
Example decimal_47_39 :
  F.decimal 4739 2 = S754_finite false 6669549573158994 (-47).
Proof. vm_compute. reflexivity. Qed.

Example radians_47_39 :
  F.radians (F.decimal 4739 2) = S754_finite false 7449958379302840 (-53).
Proof. vm_compute. reflexivity. Qed.

(** ** The handler monad *)

Lemma bind_Ok {A B} (m : M A) (k : A -> M B) s a s' :
  m s = (Ok a, s') -> bind m k s = k a s'.
Proof. intros H. unfold bind. rewrite H. reflexivity. Qed.

Lemma bind_Raise {A B} (m : M A) (k : A -> M B) s e s' :
  m s = (Raise e, s') -> bind m k s = (Raise e, s').
Proof. intros H. unfold bind. rewrite H. reflexivity. Qed.

Lemma bind_lift {A B} (r : result A) (k : A -> M B) s :
  bind (lift r) k s =
  match r with Ok a => k a s | Raise e => (Raise e, s) end.
Proof. unfold bind, lift. destruct r; reflexivity. Qed.

Lemma for_each_cons {A B} (x : A) xs (acc : B) body s :
  for_each (x :: xs) acc body s =
  match body acc x s with
  | (Ok acc', s') => for_each xs acc' body s'
  | (Raise e, s') => (Raise e, s')
  end.
Proof. reflexivity. Qed.

Lemma grows_refl s : grows s s.
Proof. split; [reflexivity | exists []; symmetry; apply app_nil_r]. Qed.

Lemma grows_trans s1 s2 s3 : grows s1 s2 -> grows s2 s3 -> grows s1 s3.
Proof.
  intros [C1 [f1 H1]] [C2 [f2 H2]]. split.
  - congruence.
  - exists (f1 ++ f2). rewrite H2, H1, app_assoc. reflexivity.
Qed.

Lemma frugal_ret {A} (a : A) : frugal (ret a).
Proof. intros s. apply grows_refl. Qed.

Lemma frugal_raise {A} e : frugal (@raise A e).
Proof. intros s. apply grows_refl. Qed.

Lemma frugal_lift {A} (r : result A) : frugal (lift r).
Proof. intros s. apply grows_refl. Qed.

Lemma frugal_get_centers : frugal get_centers.
Proof. intros s. apply grows_refl. Qed.

Lemma frugal_deref r : frugal (deref r).
Proof.
  intros s. unfold deref. destruct (nth_error (heap s) r); apply grows_refl.
Qed.

Lemma frugal_alloc d : frugal (alloc d).
Proof. intros s. split; [reflexivity | exists [d]; reflexivity]. Qed.

Lemma frugal_bind {A B} (m : M A) (k : A -> M B) :
  frugal m -> (forall a, frugal (k a)) -> frugal (bind m k).
Proof.
  intros Hm Hk s. unfold bind. specialize (Hm s).
  destruct (m s) as [[a|e] s']; simpl in *.
  - eapply grows_trans; [exact Hm | apply Hk].
  - exact Hm.
Qed.

Lemma frugal_for_each {A B} (xs : list A) (body : B -> A -> M B) :
  (forall acc x, frugal (body acc x)) ->
  forall acc, frugal (for_each xs acc body).
Proof.
  intros Hb. induction xs as [|x xs IH]; intros acc; simpl.
  - apply frugal_ret.
  - apply frugal_bind; [apply Hb | intros a; apply IH].
Qed.

Lemma frugal_deref_all rs : frugal (deref_all rs).
Proof.
  induction rs as [|r rs IH]; simpl.
  - apply frugal_ret.
  - apply frugal_bind; [apply frugal_deref | intros d].
    apply frugal_bind; [exact IH | intros ds; apply frugal_ret].
Qed.

Lemma frugal_if {A} (b : bool) (m1 m2 : M A) :
  frugal m1 -> frugal m2 -> frugal (if b then m1 else m2).
Proof. destruct b; auto. Qed.

Create HintDb frugal.

#[export] Hint Resolve frugal_ret frugal_raise frugal_lift frugal_get_centers
  frugal_deref frugal_alloc frugal_deref_all frugal_if : frugal.

Ltac frugal :=
  repeat first
    [ apply frugal_bind; [| intro]
    | apply frugal_for_each; intros
    | apply frugal_if
    | solve [auto with frugal] ].

(** ** References and the objects behind them *)

Lemma points_to_grows s s' rs ds :
  grows s s' -> points_to s rs ds -> points_to s' rs ds.
Proof.
  intros [_ [fresh H]] P. unfold points_to in *.
  induction P as [|r d rs ds Hr P IH]; constructor; auto.
  rewrite H. rewrite nth_error_app1; [exact Hr |].
  apply nth_error_Some. congruence.
Qed.

Lemma points_to_app s rs1 ds1 rs2 ds2 :
  points_to s rs1 ds1 -> points_to s rs2 ds2 ->
  points_to s (rs1 ++ rs2) (ds1 ++ ds2).
Proof. apply Forall2_app. Qed.

Lemma points_to_length s rs ds : points_to s rs ds -> length rs = length ds.
Proof. apply Forall2_length. Qed.

Lemma points_to_seq (front ds back : list Center.t) s :
  heap s = front ++ ds ++ back ->
  points_to s (seq (length front) (length ds)) ds.
Proof.
  revert front. induction ds as [|d ds IH]; intros front H; simpl.
  - constructor.
  - constructor.
    + rewrite H. rewrite nth_error_app2 by lia.
      rewrite Nat.sub_diag. reflexivity.
    + specialize (IH (front ++ [d])). rewrite length_app in IH. simpl in IH.
      rewrite Nat.add_1_r in IH. apply IH.
      rewrite H, <- app_assoc. reflexivity.
Qed.

Lemma points_to_load ds s :
  grows (load_centers ds) s -> points_to s (centers s) ds.
Proof.
  intros [C [fresh H]]. rewrite C. simpl in *.
  apply (points_to_seq [] ds fresh). exact H.
Qed.

Lemma points_to_firstn s rs ds n :
  points_to s rs ds -> points_to s (firstn n rs) (firstn n ds).
Proof.
  unfold points_to. intros P. revert n.
  induction P; intros [|n]; simpl; constructor; auto.
Qed.

Lemma points_to_skipn s rs ds n :
  points_to s rs ds -> points_to s (skipn n rs) (skipn n ds).
Proof.
  unfold points_to. intros P. revert n.
  induction P; intros [|n]; simpl; try constructor; auto.
Qed.

Lemma points_to_slice s rs ds a b :
  points_to s rs ds -> points_to s (slice rs a b) (slice ds a b).
Proof.
  intros P. unfold slice. rewrite (points_to_length _ _ _ P).
  apply points_to_firstn, points_to_skipn, P.
Qed.

Lemma deref_points s r d :
  nth_error (heap s) r = Some d -> deref r s = (Ok d, s).
Proof. intros H. unfold deref. rewrite H. reflexivity. Qed.

Lemma deref_all_points s rs ds :
  points_to s rs ds -> deref_all rs s = (Ok ds, s).
Proof.
  induction 1 as [|r d rs ds Hr P IH]; simpl.
  - reflexivity.
  - erewrite bind_Ok by (apply deref_points; exact Hr).
    erewrite bind_Ok by exact IH. reflexivity.
Qed.

(** A loop that appends the references whose object passes a test keeps
    the state and selects the objects that [filter] selects. *)
Lemma for_each_filter (P : Center.t -> bool) s cs ds :
  points_to s cs ds ->
  forall acc, exists sel,
    for_each cs acc (fun results r =>
      c <- deref r ;; if P c then ret (results ++ [r]) else ret results) s
    = (Ok (acc ++ sel), s) /\
    points_to s sel (filter P ds).
Proof.
  induction 1 as [|r d cs ds Hr Hp IH]; intros acc; simpl.
  - exists []. rewrite app_nil_r. split; [reflexivity | constructor].
  - destruct (P d) eqn:E.
    + destruct (IH (acc ++ [r])) as [sel [H1 H2]].
      exists (r :: sel). split.
      * erewrite bind_Ok.
        2:{ erewrite bind_Ok by (apply deref_points; exact Hr).
            rewrite E. reflexivity. }
        rewrite <- app_assoc in H1. exact H1.
      * constructor; assumption.
    + destruct (IH acc) as [sel [H1 H2]].
      exists sel. split; [| exact H2].
      erewrite bind_Ok.
      2:{ erewrite bind_Ok by (apply deref_points; exact Hr).
          rewrite E. reflexivity. }
      exact H1.
Qed.

(** The loop of [list_disciplines] and [list_pathologies]. *)
Lemma for_each_collect (field : Center.t -> str) s cs ds :
  points_to s cs ds ->
  forall acc,
    for_each cs acc (fun all r =>
      center <- deref r ;;
      ret (fold_left (fun all d =>
             let d := Str.strip d in
             match d with
             | [] => all
             | _ :: _ => Str.set_add d all
             end) (Str.split (field center) CRLF) all)) s
    = (Ok (fold_left (fun all center =>
             add_values all (Str.split (field center) CRLF)) ds acc), s).
Proof.
  induction 1 as [|r d cs ds Hr Hp IH]; intros acc; simpl.
  - reflexivity.
  - erewrite bind_Ok.
    2:{ erewrite bind_Ok by (apply deref_points; exact Hr). reflexivity. }
    apply IH.
Qed.

Lemma find_center_points s center_id cs ds :
  points_to s cs ds ->
  find_center center_id cs s =
  (match find (fun c => Str.eqb (Center.id c) center_id) ds with
   | Some center => Ok (OneCenter center)
   | None => Raise (not_found center_id)
   end, s).
Proof.
  induction 1 as [|r d cs ds Hr Hp IH]; simpl.
  - reflexivity.
  - erewrite bind_Ok by (apply deref_points; exact Hr).
    destruct (Str.eqb (Center.id d) center_id); [reflexivity | exact IH].
Qed.

(** Sorting by key treats two lists alike when their keys agree. *)
Lemma insert_by_key_related {A B} (R : A -> B -> Prop) x y l l' :
  fst x = fst y -> R (snd x) (snd y) ->
  Forall2 (fun a b => fst a = fst b /\ R (snd a) (snd b)) l l' ->
  Forall2 (fun a b => fst a = fst b /\ R (snd a) (snd b))
    (insert_by_key x l) (insert_by_key y l').
Proof.
  intros Hk Hr H. induction H as [|a b l l' [Hab Rab] H IH]; simpl.
  - constructor; [split; assumption | constructor].
  - rewrite Hk, Hab. destruct (F.ltb (fst b) (fst y)).
    + constructor; [split; assumption | exact IH].
    + constructor; [split; assumption |].
      constructor; [split; assumption | exact H].
Qed.

Lemma sort_by_key_related {A B} (R : A -> B -> Prop) l l' :
  Forall2 (fun a b => fst a = fst b /\ R (snd a) (snd b)) l l' ->
  Forall2 (fun a b => fst a = fst b /\ R (snd a) (snd b))
    (sort_by_key l) (sort_by_key l').
Proof.
  induction 1 as [|a b l l' [Hab Rab] H IH]; simpl.
  - constructor.
  - apply insert_by_key_related; assumption.
Qed.

Section ServiceProperties.

Context {RT : Runtime}.

(** ** No handler writes to an existing object *)

Lemma frugal_find_center center_id cs : frugal (find_center center_id cs).
Proof. induction cs as [|r cs IH]; simpl; frugal. Qed.

Lemma frugal_with_keys rs : frugal (with_keys rs).
Proof.
  induction rs as [|r rs IH]; simpl; frugal.
  unfold key_distance_km. frugal.
  destruct (Center.distance_km a); frugal.
Qed.

Lemma handle_frugal (req : request) : frugal (handle req).
Proof.
  destruct req; simpl;
    unfold root, get_all_centers, get_center_by_id, search_centers,
      get_by_discipline, list_disciplines, get_by_pathology,
      list_pathologies, get_nearby_centers;
    frugal;
    auto using frugal_find_center, frugal_with_keys.
Qed.

Lemma serve_grows (history : list request) :
  forall s, grows s (serve history s).
Proof.
  induction history as [|req history IH]; intros s; simpl.
  - apply grows_refl.
  - eapply grows_trans; [apply handle_frugal | apply IH].
Qed.

(** ** The handlers return what their by-value reading says *)

Lemma nearby_body lat lng radius_km s r d (results : list ref) :
  nth_error (heap s) r = Some d ->
  (center <- deref r ;;
   center_lat <- lift (to_float (Center.lat center)) ;;
   center_lng <- lift (to_float (Center.lng center)) ;;
   distance <- lift (haversine_distance lat lng center_lat center_lng) ;;
   if F.leb distance radius_km
   then
     copy <- alloc (Center.with_distance_km center (F.round distance 2)) ;;
     ret (results ++ [copy])
   else ret results) s =
  match distance_to lat lng d with
  | Raise e => (Raise e, s)
  | Ok distance =>
      if F.leb distance radius_km
      then (Ok (results ++ [length (heap s)]),
            {| heap := heap s ++
                       [Center.with_distance_km d (F.round distance 2)];
               centers := centers s |})
      else (Ok results, s)
  end.
Proof.
  intros Hr. erewrite bind_Ok by (apply deref_points; exact Hr).
  unfold distance_to. rewrite bind_lift.
  destruct (to_float (Center.lat d)) as [clat|e]; simpl; [| reflexivity].
  rewrite bind_lift.
  destruct (to_float (Center.lng d)) as [clng|e]; simpl; [| reflexivity].
  rewrite bind_lift.
  destruct (haversine_distance lat lng clat clng) as [dist|e]; [| reflexivity].
  destruct (F.leb dist radius_km); reflexivity.
Qed.

Lemma nearby_loop lat lng radius_km ds :
  forall cs s acc,
  points_to s cs ds ->
  let out :=
    for_each cs acc (fun results r =>
      center <- deref r ;;
      center_lat <- lift (to_float (Center.lat center)) ;;
      center_lng <- lift (to_float (Center.lng center)) ;;
      distance <- lift (haversine_distance lat lng center_lat center_lng) ;;
      if F.leb distance radius_km
      then
        copy <- alloc (Center.with_distance_km center (F.round distance 2)) ;;
        ret (results ++ [copy])
      else ret results) s in
  grows s (snd out) /\
  match nearby_scan lat lng radius_km ds with
  | Ok kept =>
      exists refs, fst out = Ok (acc ++ refs) /\
                   points_to (snd out) refs (map snd kept)
  | Raise e => fst out = Raise e
  end.
Proof.
  induction ds as [|d ds IH]; intros cs s acc P; inversion P; subst.
  - simpl. split; [apply grows_refl |].
    exists []. rewrite app_nil_r. split; [reflexivity | constructor].
  - match goal with H : nth_error _ _ = Some d |- _ => rename H into Hr end.
    match goal with H : Forall2 _ _ ds |- _ => rename H into Hp end.
    cbv zeta. cbn [nearby_scan]. rewrite !for_each_cons.
    rewrite !(nearby_body lat lng radius_km s _ d acc Hr).
    destruct (distance_to lat lng d) as [dist|e]; simpl result_bind.
    2:{ simpl. split; [apply grows_refl | reflexivity]. }
    destruct (F.leb dist radius_km) eqn:E.
    + set (s1 := {| heap := heap s ++ _; centers := centers s |}).
      assert (G : grows s s1)
        by (split; [reflexivity | eexists; reflexivity]).
      specialize (IH _ s1 (acc ++ [length (heap s)])
                    (points_to_grows _ _ _ _ G Hp)).
      cbv zeta in IH. destruct IH as [G1 IH]. split.
      * eapply grows_trans; eassumption.
      * destruct (nearby_scan lat lng radius_km ds) as [kept|e]; simpl.
        -- destruct IH as [refs [H1 H2]].
           exists (length (heap s) :: refs). split.
           ++ rewrite H1, <- app_assoc. reflexivity.
           ++ constructor; [| exact H2].
              destruct G1 as [_ [fresh Hf]]. rewrite Hf.
              rewrite nth_error_app1
                by (subst s1; simpl; rewrite length_app; simpl; lia).
              subst s1; simpl. rewrite nth_error_app2 by lia.
              rewrite Nat.sub_diag. reflexivity.
        -- exact IH.
    + specialize (IH _ s acc Hp). cbv zeta in IH.
      destruct IH as [G1 IH]. split; [exact G1 |].
      destruct (nearby_scan lat lng radius_km ds) as [kept|e]; exact IH.
Qed.

Lemma nearby_scan_keys lat lng radius_km ds kept :
  nearby_scan lat lng radius_km ds = Ok kept ->
  Forall (fun kc => Center.distance_km (snd kc) = Some (fst kc)) kept.
Proof.
  revert kept. induction ds as [|d ds IH]; simpl; intros kept H.
  - inversion H. constructor.
  - destruct (distance_to lat lng d) as [dist|e]; simpl in H; [| discriminate].
    destruct (nearby_scan lat lng radius_km ds) as [rest|e]; simpl in H;
      [| discriminate].
    inversion H; subst; clear H.
    destruct (F.leb dist radius_km); [constructor |]; auto.
Qed.

Lemma with_keys_points s refs (kept : list (float * Center.t)) :
  points_to s refs (map snd kept) ->
  Forall (fun kc => Center.distance_km (snd kc) = Some (fst kc)) kept ->
  exists keyed,
    with_keys refs s = (Ok keyed, s) /\
    Forall2 (fun kr kc => fst kr = fst kc /\
                          nth_error (heap s) (snd kr) = Some (snd kc))
      keyed kept.
Proof.
  revert refs. induction kept as [|[k c] kept IH]; intros refs P K;
    simpl in P; inversion P as [|r c' rs cs' Hr Hp]; subst.
  - exists []. split; [reflexivity | constructor].
  - inversion K as [|kc kept' Hk Hks]; subst. simpl in Hk.
    destruct (IH _ Hp Hks) as [keyed [H1 H2]].
    exists ((k, r) :: keyed). split.
    + simpl. unfold key_distance_km.
      erewrite bind_Ok.
      2:{ erewrite bind_Ok by (apply deref_points; exact Hr).
          rewrite Hk. reflexivity. }
      erewrite bind_Ok by exact H1. reflexivity.
    + constructor; [split; [reflexivity | exact Hr] | exact H2].
Qed.

Lemma related_points s (keyed : list (float * ref))
  (kept : list (float * Center.t)) :
  Forall2 (fun kr kc => fst kr = fst kc /\
                        nth_error (heap s) (snd kr) = Some (snd kc))
    keyed kept ->
  points_to s (map snd keyed) (map snd kept).
Proof.
  induction 1 as [|a b l l' [_ H1] H IH]; simpl; constructor; assumption.
Qed.

Theorem handle_reply (req : request) s ds :
  points_to s (centers s) ds ->
  fst (handle req s) = reply ds req.
Proof.
  intros P. destruct req as [|limit offset|center_id|q|name| |name| |lat lng r];
    cbn [handle reply].
  - (* root *)
    unfold root. erewrite bind_Ok by reflexivity. simpl.
    rewrite (points_to_length _ _ _ P). reflexivity.
  - (* get_all_centers *)
    unfold get_all_centers. rewrite bind_lift.
    destruct (Query_default 100%Z valid_limit limit) as [l|e]; [| reflexivity].
    rewrite bind_lift.
    destruct (Query_default 0%Z valid_offset offset) as [o|e]; [| reflexivity].
    erewrite bind_Ok by reflexivity.
    erewrite bind_Ok
      by (apply deref_all_points, points_to_slice; exact P).
    simpl. rewrite (points_to_length _ _ _ P). reflexivity.
  - (* get_center_by_id *)
    unfold get_center_by_id. erewrite bind_Ok by reflexivity.
    rewrite (find_center_points s center_id _ _ P). reflexivity.
  - (* search_centers *)
    unfold search_centers. rewrite bind_lift.
    destruct (Query_required (fun v => 2 <=? length v) q) as [q'|e];
      [| reflexivity].
    erewrite bind_Ok by reflexivity.
    destruct (for_each_filter (keyword_match (str_lower q')) s _ _ P [])
      as [sel [H1 H2]].
    unfold keyword_match in H1 at 1.
    erewrite bind_Ok by exact H1.
    erewrite bind_Ok by (apply deref_all_points; exact H2).
    simpl. rewrite (points_to_length _ _ _ H2). reflexivity.
  - (* get_by_discipline *)
    unfold get_by_discipline. rewrite bind_lift.
    destruct (Query_required (fun _ => true) name) as [n|e]; [| reflexivity].
    erewrite bind_Ok by reflexivity.
    destruct (for_each_filter (field_match Center.Discipline (str_lower n))
                s _ _ P []) as [sel [H1 H2]].
    unfold field_match in H1 at 1.
    erewrite bind_Ok by exact H1.
    erewrite bind_Ok by (apply deref_all_points; exact H2).
    simpl. rewrite (points_to_length _ _ _ H2). reflexivity.
  - (* list_disciplines *)
    unfold list_disciplines. erewrite bind_Ok by reflexivity.
    erewrite bind_Ok by (apply (for_each_collect Center.Discipline); exact P).
    reflexivity.
  - (* get_by_pathology *)
    unfold get_by_pathology. rewrite bind_lift.
    destruct (Query_required (fun _ => true) name) as [n|e]; [| reflexivity].
    erewrite bind_Ok by reflexivity.
    destruct (for_each_filter (field_match Center.Pathologies (str_lower n))
                s _ _ P []) as [sel [H1 H2]].
    unfold field_match in H1 at 1.
    erewrite bind_Ok by exact H1.
    erewrite bind_Ok by (apply deref_all_points; exact H2).
    simpl. rewrite (points_to_length _ _ _ H2). reflexivity.
  - (* list_pathologies *)
    unfold list_pathologies. erewrite bind_Ok by reflexivity.
    erewrite bind_Ok by (apply (for_each_collect Center.Pathologies); exact P).
    reflexivity.
  - (* get_nearby_centers *)
    unfold get_nearby_centers. rewrite bind_lift.
    destruct (Query_required (fun _ => true) lat) as [la|e]; [| reflexivity].
    rewrite bind_lift.
    destruct (Query_required (fun _ => true) lng) as [lo|e]; [| reflexivity].
    rewrite bind_lift.
    destruct (Query_default (F.of_Z 50) valid_radius r) as [rad|e];
      [| reflexivity].
    erewrite bind_Ok by reflexivity. simpl result_bind.
    pose proof (nearby_loop la lo rad ds (centers s) s [] P) as L.
    cbv zeta in L. destruct L as [G L].
    pose proof (nearby_scan_keys la lo rad ds) as K.
    destruct (nearby_scan la lo rad ds) as [kept|e]; simpl result_bind.
    + destruct L as [refs [L1 L2]]. simpl in L1.
      specialize (K _ eq_refl).
      match type of L1 with fst ?o = _ =>
        destruct o as [res s1] eqn:Eo end.
      simpl in L1, L2, G. subst res.
      unfold bind at 1. rewrite Eo.
      destruct (with_keys_points s1 refs kept L2 K) as [keyed [W1 W2]].
      erewrite bind_Ok by exact W1.
      pose proof (related_points s1 _ _
                    (sort_by_key_related
                       (fun r c => nth_error (heap s1) r = Some c) _ _ W2))
        as Q.
      erewrite bind_Ok by (apply deref_all_points; exact Q).
      unfold ret. cbn [fst]. do 2 f_equal.
      exact (points_to_length _ _ _ Q).
    + match type of L with fst ?o = _ =>
        destruct o as [res s1] eqn:Eo end.
      simpl in L. subst res. unfold bind at 1. rewrite Eo. reflexivity.
Qed.

(** Every state the process reaches still holds the loaded records. *)
Lemma serve_points dataset history :
  let s := serve history (load_centers dataset) in
  points_to s (centers s) dataset.
Proof. apply points_to_load, serve_grows. Qed.

Theorem answer_reply dataset history req :
  answer dataset history req = reply dataset req.
Proof. unfold answer. apply handle_reply, serve_points. Qed.

End ServiceProperties.

(** ** Pagination *)

Lemma slice_window {A} (l : list A) (offset limit : Z) :
  (0 <= offset)%Z -> (0 <= limit)%Z ->
  slice l offset (offset + limit) =
  firstn (Z.to_nat limit) (skipn (Z.to_nat offset) l).
Proof.
  intros Ho Hl. unfold slice.
  destruct (Z.ltb_spec offset 0) as [?|_]; [lia |].
  destruct (Z.ltb_spec (offset + limit) 0) as [?|_]; [lia |].
  set (n := Z.of_nat (length l)).
  destruct (Z.le_gt_cases n offset) as [Hge|Hlt].
  - rewrite (Z.min_r offset n) by lia.
    rewrite !(skipn_all2 l) by lia. rewrite !firstn_nil. reflexivity.
  - rewrite (Z.min_l offset n) by lia.
    destruct (Z.le_gt_cases (offset + limit) n) as [H1|H1].
    + rewrite Z.min_l by lia. f_equal. lia.
    + rewrite Z.min_r by lia.
      rewrite !firstn_all2; [reflexivity | |];
        rewrite length_skipn; lia.
Qed.

Lemma window_length {A} (l : list A) (offset limit : Z) :
  (0 <= offset)%Z -> (0 <= limit)%Z ->
  Z.of_nat (length (firstn (Z.to_nat limit) (skipn (Z.to_nat offset) l))) =
  if (Z.of_nat (length l) <=? offset)%Z then 0%Z
  else Z.min limit (Z.of_nat (length l) - offset).
Proof.
  intros Ho Hl. rewrite length_firstn, length_skipn.
  destruct (Z.leb_spec (Z.of_nat (length l)) offset); lia.
Qed.

(** C5: for [limit] in [1, 500] and [offset >= 0] the list-all endpoint
    returns the collection size as [total] and, as [data], the slice of
    the collection that starts at index [offset] and has at most [limit]
    records, so that [len(data) = min(limit, total - offset)], or [0]
    when [offset >= total]; a [limit] outside the range or a negative
    [offset] is rejected with a validation error. *)
Theorem get_all_centers_page {RT : Runtime} dataset history (limit offset : Z) :
  ((1 <= limit <= 500)%Z /\ (0 <= offset)%Z ->
   let total := length dataset in
   let data := firstn (Z.to_nat limit) (skipn (Z.to_nat offset) dataset) in
   answer dataset history (GetAllCenters (Some limit) (Some offset)) =
     Ok (AllCenters total limit offset data) /\
   Z.of_nat (length data) =
     (if (Z.of_nat total <=? offset)%Z then 0
      else Z.min limit (Z.of_nat total - offset))%Z) /\
  (~ (1 <= limit <= 500)%Z \/ (offset < 0)%Z ->
   answer dataset history (GetAllCenters (Some limit) (Some offset)) =
     Raise RequestValidationError).
Proof.
  rewrite answer_reply. cbn [reply Query_default]. unfold valid_limit,
    valid_offset. split.
  - intros [[H1 H2] H3]. cbv zeta.
    destruct (Z.leb_spec 1 limit); [| lia].
    destruct (Z.leb_spec limit 500); [| lia].
    destruct (Z.leb_spec 0 offset); [| lia].
    simpl. rewrite slice_window by lia. split; [reflexivity |].
    apply window_length; lia.
  - intros H.
    destruct (Z.leb_spec 1 limit); [| reflexivity].
    destruct (Z.leb_spec limit 500); [| reflexivity].
    destruct (Z.leb_spec 0 offset); [| reflexivity].
    lia.
Qed.

Lemma get_all_centers_page_witness :
  answer [sample "a" (py "") (F.of_Z 47) (F.of_Z 1);
          sample "b" (py "") (F.of_Z 48) (F.of_Z 2);
          sample "c" (py "") (F.of_Z 49) (F.of_Z 3)] [GetRoot]
    (GetAllCenters (Some 2%Z) (Some 2%Z)) =
    Ok (AllCenters 3 2 2 [sample "c" (py "") (F.of_Z 49) (F.of_Z 3)]) /\
  answer [sample "a" (py "") (F.of_Z 47) (F.of_Z 1)] []
    (GetAllCenters (Some 501%Z) (Some 0%Z)) = Raise RequestValidationError.
Proof.
  split.
  - apply (proj1 (get_all_centers_page
             [sample "a" (py "") (F.of_Z 47) (F.of_Z 1);
              sample "b" (py "") (F.of_Z 48) (F.of_Z 2);
              sample "c" (py "") (F.of_Z 49) (F.of_Z 3)] [GetRoot] 2 2)). lia.
  - apply (proj2 (get_all_centers_page
             [sample "a" (py "") (F.of_Z 47) (F.of_Z 1)] [] 501 0)). lia.
Defined.

(** ** Lookup by id *)

Lemma find_id_present center_id (ds : list Center.t) :
  (exists c, In c ds /\ Center.id c = center_id) ->
  exists c, find (fun c => Str.eqb (Center.id c) center_id) ds = Some c /\
            In c ds /\ Center.id c = center_id.
Proof.
  intros [c [Hin Hid]].
  destruct (find (fun c => Str.eqb (Center.id c) center_id) ds) as [c'|] eqn:E.
  - exists c'. apply find_some in E. destruct E as [E1 E2].
    apply str_eqb_eq in E2. auto.
  - apply find_none with (x := c) in E; [| exact Hin].
    rewrite Hid, str_eqb_refl in E. discriminate.
Qed.

Lemma find_id_absent center_id (ds : list Center.t) :
  (forall c, In c ds -> Center.id c <> center_id) ->
  find (fun c => Str.eqb (Center.id c) center_id) ds = None.
Proof.
  intros H. induction ds as [|d ds IH]; simpl; [reflexivity |].
  destruct (Str.eqb (Center.id d) center_id) eqn:E.
  - apply str_eqb_eq in E. exfalso. apply (H d); [left; reflexivity | exact E].
  - apply IH. intros c Hc. apply H. right. exact Hc.
Qed.

(** C6: for an id that some record of the collection carries, the
    lookup returns a record of the collection whose [id] is the requested
    one; for an id that no record carries it raises the 404 exception,
    which is not the validation error and whose detail contains the
    requested id. *)
Theorem get_center_by_id_found_or_404 {RT : Runtime} dataset history center_id :
  ((exists c, In c dataset /\ Center.id c = center_id) ->
   exists c, answer dataset history (GetCenterById center_id) =
               Ok (OneCenter c) /\
             In c dataset /\ Center.id c = center_id) /\
  ((forall c, In c dataset -> Center.id c <> center_id) ->
   exists detail,
     answer dataset history (GetCenterById center_id) =
       Raise (HTTPException 404 detail) /\
     HTTPException 404 detail <> RequestValidationError /\
     substring center_id detail).
Proof.
  rewrite answer_reply. cbn [reply]. split.
  - intros H. destruct (find_id_present center_id dataset H) as [c [E [H1 H2]]].
    exists c. rewrite E. auto.
  - intros H. rewrite (find_id_absent center_id dataset H).
    eexists. split; [reflexivity |]. split; [discriminate |].
    exists (py "Center with id "), (py " not found"). reflexivity.
Qed.

Lemma get_center_by_id_found_or_404_witness :
  (exists c, answer [sample "a" (py "") (F.of_Z 47) (F.of_Z 1);
                     sample "b" (py "") (F.of_Z 48) (F.of_Z 2)] []
               (GetCenterById (py "b")) = Ok (OneCenter c) /\
             In c [sample "a" (py "") (F.of_Z 47) (F.of_Z 1);
                   sample "b" (py "") (F.of_Z 48) (F.of_Z 2)] /\
             Center.id c = py "b") /\
  (exists detail,
     answer [sample "a" (py "") (F.of_Z 47) (F.of_Z 1)] []
       (GetCenterById (py "z")) =
       Raise (HTTPException 404 detail) /\
     HTTPException 404 detail <> RequestValidationError /\
     substring (py "z") detail).
Proof.
  split.
  - apply (proj1 (get_center_by_id_found_or_404
             [sample "a" (py "") (F.of_Z 47) (F.of_Z 1);
              sample "b" (py "") (F.of_Z 48) (F.of_Z 2)] [] (py "b"))).
    exists (sample "b" (py "") (F.of_Z 48) (F.of_Z 2)).
    split; [right; left; reflexivity | reflexivity].
  - apply (proj2 (get_center_by_id_found_or_404
             [sample "a" (py "") (F.of_Z 47) (F.of_Z 1)] [] (py "z"))).
    intros c [<- | []]. discriminate.
Defined.

(** ** Substring search *)

Lemma filter_all {A} (P : A -> bool) (l : list A) :
  (forall x, P x = true) -> filter P l = l.
Proof.
  intros H. induction l as [|x l IH]; simpl; [reflexivity |].
  rewrite H, IH. reflexivity.
Qed.

Lemma substring_map (f : char -> char) (needle hay : str) :
  substring needle hay -> substring (map f needle) (map f hay).
Proof.
  intros [before [after ->]]. exists (map f before), (map f after).
  rewrite !map_app. reflexivity.
Qed.

Lemma substring_trans (a b c : str) :
  substring a b -> substring b c -> substring a c.
Proof.
  intros [p1 [q1 ->]] [p2 [q2 ->]]. exists (p2 ++ p1), (q1 ++ q2).
  rewrite <- !app_assoc. reflexivity.
Qed.

Lemma keyword_match_spec {RT : Runtime} (q_lower : str) (c : Center.t) :
  keyword_match q_lower c = true <->
  substring q_lower (str_lower (Center.Name c)) \/
  substring q_lower (str_lower (Center.Description c)) \/
  substring q_lower (str_lower (Center.Discipline c)).
Proof.
  unfold keyword_match. rewrite !orb_true_iff, !contains_spec. tauto.
Qed.

Lemma field_match_spec {RT : Runtime} field (name_lower : str) (c : Center.t) :
  field_match field name_lower c = true <->
  substring name_lower (str_lower (field c)).
Proof. unfold field_match. apply contains_spec. Qed.

(** C2: a keyword of fewer than 2 characters is rejected with the
    validation error; for a keyword [q] of at least 2 characters the
    search returns, in collection order, exactly the records for which
    the lower-cased [q] occurs in the lower-cased name, the lower-cased
    description or the lower-cased raw discipline field, and every
    returned record satisfies one of these three containments. *)
Theorem search_centers_substring {RT : Runtime} dataset history (q : str) :
  (length q < 2 ->
   answer dataset history (GetSearch (Some q)) =
     Raise RequestValidationError) /\
  (2 <= length q ->
   exists data,
     answer dataset history (GetSearch (Some q)) =
       Ok (SearchResult q (length data) data) /\
     data = filter (keyword_match (str_lower q)) dataset /\
     forall c, In c data <->
       In c dataset /\
       (substring (str_lower q) (str_lower (Center.Name c)) \/
        substring (str_lower q) (str_lower (Center.Description c)) \/
        substring (str_lower q) (str_lower (Center.Discipline c)))).
Proof.
  rewrite answer_reply. cbn [reply Query_required]. split; intros H.
  - destruct (Nat.leb_spec 2 (length q)); [lia | reflexivity].
  - destruct (Nat.leb_spec 2 (length q)); [| lia].
    eexists. split; [reflexivity |]. split; [reflexivity |].
    intros c. rewrite filter_In, keyword_match_spec. tauto.
Qed.

Lemma search_centers_substring_witness :
  answer [sample "a" (py "Tennis") (F.of_Z 47) (F.of_Z 1)] []
    (GetSearch (Some (py "t"))) = Raise RequestValidationError /\
  exists data,
    answer [sample "a" (py "Tennis") (F.of_Z 47) (F.of_Z 1);
            sample "b" (py "Basket") (F.of_Z 48) (F.of_Z 2)] []
      (GetSearch (Some (py "TEN"))) =
      Ok (SearchResult (py "TEN") (length data) data) /\
    data = [sample "a" (py "Tennis") (F.of_Z 47) (F.of_Z 1)].
Proof.
  split.
  - apply (proj1 (search_centers_substring
             [sample "a" (py "Tennis") (F.of_Z 47) (F.of_Z 1)] [] (py "t"))).
    simpl. lia.
  - destruct (proj2 (search_centers_substring
                [sample "a" (py "Tennis") (F.of_Z 47) (F.of_Z 1);
                 sample "b" (py "Basket") (F.of_Z 48) (F.of_Z 2)] []
                (py "TEN")))
      as [data [H1 [H2 _]]].
    + simpl. lia.
    + exists data. split; [exact H1 | rewrite H2; reflexivity].
Defined.

Lemma lower_tennis :
  Approx.lower (py "Tennis de table") = py "tennis de table".
Proof. reflexivity. Qed.

Lemma ascii_only_tennis : ascii_only (py "tennis").
Proof. repeat constructor. Qed.

Lemma tennis_in_table : substring (py "tennis") (py "tennis de table").
Proof. exists [], (py " de table"). reflexivity. Qed.

(** C3: [by_discipline(name)] returns, in collection order, exactly the
    records whose lower-cased raw discipline field contains the
    lower-cased [name], and [by_pathology(name)] does the same on the raw
    pathologies field; the match is containment, not equality with one of
    the listed values: with [str.lower] the ASCII lower-casing on ASCII
    text, ["tennis"] selects every record whose ASCII field contains
    ["Tennis de table"], though ["tennis"] is none of the values of the
    field ["Tennis de table\r\nBasket"]. *)
Theorem get_by_field_substring {RT : Runtime} dataset history (name : str) :
  (exists data,
     answer dataset history (GetDiscipline (Some name)) =
       Ok (DisciplineResult name (length data) data) /\
     data = filter (field_match Center.Discipline (str_lower name)) dataset /\
     forall c, In c data <->
       In c dataset /\
       substring (str_lower name) (str_lower (Center.Discipline c))) /\
  (exists data,
     answer dataset history (GetPathology (Some name)) =
       Ok (PathologyResult name (length data) data) /\
     data = filter (field_match Center.Pathologies (str_lower name)) dataset /\
     forall c, In c data <->
       In c dataset /\
       substring (str_lower name) (str_lower (Center.Pathologies c))) /\
  (lower_on_ascii RT ->
   forall c, In c dataset ->
     ascii_only (Center.Discipline c) ->
     substring (py "Tennis de table") (Center.Discipline c) ->
     exists data,
       answer dataset history (GetDiscipline (Some (py "tennis"))) =
         Ok (DisciplineResult (py "tennis") (length data) data) /\
       In c data) /\
  ~ In (py "tennis")
      (map Approx.lower
         (tokens (py "Tennis de table" ++ CRLF ++ py "Basket"))).
Proof.
  rewrite !answer_reply. cbn [reply Query_required]. repeat split.
  - eexists. split; [reflexivity |]. split; [reflexivity |].
    intros c. rewrite filter_In, field_match_spec. tauto.
  - eexists. split; [reflexivity |]. split; [reflexivity |].
    intros c. rewrite filter_In, field_match_spec. tauto.
  - intros Hlow c Hin Hascii Hsub.
    eexists. split; [reflexivity |].
    apply filter_In. split; [exact Hin |].
    apply field_match_spec.
    rewrite (Hlow _ ascii_only_tennis), (Hlow _ Hascii).
    change (Approx.lower (py "tennis")) with (py "tennis").
    apply substring_trans with (b := py "tennis de table").
    + exact tennis_in_table.
    + rewrite <- lower_tennis. apply substring_map. exact Hsub.
  - vm_compute. intros H. repeat (destruct H as [H | H]; [discriminate |]).
    exact H.
Qed.

Lemma approx_lower_on_ascii : lower_on_ascii approx_runtime.
Proof. intros s _. reflexivity. Qed.

Lemma get_by_field_substring_witness :
  exists data,
    answer [sample "a" (py "Tennis de table") (F.of_Z 47) (F.of_Z 1);
            sample "b" (py "Basket") (F.of_Z 48) (F.of_Z 2)] []
      (GetDiscipline (Some (py "tennis"))) =
      Ok (DisciplineResult (py "tennis") (length data) data) /\
    In (sample "a" (py "Tennis de table") (F.of_Z 47) (F.of_Z 1)) data.
Proof.
  apply (proj1 (proj2 (proj2 (get_by_field_substring
           [sample "a" (py "Tennis de table") (F.of_Z 47) (F.of_Z 1);
            sample "b" (py "Basket") (F.of_Z 48) (F.of_Z 2)] []
           (py "tennis"))))).
  - exact approx_lower_on_ascii.
  - left. reflexivity.
  - repeat constructor.
  - exists [], []. reflexivity.
Defined.

(** C10: an empty [name] passes the validation of [by_discipline] and of
    [by_pathology]; with [str.lower] leaving the empty string empty, each
    returns the whole collection in collection order, and a [count] equal
    to the collection size. *)
Theorem empty_name_returns_all {RT : Runtime} dataset history :
  str_lower [] = [] ->
  answer dataset history (GetDiscipline (Some [])) =
    Ok (DisciplineResult [] (length dataset) dataset) /\
  answer dataset history (GetPathology (Some [])) =
    Ok (PathologyResult [] (length dataset) dataset).
Proof.
  intros H. rewrite !answer_reply. cbn [reply Query_required result_bind].
  rewrite H. cbv zeta.
  rewrite !filter_all by (intros c; apply contains_empty).
  split; reflexivity.
Qed.

Lemma empty_name_returns_all_witness :
  answer [sample "a" (py "Tennis") (F.of_Z 47) (F.of_Z 1);
          sample "b" (py "") (F.of_Z 48) (F.of_Z 2)] []
    (GetDiscipline (Some [])) =
    Ok (DisciplineResult [] 2
          [sample "a" (py "Tennis") (F.of_Z 47) (F.of_Z 1);
           sample "b" (py "") (F.of_Z 48) (F.of_Z 2)]) /\
  answer [sample "a" (py "Tennis") (F.of_Z 47) (F.of_Z 1);
          sample "b" (py "") (F.of_Z 48) (F.of_Z 2)] []
    (GetPathology (Some [])) =
    Ok (PathologyResult [] 2
          [sample "a" (py "Tennis") (F.of_Z 47) (F.of_Z 1);
           sample "b" (py "") (F.of_Z 48) (F.of_Z 2)]).
Proof.
  apply (empty_name_returns_all
           [sample "a" (py "Tennis") (F.of_Z 47) (F.of_Z 1);
            sample "b" (py "") (F.of_Z 48) (F.of_Z 2)] []).
  reflexivity.
Defined.

(** ** The order on strings and [sorted] *)

Lemma str_ltb_irrefl (a : str) : Str.ltb a a = false.
Proof.
  induction a as [|x a IH]; simpl; [reflexivity |].
  rewrite N.ltb_irrefl, N.eqb_refl, IH. reflexivity.
Qed.

Lemma str_ltb_trans (a b c : str) :
  Str.ltb a b = true -> Str.ltb b c = true -> Str.ltb a c = true.
Proof.
  revert b c. induction a as [|x a IH]; intros [|y b] [|z c]; simpl;
    try discriminate; try reflexivity.
  rewrite !orb_true_iff, !andb_true_iff, !N.ltb_lt, !N.eqb_eq.
  intros [H1 | [H1 H2]] [H3 | [H3 H4]].
  - left. lia.
  - left. lia.
  - left. lia.
  - right. split; [lia | eapply IH; eassumption].
Qed.

Lemma str_ltb_total (a b : str) :
  Str.ltb a b = false -> Str.ltb b a = false -> a = b.
Proof.
  revert b. induction a as [|x a IH]; intros [|y b]; simpl;
    try discriminate; try reflexivity.
  rewrite !orb_false_iff, !andb_false_iff, !N.ltb_ge, !N.eqb_neq.
  intros [H1 H2] [H3 H4].
  assert (x = y) by lia. subst y. f_equal. apply IH.
  - destruct H2; [congruence | assumption].
  - destruct H4; [congruence | assumption].
Qed.

(** [a <= b] on strings. *)
Lemma str_le_trans (a b c : str) :
  Str.ltb b a = false -> Str.ltb c b = false -> Str.ltb c a = false.
Proof.
  intros H1 H2. destruct (Str.ltb c a) eqn:E; [| reflexivity].
  destruct (Str.ltb a b) eqn:E1.
  - rewrite (str_ltb_trans c a b E E1) in H2. discriminate.
  - assert (a = b) by (apply str_ltb_total; assumption). subst b.
    congruence.
Qed.

Lemma str_insert_perm x l : Permutation (Str.insert x l) (x :: l).
Proof.
  induction l as [|y l IH]; simpl; [reflexivity |].
  destruct (Str.ltb y x); [| reflexivity].
  rewrite IH. apply perm_swap.
Qed.

Lemma str_sorted_perm l : Permutation (Str.sorted l) l.
Proof.
  induction l as [|x l IH]; simpl; [reflexivity |].
  rewrite str_insert_perm. constructor. exact IH.
Qed.

Lemma str_insert_sorted x l :
  StronglySorted (fun a b => Str.ltb b a = false) l ->
  StronglySorted (fun a b => Str.ltb b a = false) (Str.insert x l).
Proof.
  induction 1 as [|y l Hs IH Hy]; simpl.
  - constructor; constructor.
  - destruct (Str.ltb y x) eqn:E.
    + constructor; [exact IH |].
      apply Forall_forall. intros z Hz.
      apply (Permutation_in _ (str_insert_perm x l)) in Hz.
      destruct Hz as [<- | Hz].
      * destruct (Str.ltb x y) eqn:E2; [| reflexivity].
        pose proof (str_ltb_trans _ _ _ E E2) as C.
        rewrite str_ltb_irrefl in C. discriminate.
      * rewrite Forall_forall in Hy. auto.
    + constructor; [constructor; assumption |].
      constructor; [exact E |].
      apply Forall_forall. intros z Hz. rewrite Forall_forall in Hy.
      apply str_le_trans with (b := y); auto.
Qed.

Lemma str_sorted_sorted l :
  StronglySorted (fun a b => Str.ltb b a = false) (Str.sorted l).
Proof.
  induction l as [|x l IH]; simpl; [constructor |].
  apply str_insert_sorted. exact IH.
Qed.

(** Without duplicates the sorted list increases strictly. *)
Lemma sorted_strict l :
  NoDup l ->
  StronglySorted (fun a b => Str.ltb b a = false) l ->
  StronglySorted (fun a b => Str.ltb a b = true) l.
Proof.
  intros N S. induction S as [|x l S IH Hx]; [constructor |].
  inversion N as [|? ? Hnot N']; subst.
  constructor; [apply IH; exact N' |].
  rewrite Forall_forall in *. intros y Hy.
  destruct (Str.ltb x y) eqn:E; [reflexivity |].
  assert (x = y) by (apply str_ltb_total; auto). subst y. contradiction.
Qed.

(** A strictly increasing list is determined by its elements: the
    result of [sorted] on a set does not depend on the order in which
    the set is enumerated. *)
Lemma strictly_sorted_unique (l1 l2 : list str) :
  StronglySorted (fun a b => Str.ltb a b = true) l1 ->
  StronglySorted (fun a b => Str.ltb a b = true) l2 ->
  (forall t, In t l1 <-> In t l2) ->
  l1 = l2.
Proof.
  intros S1. revert l2.
  induction S1 as [|x l1 S1 IH H1]; intros l2 S2 M.
  - destruct l2 as [|y l2]; [reflexivity |].
    destruct (proj2 (M y) (or_introl eq_refl)).
  - destruct S2 as [|y l2 S2 H2].
    + destruct (proj1 (M x) (or_introl eq_refl)).
    + rewrite Forall_forall in H1, H2.
      assert (Irr : forall a, Str.ltb a a = true -> False)
        by (intros a Ha; rewrite str_ltb_irrefl in Ha; discriminate).
      assert (E : x = y).
      { destruct (proj1 (M x) (or_introl eq_refl)) as [E | Hx]; [auto |].
        destruct (proj2 (M y) (or_introl eq_refl)) as [E | Hy]; [auto |].
        exfalso. apply (Irr x).
        apply str_ltb_trans with (b := y); auto. }
      subst y. f_equal. apply IH; [exact S2 |].
      intros t. split; intros Ht.
      * destruct (proj1 (M t) (or_intror Ht)) as [E | Ht']; [| exact Ht'].
        subst t. exfalso. apply (Irr x). auto.
      * destruct (proj2 (M t) (or_intror Ht)) as [E | Ht']; [| exact Ht'].
        subst t. exfalso. apply (Irr x). auto.
Qed.

(** ** The sets of values *)

Lemma set_add_In x all t : In t (Str.set_add x all) <-> t = x \/ In t all.
Proof.
  induction all as [|y all IH]; simpl.
  - intuition.
  - destruct (Str.eqb x y) eqn:E; simpl.
    + apply str_eqb_eq in E. subst y. intuition.
    + rewrite IH. intuition.
Qed.

Lemma set_add_NoDup x all : NoDup all -> NoDup (Str.set_add x all).
Proof.
  induction 1 as [|y all Hy N IH]; simpl.
  - constructor; [intros [] | constructor].
  - destruct (Str.eqb x y) eqn:E.
    + constructor; assumption.
    + constructor; [| exact IH].
      rewrite set_add_In. intros [-> | H]; [| contradiction].
      rewrite str_eqb_refl in E. discriminate.
Qed.

Lemma add_values_In parts : forall all t,
  In t (add_values all parts) <->
  In t all \/ (t <> [] /\ In t (map Str.strip parts)).
Proof.
  unfold add_values. induction parts as [|p parts IH]; intros all t; simpl.
  - intuition.
  - rewrite IH. destruct (Str.strip p) as [|c v] eqn:E.
    + intuition congruence.
    + rewrite set_add_In. split.
      * intros [[-> | H] | [H1 H2]]; auto.
        right. split; [discriminate | auto].
      * intros [H | [H1 [H2 | H2]]]; auto.
Qed.

Lemma add_values_NoDup parts : forall all,
  NoDup all -> NoDup (add_values all parts).
Proof.
  unfold add_values. induction parts as [|p parts IH]; intros all N; simpl.
  - exact N.
  - apply IH. destruct (Str.strip p); [exact N |].
    apply set_add_NoDup. exact N.
Qed.

Lemma fold_values_In (field : Center.t -> str) ds : forall all t,
  In t (fold_left (fun all center =>
          add_values all (Str.split (field center) CRLF)) ds all) <->
  In t all \/ (t <> [] /\ exists c, In c ds /\ In t (tokens (field c))).
Proof.
  induction ds as [|d ds IH]; intros all t; simpl.
  - split; [auto | intros [H | [_ [c [[] _]]]]; exact H].
  - rewrite IH, add_values_In. unfold tokens. split.
    + intros [[H | [H1 H2]] | [H1 [c [H2 H3]]]]; auto.
      * right. split; [exact H1 |]. exists d. auto.
      * right. split; [exact H1 |]. exists c. auto.
    + intros [H | [H1 [c [[<- | H2] H3]]]]; auto.
      right. split; [exact H1 |]. exists c. auto.
Qed.

Lemma fold_values_NoDup (field : Center.t -> str) ds : forall all,
  NoDup all ->
  NoDup (fold_left (fun all center =>
           add_values all (Str.split (field center) CRLF)) ds all).
Proof.
  induction ds as [|d ds IH]; intros all N; simpl; [exact N |].
  apply IH, add_values_NoDup, N.
Qed.

(** What [sorted(all)] is for the set of values of a field: strictly
    increasing, and holding exactly the non-empty values. *)
Lemma sorted_values (field : Center.t -> str) (ds : list Center.t) :
  let out := Str.sorted (field_values field ds) in
  length out = length (field_values field ds) /\
  (forall t, In t out <->
     t <> [] /\ exists c, In c ds /\ In t (tokens (field c))) /\
  StronglySorted (fun a b => Str.ltb a b = true) out /\
  NoDup out /\
  ~ In [] out.
Proof.
  intros out. pose proof (str_sorted_perm (field_values field ds)) as P.
  assert (M : forall t, In t out <->
            t <> [] /\ exists c, In c ds /\ In t (tokens (field c))).
  { intros t. split.
    - intros H. apply (Permutation_in _ P) in H.
      apply fold_values_In in H. destruct H as [[] | H]. exact H.
    - intros H. apply (Permutation_in _ (Permutation_sym P)).
      apply fold_values_In. right. exact H. }
  assert (N : NoDup out).
  { apply (Permutation_NoDup (Permutation_sym P)).
    apply fold_values_NoDup. constructor. }
  split; [apply Permutation_length; exact P |].
  split; [exact M |].
  split; [apply sorted_strict; [exact N | apply str_sorted_sorted] |].
  split; [exact N |].
  intros H. apply M in H. destruct H as [H _]. apply H. reflexivity.
Qed.

(** C4: [list_disciplines()], and [list_pathologies()] on the pathologies
    field, split each record's field on the line break, strip each part,
    drop the parts that are empty, and return the set of the remaining
    values sorted by code points: the list holds exactly the non-empty
    stripped parts (the parts joined by the line break are the field and
    none contains a line break; stripping removes the white space at both
    ends), it increases strictly (so it is sorted and has no
    duplicate), it does not contain the empty string, it is the only
    strictly increasing list of these values, and [count] is its length;
    on a collection of two records with the discipline fields
    ["Tennis\r\nBasket\r\n"] and ["Tennis\r\n"] it is
    [["Basket", "Tennis"]]. *)
Theorem list_values_sorted_set {RT : Runtime} dataset history :
  (exists out,
     answer dataset history GetDisciplines =
       Ok (DisciplineList (length out) out) /\
     (forall t, In t out <->
        t <> [] /\
        exists c, In c dataset /\ In t (tokens (Center.Discipline c))) /\
     StronglySorted (fun a b => Str.ltb a b = true) out /\
     NoDup out /\ ~ In [] out /\
     (forall out',
        StronglySorted (fun a b => Str.ltb a b = true) out' ->
        (forall t, In t out' <-> In t out) -> out' = out)) /\
  (exists out,
     answer dataset history GetPathologies =
       Ok (PathologyList (length out) out) /\
     (forall t, In t out <->
        t <> [] /\
        exists c, In c dataset /\ In t (tokens (Center.Pathologies c))) /\
     StronglySorted (fun a b => Str.ltb a b = true) out /\
     NoDup out /\ ~ In [] out /\
     (forall out',
        StronglySorted (fun a b => Str.ltb a b = true) out' ->
        (forall t, In t out' <-> In t out) -> out' = out)) /\
  (forall field,
     Str.join CRLF (Str.split field CRLF) = field /\
     forall part, In part (Str.split field CRLF) -> ~ substring CRLF part) /\
  (forall part, exists l r,
     part = l ++ Str.strip part ++ r /\ blank l /\ blank r /\
     (forall c rest, Str.strip part = c :: rest -> Str.isspace c = false) /\
     (forall front c, Str.strip part = front ++ [c] ->
        Str.isspace c = false)) /\
  (forall c1 c2,
     Center.Discipline c1 = py "Tennis" ++ CRLF ++ py "Basket" ++ CRLF ->
     Center.Discipline c2 = py "Tennis" ++ CRLF ->
     answer [c1; c2] history GetDisciplines =
       Ok (DisciplineList 2 [py "Basket"; py "Tennis"])).
Proof.
  rewrite !answer_reply. cbn [reply]. split; [| split; [| split; [| split]]].
  - destruct (sorted_values Center.Discipline dataset)
      as [L [H1 [H2 [H3 H4]]]].
    eexists. split; [rewrite <- L; reflexivity |].
    repeat (split; [assumption |]).
    intros out' S M. apply strictly_sorted_unique; assumption.
  - destruct (sorted_values Center.Pathologies dataset)
      as [L [H1 [H2 [H3 H4]]]].
    eexists. split; [rewrite <- L; reflexivity |].
    repeat (split; [assumption |]).
    intros out' S M. apply strictly_sorted_unique; assumption.
  - intros field. split.
    + apply split_join. discriminate.
    + intros part. apply split_parts. discriminate.
  - exact strip_spec.
  - intros c1 c2 H1 H2. rewrite answer_reply. cbn [reply].
    unfold field_values. cbn [fold_left]. rewrite H1, H2. reflexivity.
Qed.

Lemma list_values_sorted_set_witness :
  answer [sample "a" (py "Tennis" ++ CRLF ++ py "Basket" ++ CRLF)
            (F.of_Z 47) (F.of_Z 1);
          sample "b" (py "Tennis" ++ CRLF) (F.of_Z 48) (F.of_Z 2)] []
    GetDisciplines =
    Ok (DisciplineList 2 [py "Basket"; py "Tennis"]).
Proof.
  apply (proj2 (proj2 (proj2 (proj2 (list_values_sorted_set [] [])))));
    reflexivity.
Defined.

(** ** The collection is never written *)

Lemma stored_points s ds :
  points_to s (centers s) ds -> stored s = map Some ds.
Proof.
  unfold stored, points_to. generalize (centers s).
  intros rs P. induction P as [|r d rs ds Hr P IH]; simpl;
    [reflexivity | rewrite Hr, IH; reflexivity].
Qed.

(** C7: no handler writes to the loaded collection.  In any state a
    handler leaves the global [centers] and every existing object as
    they are (the copies that [get_nearby_centers] annotates are new
    objects).  So after any sequence of requests [centers] is the list it
    was at load time, every loaded record is still in the heap at its
    place, unchanged, and the records behind [centers] are the loaded
    ones; the answer to a request does not depend on the requests served
    before, and repeating a request gives the same answer. *)
Theorem collection_never_mutated {RT : Runtime} dataset history :
  (forall req s, grows s (snd (handle req s))) /\
  centers (serve history (load_centers dataset)) =
    centers (load_centers dataset) /\
  (exists fresh, heap (serve history (load_centers dataset)) =
                   dataset ++ fresh) /\
  stored (serve history (load_centers dataset)) =
    stored (load_centers dataset) /\
  stored (serve history (load_centers dataset)) = map Some dataset /\
  (forall req, answer dataset history req = answer dataset [] req) /\
  (forall req,
     answer dataset (history ++ [req]) req = answer dataset history req).
Proof.
  set (s0 := load_centers dataset). set (s := serve history s0).
  pose proof (serve_grows history s0) as G. fold s in G.
  destruct G as [C H].
  split; [intros req s'; apply handle_frugal |].
  split; [exact C |]. split; [exact H |]. split.
  - rewrite (stored_points s dataset (serve_points dataset history)).
    symmetry. apply (stored_points s0 dataset (serve_points dataset [])).
  - split;
      [apply (stored_points s dataset (serve_points dataset history)) |].
    split; intros req; rewrite !answer_reply; reflexivity.
Qed.

(** A nearby request leaves the loaded record where it is and puts its
    annotated copy after it. *)
Example nearby_allocates_copy :
  heap (serve [GetNearby (Some tours_lat) (Some tours_lng) None]
          (load_centers [sample "tours" [] tours_lat tours_lng])) =
  [sample "tours" [] tours_lat tours_lng;
   Center.with_distance_km (sample "tours" [] tours_lat tours_lng) zero].
Proof. vm_compute. reflexivity. Qed.

(** ** The order on floats *)

Ltac cmp_cases :=
  repeat match goal with
  | |- context [Z.compare ?a ?b] => destruct (Z.compare_spec a b); subst
  | |- context [Pos.compare_cont Eq ?a ?b] =>
      change (Pos.compare_cont Eq a b) with (Pos.compare a b);
      destruct (Pos.compare_spec a b); subst
  | H : context [Z.compare ?a ?b] |- _ => destruct (Z.compare_spec a b); subst
  | H : context [Pos.compare_cont Eq ?a ?b] |- _ =>
      change (Pos.compare_cont Eq a b) with (Pos.compare a b) in H;
      destruct (Pos.compare_spec a b); subst
  end.

Lemma SFcompare_sym x y :
  SFcompare y x = option_map CompOpp (SFcompare x y).
Proof.
  destruct x as [sx|sx| |sx mx ex], y as [sy|sy| |sy my ey]; simpl;
    try reflexivity;
    try (destruct sx; reflexivity); try (destruct sy; reflexivity);
    try (destruct sx, sy; reflexivity).
  destruct sx, sy; simpl; try reflexivity; cmp_cases; simpl;
    try reflexivity; try lia.
Qed.

Lemma SFcompare_trans x y z c1 c2 :
  SFcompare x y = Some c1 -> SFcompare y z = Some c2 ->
  c1 <> Gt -> c2 <> Gt ->
  SFcompare x z = Some (match c1 with Lt => Lt | _ => c2 end).
Proof.
  destruct x as [sx|sx| |sx mx ex], y as [sy|sy| |sy my ey],
    z as [sz|sz| |sz mz ez]; simpl; try discriminate;
    intros H1 H2 N1 N2;
    repeat match goal with b : bool |- _ => destruct b end;
    simpl in *;
    try (inversion H1; inversion H2; subst; simpl in *; congruence);
    cmp_cases; simpl in *;
    try (inversion H1; inversion H2; subst; simpl in *;
         try congruence; try lia).
Qed.

Lemma SFcompare_nan x y :
  SFcompare x y = None <-> F.is_nan x = true \/ F.is_nan y = true.
Proof.
  destruct x as [sx|sx| |sx mx ex], y as [sy|sy| |sy my ey]; simpl;
    try destruct sx; try destruct sy; simpl;
    intuition discriminate.
Qed.

Lemma fleb_not_nan x y :
  F.leb x y = true -> F.is_nan x = false /\ F.is_nan y = false.
Proof.
  unfold F.leb, SFleb. destruct (SFcompare x y) eqn:E; [| discriminate].
  intros _. destruct (F.is_nan x) eqn:Ex, (F.is_nan y) eqn:Ey; auto;
    assert (N : SFcompare x y = None) by (apply SFcompare_nan; auto);
    congruence.
Qed.

Lemma fltb_fleb x y : F.ltb x y = true -> F.leb x y = true.
Proof.
  unfold F.ltb, F.leb, SFltb, SFleb.
  destruct (SFcompare x y) as [[]|]; congruence.
Qed.

Lemma feqb_fleb x y : F.eqb x y = true -> F.leb x y = true.
Proof.
  unfold F.eqb, F.leb, SFeqb, SFleb.
  destruct (SFcompare x y) as [[]|]; congruence.
Qed.

Lemma fleb_total x y :
  F.is_nan x = false -> F.is_nan y = false ->
  F.ltb y x = false -> F.leb x y = true.
Proof.
  unfold F.ltb, F.leb, SFltb, SFleb. intros Nx Ny.
  rewrite (SFcompare_sym x y).
  destruct (SFcompare x y) as [[]|] eqn:E; simpl; try congruence.
  apply SFcompare_nan in E. destruct E; congruence.
Qed.

Lemma fleb_trans x y z :
  F.leb x y = true -> F.leb y z = true -> F.leb x z = true.
Proof.
  unfold F.leb, SFleb. intros H1 H2.
  destruct (SFcompare x y) as [c1|] eqn:E1; [| discriminate].
  destruct (SFcompare y z) as [c2|] eqn:E2; [| discriminate].
  rewrite (SFcompare_trans x y z c1 c2 E1 E2)
    by (destruct c1, c2; congruence).
  destruct c1, c2; congruence.
Qed.

Lemma fltb_not_fleb x y : F.ltb x y = true -> F.leb y x = false.
Proof.
  unfold F.ltb, F.leb, SFltb, SFleb. rewrite (SFcompare_sym x y).
  destruct (SFcompare x y) as [[]|]; simpl; congruence.
Qed.

(** A key strictly below [x] is not equal to what [x] is equal to. *)
Lemma fltb_feqb y x k :
  F.ltb y x = true -> F.eqb x k = true -> F.eqb y k = false.
Proof.
  unfold F.ltb, F.eqb, SFltb, SFeqb. intros H1 H2.
  destruct (SFcompare y x) as [c1|] eqn:E1; [| discriminate].
  destruct (SFcompare x k) as [c2|] eqn:E2; [| discriminate].
  rewrite (SFcompare_trans y x k c1 c2 E1 E2)
    by (destruct c1, c2; congruence).
  destruct c1, c2; congruence.
Qed.

Lemma feqb_sym x y : F.eqb x y = F.eqb y x.
Proof.
  unfold F.eqb, SFeqb. rewrite (SFcompare_sym y x).
  destruct (SFcompare y x) as [[]|]; reflexivity.
Qed.

Lemma feqb_trans x y z :
  F.eqb x y = true -> F.eqb y z = true -> F.eqb x z = true.
Proof.
  unfold F.eqb, SFeqb. intros H1 H2.
  destruct (SFcompare x y) as [c1|] eqn:E1; [| discriminate].
  destruct (SFcompare y z) as [c2|] eqn:E2; [| discriminate].
  rewrite (SFcompare_trans x y z c1 c2 E1 E2)
    by (destruct c1, c2; congruence).
  destruct c1, c2; congruence.
Qed.

Lemma feqb_refl x : F.is_nan x = false -> F.eqb x x = true.
Proof.
  intros N. unfold F.eqb, SFeqb. pose proof (SFcompare_sym x x) as S.
  destruct (SFcompare x x) as [[]|] eqn:E; simpl in S;
    try reflexivity; try discriminate.
  apply SFcompare_nan in E. destruct E; congruence.
Qed.

(** ** Rounding never produces NaN from a number *)

Lemma iter_pos_invariant {A} (Inv : A -> Prop) (f : A -> A) :
  (forall x, Inv x -> Inv (f x)) ->
  forall n x, Inv x -> Inv (iter_pos f n x).
Proof.
  intros Hf. induction n as [n IH|n IH|]; intros x Hx; simpl; auto.
Qed.

Lemma shr_1_nonneg mrs : (0 <= shr_m mrs)%Z -> (0 <= shr_m (shr_1 mrs))%Z.
Proof.
  destruct mrs as [m r s]. simpl.
  destruct m as [|[p|p|]|[p|p|]]; simpl; lia.
Qed.

Lemma shr_nonneg mrs e n :
  (0 <= shr_m mrs)%Z -> (0 <= shr_m (fst (shr mrs e n)))%Z.
Proof.
  intros H. unfold shr. destruct n as [|p|p]; simpl; auto.
  apply (iter_pos_invariant (fun x => (0 <= shr_m x)%Z)); auto.
  apply shr_1_nonneg.
Qed.

Lemma shr_fexp_nonneg prec emax m e l :
  (0 <= m)%Z -> (0 <= shr_m (fst (shr_fexp prec emax m e l)))%Z.
Proof.
  intros H. unfold shr_fexp. apply shr_nonneg.
  destruct l as [|[]]; exact H.
Qed.

Lemma round_nearest_even_nonneg m l :
  (0 <= m)%Z -> (0 <= round_nearest_even m l)%Z.
Proof.
  intros H. unfold round_nearest_even.
  destruct l as [|[]]; try destruct (Z.even m); lia.
Qed.

Lemma binary_round_aux_not_nan prec emax sx mx ex lx :
  (0 <= mx)%Z -> F.is_nan (binary_round_aux prec emax sx mx ex lx) = false.
Proof.
  intros H. unfold binary_round_aux.
  pose proof (shr_fexp_nonneg prec emax mx ex lx H) as H1.
  destruct (shr_fexp prec emax mx ex lx) as [mrs' e']. simpl in H1.
  pose proof (shr_fexp_nonneg prec emax _ e' loc_Exact
                (round_nearest_even_nonneg _ (loc_of_shr_record mrs') H1))
    as H2.
  destruct (shr_fexp prec emax _ e' loc_Exact) as [mrs'' e'']. simpl in H2.
  destruct (shr_m mrs'') as [|p|p]; [reflexivity | | lia].
  destruct (Z.leb e'' (emax - prec)); reflexivity.
Qed.

Lemma SFdiv_finite_not_nan prec emax s1 m1 e1 s2 m2 e2 :
  F.is_nan (SFdiv prec emax (S754_finite s1 m1 e1) (S754_finite s2 m2 e2))
  = false.
Proof.
  unfold SFdiv.
  destruct (SFdiv_core_binary prec emax (Z.pos m1) e1 (Z.pos m2) e2)
    as [[mz ez] lz] eqn:E.
  apply binary_round_aux_not_nan.
  unfold SFdiv_core_binary in E.
  match type of E with
  | (let '(q, r) := Z.div_eucl ?a ?b in _) = _ =>
      assert (Ha : (0 <= a)%Z);
      [| pose proof (Z.div_pos a b Ha ltac:(lia)) as Hq;
         unfold Z.div in Hq; destruct (Z.div_eucl a b) as [q r];
         inversion E; subst; exact Hq]
  end.
  match goal with
  | |- (0 <= match ?s with _ => _ end)%Z =>
      destruct s; [lia | apply Z.shiftl_nonneg; lia | lia]
  end.
Qed.

Lemma round_is_nan x ndigits : F.is_nan (F.round x ndigits) = F.is_nan x.
Proof.
  destruct x as [s|s| |s m e]; try reflexivity.
  unfold F.round.
  destruct (F.round_half_even _ _);
    [reflexivity | apply SFdiv_finite_not_nan | reflexivity].
Qed.

(** ** Sorting on a key *)

Section SortOn.

Context {A : Type} (key : A -> float).

Lemma insert_by_key_perm (x : float * A) l :
  Permutation (insert_by_key x l) (x :: l).
Proof.
  induction l as [|y l IH]; simpl; [reflexivity |].
  destruct (F.ltb (fst y) (fst x)); [| reflexivity].
  rewrite IH. apply perm_swap.
Qed.

Lemma sort_by_key_perm (l : list (float * A)) :
  Permutation (sort_by_key l) l.
Proof.
  induction l as [|x l IH]; simpl; [reflexivity |].
  rewrite insert_by_key_perm. constructor. exact IH.
Qed.

Lemma insert_by_key_sorted (x : float * A) l :
  F.is_nan (fst x) = false ->
  Forall (fun y => F.is_nan (fst y) = false) l ->
  StronglySorted (fun a b => fle (fst a) (fst b)) l ->
  StronglySorted (fun a b => fle (fst a) (fst b)) (insert_by_key x l).
Proof.
  intros Nx Nl S. induction S as [|y l S IH Hy]; simpl.
  - constructor; constructor.
  - inversion Nl as [|? ? Ny Nl']; subst.
    destruct (F.ltb (fst y) (fst x)) eqn:E.
    + constructor; [apply IH; exact Nl' |].
      apply Forall_forall. intros z Hz.
      apply (Permutation_in _ (insert_by_key_perm x l)) in Hz.
      destruct Hz as [<- | Hz].
      * apply fltb_fleb. exact E.
      * rewrite Forall_forall in Hy. auto.
    + assert (L : fle (fst x) (fst y)) by (apply fleb_total; assumption).
      constructor; [constructor; assumption |].
      constructor; [exact L |].
      apply Forall_forall. intros z Hz. rewrite Forall_forall in Hy.
      eapply fleb_trans; [exact L | apply Hy; exact Hz].
Qed.

Lemma sort_by_key_sorted (l : list (float * A)) :
  Forall (fun y => F.is_nan (fst y) = false) l ->
  StronglySorted (fun a b => fle (fst a) (fst b)) (sort_by_key l).
Proof.
  induction 1 as [|x l Nx Nl IH]; simpl; [constructor |].
  apply insert_by_key_sorted; [exact Nx | | exact IH].
  apply Forall_forall. intros y Hy.
  apply (Permutation_in _ (sort_by_key_perm l)) in Hy.
  rewrite Forall_forall in Nl. auto.
Qed.

(** Insertion puts [x] in front of the keys that are equal to its own. *)
Lemma insert_by_key_filter (x : float * A) l k :
  filter (fun e => F.eqb (fst e) k) (insert_by_key x l) =
  filter (fun e => F.eqb (fst e) k) (x :: l).
Proof.
  induction l as [|y l IH]; [reflexivity |].
  cbn [insert_by_key]. destruct (F.ltb (fst y) (fst x)) eqn:E;
    [| reflexivity].
  cbn [filter] in *. rewrite IH.
  destruct (F.eqb (fst x) k) eqn:Ex; [| reflexivity].
  rewrite (fltb_feqb _ _ _ E Ex). reflexivity.
Qed.

(** The sort is stable: records with equal keys keep their order. *)
Lemma sort_by_key_stable (l : list (float * A)) k :
  filter (fun e => F.eqb (fst e) k) (sort_by_key l) =
  filter (fun e => F.eqb (fst e) k) l.
Proof.
  induction l as [|x l IH]; [reflexivity |].
  cbn [sort_by_key fold_right]. rewrite insert_by_key_filter.
  cbn [filter]. fold (sort_by_key l). rewrite IH. reflexivity.
Qed.

Lemma keyed_sorted_pairs (l : list (float * A)) :
  Forall (fun e => fst e = key (snd e)) l ->
  StronglySorted (fun a b => fle (fst a) (fst b)) l ->
  StronglySorted (fun a b => fle (key a) (key b)) (map snd l).
Proof.
  intros K S. induction S as [|y l S IH Hy]; simpl; [constructor |].
  inversion K as [|? ? Ky Kl]; subst.
  constructor; [apply IH; exact Kl |].
  rewrite Forall_forall in *. intros z Hz.
  apply in_map_iff in Hz. destruct Hz as [e [<- He]].
  rewrite <- Ky, <- (Kl e He). apply Hy. exact He.
Qed.

Lemma keyed_filter (l : list (float * A)) k :
  Forall (fun e => fst e = key (snd e)) l ->
  filter (fun a => F.eqb (key a) k) (map snd l) =
  map snd (filter (fun e => F.eqb (fst e) k) l).
Proof.
  induction 1 as [|e l Ke Kl IH]; simpl; [reflexivity |].
  rewrite <- Ke, IH. destruct (F.eqb (fst e) k); reflexivity.
Qed.

Lemma keyed_all (l : list A) :
  Forall (fun e => fst e = key (snd e)) (map (fun x => (key x, x)) l).
Proof. apply Forall_forall. intros e He. apply in_map_iff in He.
  destruct He as [x [<- _]]. reflexivity. Qed.

Lemma map_snd_keyed (l : list A) : map snd (map (fun x => (key x, x)) l) = l.
Proof. rewrite map_map. simpl. apply map_id. Qed.

Lemma sort_on_perm (l : list A) : Permutation (sort_on key l) l.
Proof.
  unfold sort_on. rewrite (sort_by_key_perm _). rewrite map_snd_keyed.
  reflexivity.
Qed.

Lemma sort_on_sorted (l : list A) :
  Forall (fun x => F.is_nan (key x) = false) l ->
  StronglySorted (fun a b => fle (key a) (key b)) (sort_on key l).
Proof.
  intros N. unfold sort_on. apply keyed_sorted_pairs.
  - apply Forall_forall. intros e He.
    apply (Permutation_in _ (sort_by_key_perm _)) in He.
    pose proof (keyed_all l) as K. rewrite Forall_forall in K. auto.
  - apply sort_by_key_sorted. apply Forall_forall. intros e He.
    apply in_map_iff in He. destruct He as [x [<- Hx]]. simpl.
    rewrite Forall_forall in N. auto.
Qed.

Lemma sort_on_stable (l : list A) k :
  filter (fun a => F.eqb (key a) k) (sort_on key l) =
  filter (fun a => F.eqb (key a) k) l.
Proof.
  unfold sort_on. rewrite keyed_filter.
  - rewrite sort_by_key_stable. rewrite <- keyed_filter by apply keyed_all.
    rewrite map_snd_keyed. reflexivity.
  - apply Forall_forall. intros e He.
    apply (Permutation_in _ (sort_by_key_perm _)) in He.
    pose proof (keyed_all l) as K. rewrite Forall_forall in K. auto.
Qed.

Lemma fle_antisym x y : fle x y -> fle y x -> F.eqb x y = true.
Proof.
  unfold fle, F.leb, F.eqb, SFleb, SFeqb. rewrite (SFcompare_sym x y).
  destruct (SFcompare x y) as [[]|]; simpl; congruence.
Qed.

(** A list is determined by being sorted and stable: whatever stable
    sorting algorithm [list.sort] runs, its result is this one. *)
Lemma stable_sorted_unique (l1 : list A) : forall l2,
  Forall (fun x => F.is_nan (key x) = false) l1 ->
  Forall (fun x => F.is_nan (key x) = false) l2 ->
  StronglySorted (fun a b => fle (key a) (key b)) l1 ->
  StronglySorted (fun a b => fle (key a) (key b)) l2 ->
  (forall k, filter (fun a => F.eqb (key a) k) l1 =
             filter (fun a => F.eqb (key a) k) l2) ->
  l1 = l2.
Proof.
  induction l1 as [|x t1 IH]; intros [|y t2] N1 N2 S1 S2 H.
  - reflexivity.
  - specialize (H (key y)). simpl in H.
    inversion N2; subst. rewrite feqb_refl in H by assumption. discriminate.
  - specialize (H (key x)). simpl in H.
    inversion N1; subst. rewrite feqb_refl in H by assumption. discriminate.
  - inversion N1 as [|? ? Nx N1']; inversion N2 as [|? ? Ny N2']; subst.
    inversion S1 as [|? ? S1' L1]; inversion S2 as [|? ? S2' L2]; subst.
    rewrite Forall_forall in L1, L2.
    assert (E : F.eqb (key y) (key x) = true).
    { destruct (F.eqb (key y) (key x)) eqn:E; [reflexivity | exfalso].
      pose proof (H (key x)) as Hx. pose proof (H (key y)) as Hy.
      simpl in Hx, Hy.
      rewrite feqb_refl, E in Hx by assumption.
      rewrite feqb_refl, (feqb_sym (key x)), E in Hy by assumption.
      assert (Ix : In x (filter (fun a => F.eqb (key a) (key x)) t2))
        by (rewrite <- Hx; left; reflexivity).
      assert (Iy : In y (filter (fun a => F.eqb (key a) (key y)) t1))
        by (rewrite Hy; left; reflexivity).
      apply filter_In in Ix, Iy.
      pose proof (L1 y (proj1 Iy)) as A1.
      pose proof (L2 x (proj1 Ix)) as A2.
      rewrite (fle_antisym _ _ A2 A1) in E. discriminate. }
    assert (Exy : x = y).
    { specialize (H (key x)). simpl in H.
      rewrite feqb_refl, E in H by assumption. inversion H. reflexivity. }
    subst y. f_equal. apply IH; try assumption.
    intros k. specialize (H k). simpl in H.
    destruct (F.eqb (key x) k); [inversion H; reflexivity | exact H].
Qed.

End SortOn.

(** ** Nearby search *)

Lemma filter_split {A} (P : A -> bool) (l : list A) a x rest :
  filter P l = a ++ x :: rest ->
  exists p l', l = p ++ x :: l' /\ filter P p = a /\ filter P l' = rest.
Proof.
  revert a. induction l as [|y l IH]; intros a H; simpl in H.
  - destruct a; discriminate.
  - destruct (P y) eqn:E.
    + destruct a as [|z a]; simpl in H; inversion H; subst.
      * exists [], l. simpl. auto.
      * destruct (IH a H2) as [p [l' [-> [H3 H4]]]].
        exists (z :: p), l'. simpl. rewrite E, H3. auto.
    + destruct (IH a H) as [p [l' [-> [H3 H4]]]].
      exists (y :: p), l'. simpl. rewrite E. auto.
Qed.

(** Two elements in this order in [filter P l] are in this order in [l]. *)
Lemma filter_order {A} (P : A -> bool) (l : list A) a x b y c :
  filter P l = a ++ x :: b ++ y :: c ->
  exists p q t, l = p ++ x :: q ++ y :: t.
Proof.
  intros H. destruct (filter_split P l a x _ H) as [p [l' [-> [_ H2]]]].
  destruct (filter_split P l' b y _ H2) as [q [t [-> _]]].
  exists p, q, t. reflexivity.
Qed.

Section Nearby.

Context {RT : Runtime}.

Variables lat lng radius_km : float.

Lemma km_with_distance_km c d : km (Center.with_distance_km c d) = d.
Proof. reflexivity. Qed.

Lemma within_spec c :
  within lat lng radius_km c = true <->
  exists d, distance_to lat lng c = Ok d /\ fle d radius_km.
Proof.
  unfold within, fle. destruct (distance_to lat lng c) as [d|e].
  - split; [intros H; exists d; auto | intros [d' [E H]]; congruence].
  - split; [discriminate | intros [d' [E _]]; discriminate].
Qed.

Lemma annotate_defined c d :
  distance_to lat lng c = Ok d ->
  annotate lat lng c = Center.with_distance_km c (F.round d 2).
Proof. intros H. unfold annotate. rewrite H. reflexivity. Qed.

Lemma nearby_scan_defined ds :
  distances_defined lat lng ds ->
  nearby_scan lat lng radius_km ds =
  Ok (map (fun x => (km x, x))
        (map (annotate lat lng) (filter (within lat lng radius_km) ds))).
Proof.
  induction ds as [|c ds IH]; intros D; simpl; [reflexivity |].
  destruct (D c (or_introl eq_refl)) as [d E].
  rewrite IH by (intros c' H; apply D; right; exact H).
  assert (W : within lat lng radius_km c = F.leb d radius_km)
    by (unfold within; rewrite E; reflexivity).
  rewrite E, W. cbn [result_bind].
  destruct (F.leb d radius_km); [| reflexivity].
  simpl. rewrite (annotate_defined c d E). reflexivity.
Qed.

Lemma nearby_reply_defined ds :
  valid_radius radius_km = true ->
  distances_defined lat lng ds ->
  let data :=
    sort_on km (map (annotate lat lng) (filter (within lat lng radius_km) ds))
  in
  reply ds (GetNearby (Some lat) (Some lng) (Some radius_km)) =
  Ok (NearbyResult lat lng radius_km (length data) data).
Proof.
  intros V D data. cbn [reply Query_required Query_default result_bind].
  rewrite V. cbn [result_bind].
  rewrite (nearby_scan_defined ds D). reflexivity.
Qed.

Lemma kept_keys_not_nan ds :
  Forall (fun x => F.is_nan (km x) = false)
    (map (annotate lat lng) (filter (within lat lng radius_km) ds)).
Proof.
  apply Forall_forall. intros e He. apply in_map_iff in He.
  destruct He as [c [<- Hc]]. apply filter_In in Hc. destruct Hc as [_ W].
  apply within_spec in W. destruct W as [d [E L]].
  rewrite (annotate_defined c d E), km_with_distance_km, round_is_nan.
  apply (fleb_not_nan _ _ L).
Qed.

Lemma kept_app l1 l2 :
  map (annotate lat lng) (filter (within lat lng radius_km) (l1 ++ l2)) =
  map (annotate lat lng) (filter (within lat lng radius_km) l1) ++
  map (annotate lat lng) (filter (within lat lng radius_km) l2).
Proof. rewrite filter_app, map_app. reflexivity. Qed.

Lemma kept_cons c d l :
  distance_to lat lng c = Ok d -> fle d radius_km ->
  map (annotate lat lng) (filter (within lat lng radius_km) (c :: l)) =
  Center.with_distance_km c (F.round d 2) ::
  map (annotate lat lng) (filter (within lat lng radius_km) l).
Proof.
  intros E L. simpl.
  assert (W : within lat lng radius_km c = true)
    by (apply within_spec; eauto).
  rewrite W. simpl. rewrite (annotate_defined c d E). reflexivity.
Qed.

End Nearby.

Lemma valid_radius_spec r :
  valid_radius r = true <-> fle (F.of_Z 1) r /\ fle r (F.of_Z 500).
Proof. unfold valid_radius, fle. apply andb_true_iff. Qed.

(** C1 (amended): for a query point and a radius in [1, 500] such that
    the distance of every record from the query point is defined (the
    coordinates of the record convert to floats and the haversine
    evaluation raises no error), [nearby] returns exactly the records
    whose haversine distance from the query point is [<= radius_km], each
    as a copy that carries [distance_km]; the list is in non-decreasing
    order of [distance_km], and records with equal [distance_km] keep
    their collection order; it is the only arrangement of the kept
    records that is sorted and keeps that order. *)
Theorem nearby_within_radius_sorted {RT : Runtime} dataset history
  (lat lng radius_km : float) :
  fle (F.of_Z 1) radius_km -> fle radius_km (F.of_Z 500) ->
  distances_defined lat lng dataset ->
  exists data,
    answer dataset history (GetNearby (Some lat) (Some lng) (Some radius_km)) =
      Ok (NearbyResult lat lng radius_km (length data) data) /\
    Permutation data
      (map (annotate lat lng) (filter (within lat lng radius_km) dataset)) /\
    (forall c, In c (filter (within lat lng radius_km) dataset) <->
       In c dataset /\
       exists d, distance_to lat lng c = Ok d /\ fle d radius_km) /\
    (forall e, In e data ->
       exists c d, In c dataset /\ distance_to lat lng c = Ok d /\
                   fle d radius_km /\
                   e = Center.with_distance_km c (F.round d 2)) /\
    StronglySorted (fun a b => fle (km a) (km b)) data /\
    (forall k,
       filter (fun e => F.eqb (km e) k) data =
       filter (fun e => F.eqb (km e) k)
         (map (annotate lat lng)
            (filter (within lat lng radius_km) dataset))) /\
    (forall data',
       Permutation data'
         (map (annotate lat lng) (filter (within lat lng radius_km) dataset)) ->
       StronglySorted (fun a b => fle (km a) (km b)) data' ->
       (forall k,
          filter (fun e => F.eqb (km e) k) data' =
          filter (fun e => F.eqb (km e) k)
            (map (annotate lat lng)
               (filter (within lat lng radius_km) dataset))) ->
       data' = data).
Proof.
  intros V1 V2 D. rewrite answer_reply.
  rewrite (nearby_reply_defined lat lng radius_km dataset)
    by (try apply valid_radius_spec; auto).
  eexists. split; [reflexivity |].
  split; [apply sort_on_perm |].
  split; [intros c; rewrite filter_In, within_spec; tauto |].
  split.
  - intros e He. apply (Permutation_in _ (sort_on_perm km _)) in He.
    apply in_map_iff in He. destruct He as [c [<- Hc]].
    apply filter_In in Hc. destruct Hc as [Hc W].
    apply within_spec in W. destruct W as [d [E L]].
    exists c, d. rewrite (annotate_defined lat lng c d E). auto.
  - split; [apply sort_on_sorted, kept_keys_not_nan |].
    split; [intros k; apply sort_on_stable |].
    intros data' P S F.
    pose proof (kept_keys_not_nan lat lng radius_km dataset) as N.
    apply (stable_sorted_unique km); try assumption.
    + apply Forall_forall. intros e He. rewrite Forall_forall in N.
      apply N. apply (Permutation_in _ P). exact He.
    + apply Forall_forall. intros e He. rewrite Forall_forall in N.
      apply N. apply (Permutation_in _ (sort_on_perm km _)). exact He.
    + apply sort_on_sorted. exact N.
    + intros k. rewrite F, sort_on_stable. reflexivity.
Qed.

Lemma nearby_within_radius_sorted_witness :
  exists data,
    answer [sample "far" [] (F.decimal 4790 2) (F.decimal 191 2);
            sample "b" [] (F.decimal 4740005 5) tours_lng;
            sample "a" [] (F.decimal 4740004 5) tours_lng] []
      (GetNearby (Some tours_lat) (Some tours_lng) (Some (F.of_Z 50))) =
      Ok (NearbyResult tours_lat tours_lng (F.of_Z 50) (length data) data) /\
    StronglySorted (fun a b => fle (km a) (km b)) data.
Proof.
  destruct (nearby_within_radius_sorted
              [sample "far" [] (F.decimal 4790 2) (F.decimal 191 2);
               sample "b" [] (F.decimal 4740005 5) tours_lng;
               sample "a" [] (F.decimal 4740004 5) tours_lng] []
              tours_lat tours_lng (F.of_Z 50))
    as [data [H1 [_ [_ [_ [H2 _]]]]]].
  - vm_compute. reflexivity.
  - vm_compute. reflexivity.
  - intros c [<- | [<- | [<- | []]]]; eexists; vm_compute; reflexivity.
  - exists data. split; assumption.
Defined.

(** C1 as stated fails on an infinite latitude: [math.sin] raises on the
    infinite difference of latitudes and the request is not answered. *)
Lemma nearby_infinite_latitude_raises :
  fle (F.of_Z 1) (F.of_Z 50) /\ fle (F.of_Z 50) (F.of_Z 500) /\
  answer [sample "a" [] tours_lat tours_lng] []
    (GetNearby (Some (S754_infinity false)) (Some tours_lng)
       (Some (F.of_Z 50))) = Raise ValueError /\
  ~ (exists data,
       answer [sample "a" [] tours_lat tours_lng] []
         (GetNearby (Some (S754_infinity false)) (Some tours_lng)
            (Some (F.of_Z 50))) =
       Ok (NearbyResult (S754_infinity false) tours_lng (F.of_Z 50)
             (length data) data)).
Proof.
  assert (E : answer [sample "a" [] tours_lat tours_lng] []
                (GetNearby (Some (S754_infinity false)) (Some tours_lng)
                   (Some (F.of_Z 50))) = Raise ValueError)
    by (vm_compute; reflexivity).
  split; [vm_compute; reflexivity |].
  split; [vm_compute; reflexivity |].
  split; [exact E |].
  intros [data H]. rewrite E in H. discriminate.
Qed.

(** C9: the radius test of [nearby] is on the unrounded distance, while
    the attached [distance_km], the sort key, is that distance rounded to
    2 decimals.  So a record whose distance [d] satisfies
    [d <= radius_km < round(d, 2)] is returned with a [distance_km]
    strictly greater than [radius_km] (such floats exist:
    [round(1.006, 2) = 1.01]); and two returned records whose distances
    round to the same value are in collection order whatever their
    unrounded distances are (such floats exist too: [1.007 > 1.006] round
    to the same [1.01]). *)
Theorem nearby_rounded_distance {RT : Runtime} dataset history
  (lat lng radius_km : float) :
  valid_radius radius_km = true ->
  distances_defined lat lng dataset ->
  exists data,
    answer dataset history (GetNearby (Some lat) (Some lng) (Some radius_km)) =
      Ok (NearbyResult lat lng radius_km (length data) data) /\
    (forall c d, In c dataset -> distance_to lat lng c = Ok d ->
       (In (annotate lat lng c) data <-> fle d radius_km) /\
       km (annotate lat lng c) = F.round d 2) /\
    StronglySorted (fun a b => fle (km a) (km b)) data /\
    (forall c d, In c dataset -> distance_to lat lng c = Ok d ->
       fle d radius_km -> F.ltb radius_km (F.round d 2) = true ->
       exists e, In e data /\ F.ltb radius_km (km e) = true) /\
    (forall l1 c1 l2 c2 l3 d1 d2,
       dataset = l1 ++ c1 :: l2 ++ c2 :: l3 ->
       distance_to lat lng c1 = Ok d1 -> distance_to lat lng c2 = Ok d2 ->
       fle d1 radius_km -> fle d2 radius_km ->
       F.eqb (F.round d1 2) (F.round d2 2) = true ->
       exists p q t,
         data = p ++ annotate lat lng c1 :: q ++ annotate lat lng c2 :: t) /\
    (exists d r, valid_radius r = true /\ fle d r /\
                 F.ltb r (F.round d 2) = true) /\
    (exists d1 d2, F.ltb d2 d1 = true /\ F.round d1 2 = F.round d2 2).
Proof.
  intros V D. rewrite answer_reply.
  rewrite (nearby_reply_defined lat lng radius_km dataset V D).
  eexists. split; [reflexivity |].
  assert (In_data : forall c d, In c dataset -> distance_to lat lng c = Ok d ->
            fle d radius_km ->
            In (annotate lat lng c)
              (sort_on km (map (annotate lat lng)
                 (filter (within lat lng radius_km) dataset)))).
  { intros c d Hc E L.
    apply (Permutation_in _ (Permutation_sym (sort_on_perm km _))).
    apply in_map, filter_In. split; [exact Hc |].
    apply within_spec. eauto. }
  split; [| split; [| split; [| split; [| split]]]].
  - intros c d Hc E. split.
    + split; [| apply In_data with (d := d); assumption].
      intros He. apply (Permutation_in _ (sort_on_perm km _)) in He.
      apply in_map_iff in He. destruct He as [c' [E' Hc']].
      apply filter_In in Hc'. destruct Hc' as [Hc' W].
      apply within_spec in W. destruct W as [d' [Ed' L]].
      rewrite (annotate_defined lat lng c d E),
        (annotate_defined lat lng c' d' Ed') in E'.
      pose proof (f_equal Center.lat E') as Hlat.
      pose proof (f_equal Center.lng E') as Hlng.
      simpl in Hlat, Hlng. unfold distance_to in E, Ed'.
      rewrite Hlat, Hlng, E in Ed'. inversion Ed'. subst d'. exact L.
    + rewrite (annotate_defined lat lng c d E). reflexivity.
  - apply sort_on_sorted, kept_keys_not_nan.
  - intros c d Hc E L G. exists (annotate lat lng c). split.
    + apply In_data with (d := d); assumption.
    + rewrite (annotate_defined lat lng c d E). exact G.
  - intros l1 c1 l2 c2 l3 d1 d2 -> E1 E2 L1 L2 Q.
    apply filter_order
      with (P := fun e => F.eqb (km e) (F.round d1 2))
           (a := filter (fun e => F.eqb (km e) (F.round d1 2))
                   (map (annotate lat lng)
                      (filter (within lat lng radius_km) l1)))
           (b := filter (fun e => F.eqb (km e) (F.round d1 2))
                   (map (annotate lat lng)
                      (filter (within lat lng radius_km) l2)))
           (c := filter (fun e => F.eqb (km e) (F.round d1 2))
                   (map (annotate lat lng)
                      (filter (within lat lng radius_km) l3))).
    rewrite sort_on_stable.
    rewrite kept_app, (kept_cons lat lng radius_km c1 d1 _ E1 L1).
    rewrite kept_app, (kept_cons lat lng radius_km c2 d2 _ E2 L2).
    rewrite (annotate_defined lat lng c1 d1 E1),
      (annotate_defined lat lng c2 d2 E2).
    rewrite filter_app. cbn [filter]. rewrite km_with_distance_km.
    rewrite feqb_refl
      by (rewrite round_is_nan; apply (fleb_not_nan _ _ L1)).
    rewrite filter_app. cbn [filter]. rewrite km_with_distance_km.
    rewrite (feqb_sym (F.round d2 2)), Q. reflexivity.
  - exists (F.decimal 1006 3), (F.decimal 1006 3).
    vm_compute. auto.
  - exists (F.decimal 1007 3), (F.decimal 1006 3).
    vm_compute. auto.
Qed.

Lemma nearby_rounded_distance_witness :
  exists data,
    answer [sample "b" [] (F.decimal 4740005 5) tours_lng;
            sample "a" [] (F.decimal 4740004 5) tours_lng] []
      (GetNearby (Some tours_lat) (Some tours_lng) (Some (F.decimal 1118 3))) =
      Ok (NearbyResult tours_lat tours_lng (F.decimal 1118 3)
            (length data) data) /\
    (exists e, In e data /\ F.ltb (F.decimal 1118 3) (km e) = true) /\
    (exists p q t,
       data = p ++ annotate tours_lat tours_lng
                     (sample "b" [] (F.decimal 4740005 5) tours_lng)
                :: q ++ annotate tours_lat tours_lng
                          (sample "a" [] (F.decimal 4740004 5) tours_lng)
                     :: t).
Proof.
  destruct (nearby_rounded_distance
              [sample "b" [] (F.decimal 4740005 5) tours_lng;
               sample "a" [] (F.decimal 4740004 5) tours_lng] []
              tours_lat tours_lng (F.decimal 1118 3))
    as [data [H1 [_ [_ [H2 [H3 _]]]]]].
  - vm_compute. reflexivity.
  - intros c [<- | [<- | []]]; eexists; vm_compute; reflexivity.
  - exists data. split; [exact H1 |]. split.
    + apply (H2 (sample "b" [] (F.decimal 4740005 5) tours_lng)
               (S754_finite false 5032813173529282 (-52))).
      * left. reflexivity.
      * vm_compute. reflexivity.
      * vm_compute. reflexivity.
      * vm_compute. reflexivity.
    + apply (H3 [] (sample "b" [] (F.decimal 4740005 5) tours_lng) []
               (sample "a" [] (F.decimal 4740004 5) tours_lng) []
               (S754_finite false 5032813173529282 (-52))
               (S754_finite false 5027805399223389 (-52)));
        vm_compute; reflexivity.
Defined.

(** ** A record at the query point *)

Lemma haversine_same_point {RT : Runtime} v :
  math_sin zero = Ok zero ->
  float_pow zero (F.of_Z 2) = Ok zero ->
  math_asin zero = Ok zero ->
  math_cos (F.radians tours_lat) = Ok v ->
  is_finite (F.mul v v) = true ->
  haversine_distance tours_lat tours_lng tours_lat tours_lng = Ok zero.
Proof.
  intros Hsin Hpow Hasin Hcos Hfin. unfold haversine_distance. cbv zeta.
  replace (F.div (F.sub (F.radians tours_lat) (F.radians tours_lat))
             (F.of_Z 2)) with zero by (vm_compute; reflexivity).
  replace (F.div (F.sub (F.radians tours_lng) (F.radians tours_lng))
             (F.of_Z 2)) with zero by (vm_compute; reflexivity).
  rewrite Hsin. cbn [result_bind]. rewrite Hpow. cbn [result_bind].
  rewrite Hcos. cbn [result_bind].
  assert (A : F.add zero (F.mul (F.mul v v) zero) = zero).
  { destruct (F.mul v v) as [s|s| |s m e]; try discriminate;
      destruct s; reflexivity. }
  rewrite A. unfold math_sqrt.
  change (F.sqrt zero) with zero. change (F.is_nan zero) with false.
  cbn [andb result_bind]. rewrite Hasin. reflexivity.
Qed.

(** C8 (amended): for a dataset that contains a center at the query
    point [(47.39, 0.69)] and in which the distance of every record is
    defined, [nearby(lat=47.39, lng=0.69, radius_km=50)] returns that
    center with [distance_km == 0.0]; it is the first element of [data]
    when every returned record that comes earlier in the collection has
    a [distance_km] greater than [0.0] and every returned record that
    comes later has a [distance_km] of at least [0.0], so a later record
    at the same point does not displace it.  The runtime is one in which
    [sin(0.0)], [0.0 ** 2] and [asin(0.0)] are [0.0] and the square of
    [cos(radians(47.39))] is finite. *)
Theorem nearby_center_at_query_point {RT : Runtime} ds1 c ds2 history v :
  math_sin zero = Ok zero ->
  float_pow zero (F.of_Z 2) = Ok zero ->
  math_asin zero = Ok zero ->
  math_cos (F.radians tours_lat) = Ok v ->
  is_finite (F.mul v v) = true ->
  to_float (Center.lat c) = Ok tours_lat ->
  to_float (Center.lng c) = Ok tours_lng ->
  distances_defined tours_lat tours_lng (ds1 ++ ds2) ->
  exists data,
    answer (ds1 ++ c :: ds2) history
      (GetNearby (Some tours_lat) (Some tours_lng) (Some (F.of_Z 50))) =
      Ok (NearbyResult tours_lat tours_lng (F.of_Z 50) (length data) data) /\
    In (Center.with_distance_km c zero) data /\
    ((forall c', In c' ds1 ->
        within tours_lat tours_lng (F.of_Z 50) c' = true ->
        F.ltb zero (km (annotate tours_lat tours_lng c')) = true) ->
     (forall c', In c' ds2 ->
        within tours_lat tours_lng (F.of_Z 50) c' = true ->
        F.leb zero (km (annotate tours_lat tours_lng c')) = true) ->
     exists rest, data = Center.with_distance_km c zero :: rest).
Proof.
  intros Hsin Hpow Hasin Hcos Hfin Hlat Hlng D.
  assert (E : distance_to tours_lat tours_lng c = Ok zero).
  { unfold distance_to. rewrite Hlat, Hlng. cbn [result_bind].
    apply (haversine_same_point v); assumption. }
  assert (L : fle zero (F.of_Z 50)) by (vm_compute; reflexivity).
  assert (D' : distances_defined tours_lat tours_lng (ds1 ++ c :: ds2)).
  { intros c' H. apply in_app_or in H. destruct H as [H | [<- | H]].
    - apply D, in_or_app. auto.
    - exists zero. exact E.
    - apply D, in_or_app. auto. }
  rewrite answer_reply.
  rewrite (nearby_reply_defined tours_lat tours_lng (F.of_Z 50) _
             ltac:(vm_compute; reflexivity) D').
  set (kept := map (annotate tours_lat tours_lng)
                 (filter (within tours_lat tours_lng (F.of_Z 50))
                    (ds1 ++ c :: ds2))).
  set (earlier := map (annotate tours_lat tours_lng)
                    (filter (within tours_lat tours_lng (F.of_Z 50)) ds1)).
  set (later := map (annotate tours_lat tours_lng)
                  (filter (within tours_lat tours_lng (F.of_Z 50)) ds2)).
  assert (K : kept = earlier ++ Center.with_distance_km c zero :: later).
  { unfold kept. rewrite kept_app.
    rewrite (kept_cons tours_lat tours_lng (F.of_Z 50) c zero _ E L).
    reflexivity. }
  assert (Hin : In (Center.with_distance_km c zero) (sort_on km kept)).
  { apply (Permutation_in _ (Permutation_sym (sort_on_perm km kept))).
    rewrite K. apply in_or_app. right. left. reflexivity. }
  eexists. split; [reflexivity |]. split; [exact Hin |].
  intros Hearlier Hlater.
  assert (Pos : forall x, In x earlier -> F.ltb zero (km x) = true).
  { intros x Hx. apply in_map_iff in Hx. destruct Hx as [c' [<- Hc']].
    apply filter_In in Hc'. destruct Hc' as [Hc' W].
    exact (Hearlier c' Hc' W). }
  assert (Nonneg : forall x, In x later -> F.leb zero (km x) = true).
  { intros x Hx. apply in_map_iff in Hx. destruct Hx as [c' [<- Hc']].
    apply filter_In in Hc'. destruct Hc' as [Hc' W].
    exact (Hlater c' Hc' W). }
  assert (None_earlier :
            filter (fun a => F.eqb (km a) zero) earlier = []).
  { clear - Pos. induction earlier as [|x l IH]; [reflexivity |].
    cbn [filter].
    destruct (F.eqb (km x) zero) eqn:Q.
    - apply feqb_fleb in Q.
      rewrite (fltb_not_fleb _ _ (Pos x (or_introl eq_refl))) in Q.
      discriminate.
    - apply IH. intros y Hy. apply Pos. right. exact Hy. }
  pose proof (sort_on_sorted km kept
                (kept_keys_not_nan tours_lat tours_lng (F.of_Z 50) _)) as S.
  pose proof (sort_on_perm km kept) as P.
  pose proof (sort_on_stable km kept zero) as St.
  destruct (sort_on km kept) as [|e rest]; [destruct Hin |].
  exists rest. f_equal.
  assert (Below : fle (km e) zero).
  { destruct Hin as [-> | Hin]; [vm_compute; reflexivity |].
    inversion S as [|? ? _ Hall]; subst.
    rewrite Forall_forall in Hall. exact (Hall _ Hin). }
  assert (Above : fle zero (km e)).
  { assert (He : In e kept)
      by (apply (Permutation_in _ P); left; reflexivity).
    rewrite K in He. apply in_app_or in He.
    destruct He as [He | [<- | He]].
    - apply fltb_fleb, Pos, He.
    - vm_compute. reflexivity.
    - apply Nonneg, He. }
  rewrite K, filter_app, None_earlier in St. cbn [filter app] in St.
  rewrite (fle_antisym _ _ Below Above) in St.
  rewrite km_with_distance_km in St.
  change (F.eqb zero zero) with true in St. cbv iota in St.
  inversion St. reflexivity.
Qed.

Lemma nearby_center_at_query_point_witness :
  exists data,
    answer ([sample "near" [] (F.decimal 4740005 5) tours_lng] ++
            sample "a" [] tours_lat tours_lng ::
            [sample "b" [] tours_lat tours_lng]) []
      (GetNearby (Some tours_lat) (Some tours_lng) (Some (F.of_Z 50))) =
      Ok (NearbyResult tours_lat tours_lng (F.of_Z 50) (length data) data) /\
    In (Center.with_distance_km (sample "a" [] tours_lat tours_lng) zero)
      data /\
    exists rest,
      data = Center.with_distance_km (sample "a" [] tours_lat tours_lng)
               zero :: rest.
Proof.
  destruct (nearby_center_at_query_point
              [sample "near" [] (F.decimal 4740005 5) tours_lng]
              (sample "a" [] tours_lat tours_lng)
              [sample "b" [] tours_lat tours_lng] []
              (match Approx.cos (F.radians tours_lat) with
               | Ok v => v
               | Raise _ => zero
               end))
    as [data [H1 [H2 H3]]].
  - vm_compute. reflexivity.
  - vm_compute. reflexivity.
  - vm_compute. reflexivity.
  - vm_compute. reflexivity.
  - vm_compute. reflexivity.
  - reflexivity.
  - reflexivity.
  - intros c [<- | [<- | []]]; eexists; vm_compute; reflexivity.
  - exists data. split; [exact H1 |]. split; [exact H2 |].
    apply H3.
    + intros c' [<- | []] _. vm_compute. reflexivity.
    + intros c' [<- | []] _. vm_compute. reflexivity.
Defined.

(** C8 as stated fails when the dataset holds two centers at the query
    point: both are returned with [distance_km == 0.0], in collection
    order, so the second one is not the first element of [data]. *)
Lemma nearby_second_center_at_query_point_not_first :
  to_float (Center.lat (sample "b" [] tours_lat tours_lng)) = Ok tours_lat /\
  to_float (Center.lng (sample "b" [] tours_lat tours_lng)) = Ok tours_lng /\
  answer [sample "a" [] tours_lat tours_lng;
          sample "b" [] tours_lat tours_lng] []
    (GetNearby (Some tours_lat) (Some tours_lng) (Some (F.of_Z 50))) =
    Ok (NearbyResult tours_lat tours_lng (F.of_Z 50) 2
          [Center.with_distance_km (sample "a" [] tours_lat tours_lng) zero;
           Center.with_distance_km (sample "b" [] tours_lat tours_lng) zero])
  /\
  ~ (exists count rest,
       answer [sample "a" [] tours_lat tours_lng;
               sample "b" [] tours_lat tours_lng] []
         (GetNearby (Some tours_lat) (Some tours_lng) (Some (F.of_Z 50))) =
       Ok (NearbyResult tours_lat tours_lng (F.of_Z 50) count
             (Center.with_distance_km (sample "b" [] tours_lat tours_lng) zero
              :: rest))).
Proof.
  assert (E : answer [sample "a" [] tours_lat tours_lng;
                      sample "b" [] tours_lat tours_lng] []
                (GetNearby (Some tours_lat) (Some tours_lng)
                   (Some (F.of_Z 50))) =
              Ok (NearbyResult tours_lat tours_lng (F.of_Z 50) 2
                    [Center.with_distance_km
                       (sample "a" [] tours_lat tours_lng) zero;
                     Center.with_distance_km
                       (sample "b" [] tours_lat tours_lng) zero]))
    by (vm_compute; reflexivity).
  split; [reflexivity |]. split; [reflexivity |]. split; [exact E |].
  intros [count [rest H]]. rewrite E in H. inversion H.
Qed.

(* ===================================================================== *)
(** * Part III: further properties of the handlers and of the agent        *)
(* ===================================================================== *)

(** ** Parameters: defaults and rejections *)

(** X1: an omitted [limit], [offset] or [radius_km] acts as the explicit
    value 100, 0 or 50; the list-all endpoint without parameters returns
    the first 100 records. *)
Theorem omitted_parameters_take_defaults {RT : Runtime} dataset history :
  (forall offset,
     answer dataset history (GetAllCenters None offset) =
     answer dataset history (GetAllCenters (Some 100%Z) offset)) /\
  (forall limit,
     answer dataset history (GetAllCenters limit None) =
     answer dataset history (GetAllCenters limit (Some 0%Z))) /\
  (forall lat lng,
     answer dataset history (GetNearby lat lng None) =
     answer dataset history (GetNearby lat lng (Some (F.of_Z 50)))) /\
  answer dataset history (GetAllCenters None None) =
    Ok (AllCenters (length dataset) 100 0 (firstn 100 dataset)).
Proof.
  split; [| split; [| split]].
  - intros offset. rewrite !answer_reply. reflexivity.
  - intros limit. rewrite !answer_reply. reflexivity.
  - intros lat lng. rewrite !answer_reply. cbn [reply].
    destruct (Query_required (fun _ => true) lat); [| reflexivity].
    destruct (Query_required (fun _ => true) lng); reflexivity.
  - rewrite answer_reply. cbn [reply Query_default result_bind].
    rewrite (slice_window dataset 0 100) by lia. reflexivity.
Qed.

Lemma radius_out_of_range r :
  F.is_nan r = true \/ F.ltb r (F.of_Z 1) = true \/
  F.ltb (F.of_Z 500) r = true ->
  valid_radius r = false.
Proof.
  unfold valid_radius. intros [H | [H | H]].
  - destruct r; try discriminate. reflexivity.
  - rewrite (fltb_not_fleb _ _ H). reflexivity.
  - rewrite (fltb_not_fleb _ _ H). apply andb_false_r.
Qed.

(** X2: a request that the parameter declarations reject (a required
    parameter missing, a keyword shorter than 2 characters, [limit]
    outside [1, 500], a negative [offset], [radius_km] outside [1, 500]
    or NaN) raises the validation error in whatever state the process is,
    and leaves that state as it is: nothing is read or created. *)
Theorem rejected_before_reading {RT : Runtime} (req : request) (s : state) :
  rejected req = true ->
  handle req s = (Raise RequestValidationError, s).
Proof.
  destruct req as [|limit offset|center_id|q|name| |name| |lat lng r];
    cbn [rejected handle]; try discriminate; intros H.
  - unfold get_all_centers. rewrite bind_lift.
    destruct limit as [l|]; cbn [Query_default].
    + destruct (valid_limit l); [| reflexivity]. rewrite bind_lift.
      destruct offset as [o|]; cbn [Query_default]; [| discriminate].
      destruct (valid_offset o); [discriminate | reflexivity].
    + rewrite bind_lift.
      destruct offset as [o|]; cbn [Query_default]; [| discriminate].
      destruct (valid_offset o); [discriminate | reflexivity].
  - unfold search_centers. rewrite bind_lift.
    destruct q as [v|]; cbn [Query_required]; [| reflexivity].
    destruct (2 <=? length v); [discriminate | reflexivity].
  - unfold get_by_discipline. rewrite bind_lift.
    destruct name; [discriminate | reflexivity].
  - unfold get_by_pathology. rewrite bind_lift.
    destruct name; [discriminate | reflexivity].
  - unfold get_nearby_centers. rewrite bind_lift.
    destruct lat as [la|]; cbn [Query_required]; [| reflexivity].
    rewrite bind_lift.
    destruct lng as [lo|]; cbn [Query_required]; [| reflexivity].
    rewrite bind_lift.
    destruct r as [v|]; cbn [Query_default]; [| discriminate].
    destruct (valid_radius v); [discriminate | reflexivity].
Qed.

Lemma rejected_before_reading_witness :
  handle (GetNearby (Some tours_lat) (Some tours_lng) (Some S754_nan))
    (load_centers [sample "a" [] tours_lat tours_lng]) =
    (Raise RequestValidationError,
     load_centers [sample "a" [] tours_lat tours_lng]) /\
  handle (GetSearch (Some (py "t"))) {| heap := []; centers := [7] |} =
    (Raise RequestValidationError, {| heap := []; centers := [7] |}).
Proof.
  split.
  - apply (rejected_before_reading
             (GetNearby (Some tours_lat) (Some tours_lng) (Some S754_nan))).
    reflexivity.
  - apply (rejected_before_reading (GetSearch (Some (py "t")))).
    reflexivity.
Defined.

(** ** Only [get_nearby_centers] creates objects *)

Lemma bind_same_state {A B} (m : M A) (k : A -> M B) :
  (forall s, snd (m s) = s) -> (forall a s, snd (k a s) = s) ->
  forall s, snd (bind m k s) = s.
Proof.
  intros Hm Hk s. unfold bind. specialize (Hm s).
  destruct (m s) as [[a|e] s']; simpl in *; subst; auto.
Qed.

Lemma deref_same_state r s : snd (deref r s) = s.
Proof. unfold deref. destruct (nth_error (heap s) r); reflexivity. Qed.

Lemma for_each_same_state {A B} (xs : list A) (body : B -> A -> M B) :
  (forall acc x s, snd (body acc x s) = s) ->
  forall acc s, snd (for_each xs acc body s) = s.
Proof.
  intros Hb. induction xs as [|x xs IH]; intros acc s; simpl.
  - reflexivity.
  - apply bind_same_state; auto.
Qed.

Lemma deref_all_same_state rs : forall s, snd (deref_all rs s) = s.
Proof.
  induction rs as [|r rs IH]; intros s; simpl; [reflexivity |].
  apply bind_same_state; [apply deref_same_state | intros d s'].
  apply bind_same_state; [exact IH | reflexivity].
Qed.

Lemma find_center_same_state center_id cs :
  forall s, snd (find_center center_id cs s) = s.
Proof.
  induction cs as [|r cs IH]; intros s; simpl; [reflexivity |].
  apply bind_same_state; [apply deref_same_state | intros d s'].
  destruct (Str.eqb (Center.id d) center_id); [reflexivity | apply IH].
Qed.

Lemma with_keys_same_state rs : forall s, snd (with_keys rs s) = s.
Proof.
  induction rs as [|r rs IH]; intros s; simpl; [reflexivity |].
  apply bind_same_state.
  - intros s'. unfold key_distance_km.
    apply bind_same_state; [apply deref_same_state | intros d s''].
    destruct (Center.distance_km d); reflexivity.
  - intros k s'. apply bind_same_state; [exact IH | reflexivity].
Qed.

Ltac same_state :=
  repeat first
    [ apply deref_all_same_state
    | apply deref_same_state
    | apply find_center_same_state
    | reflexivity
    | apply bind_same_state; [intro | intros ? ?]
    | apply for_each_same_state; intros ? ? ?
    | match goal with |- snd ((if ?b then _ else _) _) = _ => destruct b end ].

(** X3: every handler except [get_nearby_centers] returns the process
    state exactly as it received it, whatever that state is and whether
    it answers or raises: these handlers create no object. *)
Theorem reading_handlers_keep_state {RT : Runtime} (s : state) :
  snd (root s) = s /\
  (forall limit offset, snd (get_all_centers limit offset s) = s) /\
  (forall center_id, snd (get_center_by_id center_id s) = s) /\
  (forall q, snd (search_centers q s) = s) /\
  (forall name, snd (get_by_discipline name s) = s) /\
  snd (list_disciplines s) = s /\
  (forall name, snd (get_by_pathology name s) = s) /\
  snd (list_pathologies s) = s.
Proof.
  unfold root, get_all_centers, get_center_by_id, search_centers,
    get_by_discipline, list_disciplines, get_by_pathology, list_pathologies.
  repeat match goal with |- _ /\ _ => split end; intros; same_state.
Qed.

Lemma nearby_loop_heap {RT : Runtime} lat lng radius_km ds :
  forall cs s acc kept,
  points_to s cs ds ->
  nearby_scan lat lng radius_km ds = Ok kept ->
  heap (snd (for_each cs acc (fun results r =>
    center <- deref r ;;
    center_lat <- lift (to_float (Center.lat center)) ;;
    center_lng <- lift (to_float (Center.lng center)) ;;
    distance <- lift (haversine_distance lat lng center_lat center_lng) ;;
    if F.leb distance radius_km
    then
      copy <- alloc (Center.with_distance_km center (F.round distance 2)) ;;
      ret (results ++ [copy])
    else ret results) s)) = heap s ++ map snd kept.
Proof.
  induction ds as [|d ds IH]; intros cs s acc kept P E; inversion P; subst.
  - simpl in E. inversion E. simpl. rewrite app_nil_r. reflexivity.
  - match goal with H : nth_error _ _ = Some d |- _ => rename H into Hr end.
    match goal with H : Forall2 _ _ ds |- _ => rename H into Hp end.
    cbn [nearby_scan] in E. rewrite for_each_cons.
    rewrite (nearby_body lat lng radius_km s _ d acc Hr).
    destruct (distance_to lat lng d) as [dist|e]; cbn [result_bind] in E;
      [| discriminate].
    destruct (nearby_scan lat lng radius_km ds) as [rest|e] eqn:Er;
      cbn [result_bind] in E; [| discriminate].
    inversion E; subst; clear E.
    destruct (F.leb dist radius_km).
    + set (s1 := {| heap := heap s ++ _; centers := centers s |}).
      assert (G : grows s s1)
        by (split; [reflexivity | eexists; reflexivity]).
      rewrite (IH _ s1 _ rest (points_to_grows _ _ _ _ G Hp) eq_refl).
      subst s1. simpl. rewrite <- app_assoc. reflexivity.
    + apply IH; [exact Hp | reflexivity].
Qed.

Lemma nearby_heap {RT : Runtime} (lat lng radius_km : float) s ds :
  points_to s (centers s) ds ->
  valid_radius radius_km = true ->
  distances_defined lat lng ds ->
  heap (snd (get_nearby_centers (Some lat) (Some lng) (Some radius_km) s)) =
  heap s ++ map (annotate lat lng) (filter (within lat lng radius_km) ds).
Proof.
  intros P V D. unfold get_nearby_centers.
  rewrite bind_lift. cbn [Query_required].
  rewrite bind_lift. cbn [Query_required].
  rewrite bind_lift. cbn [Query_default]. rewrite V.
  erewrite bind_Ok by reflexivity.
  pose proof (nearby_loop lat lng radius_km ds (centers s) s [] P) as L.
  pose proof (nearby_loop_heap lat lng radius_km ds (centers s) s [] _ P
                (nearby_scan_defined lat lng radius_km ds D)) as Hh.
  cbv zeta in L. destruct L as [_ L].
  rewrite (nearby_scan_defined lat lng radius_km ds D) in L.
  destruct L as [refs [L1 _]].
  match type of L1 with fst ?o = _ => destruct o as [res s1] eqn:Eo end.
  simpl in L1, Hh. subst res. unfold bind at 1. rewrite Eo.
  rewrite bind_same_state.
  - rewrite Hh, map_map. simpl. rewrite map_id. reflexivity.
  - apply with_keys_same_state.
  - intros keyed s2. same_state.
Qed.

(** X4: a [nearby] request that is answered adds to the heap one new
    object for each record it returns, the annotated copies in collection
    order, and nothing else. *)
Theorem nearby_creates_one_copy_per_result {RT : Runtime} dataset history
  (lat lng radius_km : float) :
  valid_radius radius_km = true ->
  distances_defined lat lng dataset ->
  heap (snd (handle (GetNearby (Some lat) (Some lng) (Some radius_km))
               (serve history (load_centers dataset)))) =
    heap (serve history (load_centers dataset)) ++
    map (annotate lat lng) (filter (within lat lng radius_km) dataset) /\
  centers (snd (handle (GetNearby (Some lat) (Some lng) (Some radius_km))
                  (serve history (load_centers dataset)))) =
    centers (serve history (load_centers dataset)).
Proof.
  intros V D. split.
  - apply nearby_heap; [apply serve_points | exact V | exact D].
  - apply (handle_frugal (GetNearby (Some lat) (Some lng) (Some radius_km))).
Qed.

Lemma nearby_creates_one_copy_per_result_witness :
  heap (snd (handle
          (GetNearby (Some tours_lat) (Some tours_lng) (Some (F.of_Z 50)))
          (serve [] (load_centers
             [sample "far" [] (F.decimal 4790 2) (F.decimal 191 2);
              sample "tours" [] tours_lat tours_lng])))) =
  [sample "far" [] (F.decimal 4790 2) (F.decimal 191 2);
   sample "tours" [] tours_lat tours_lng;
   Center.with_distance_km (sample "tours" [] tours_lat tours_lng) zero].
Proof.
  destruct (nearby_creates_one_copy_per_result
              [sample "far" [] (F.decimal 4790 2) (F.decimal 191 2);
               sample "tours" [] tours_lat tours_lng] []
              tours_lat tours_lng (F.of_Z 50)) as [H _].
  - vm_compute. reflexivity.
  - intros c [<- | [<- | []]]; eexists; vm_compute; reflexivity.
  - rewrite H. vm_compute. reflexivity.
Defined.

(** ** Paging through the collection *)

Lemma answer_page {RT : Runtime} dataset history (limit offset : Z) :
  (1 <= limit <= 500)%Z -> (0 <= offset)%Z ->
  answer dataset history (GetAllCenters (Some limit) (Some offset)) =
  Ok (AllCenters (length dataset) limit offset
        (firstn (Z.to_nat limit) (skipn (Z.to_nat offset) dataset))).
Proof.
  intros Hl Ho. rewrite answer_reply. cbn [reply Query_default].
  unfold valid_limit, valid_offset.
  destruct (Z.leb_spec 1 limit); [| lia].
  destruct (Z.leb_spec limit 500); [| lia].
  destruct (Z.leb_spec 0 offset); [| lia].
  simpl. rewrite slice_window by lia. reflexivity.
Qed.

Lemma window_app {A} (l : list A) (o a b : nat) :
  firstn a (skipn o l) ++ firstn b (skipn (o + a) l) =
  firstn (a + b) (skipn o l).
Proof.
  rewrite firstn_plus, skipn_skipn. f_equal. f_equal. f_equal. lia.
Qed.

(** X5: a page and the page that starts where it stops, put one after
    the other, are the page of both lengths together: for [offset >= 0]
    and limits [l1, l2 >= 1] with [l1 + l2 <= 500], the data at
    [(offset, l1)] followed by the data at [(offset + l1, l2)] is the
    data at [(offset, l1 + l2)]. *)
Theorem consecutive_pages_concatenate {RT : Runtime} dataset history
  (offset l1 l2 : Z) :
  (0 <= offset)%Z -> (1 <= l1)%Z -> (1 <= l2)%Z -> (l1 + l2 <= 500)%Z ->
  exists d1 d2,
    answer dataset history (GetAllCenters (Some l1) (Some offset)) =
      Ok (AllCenters (length dataset) l1 offset d1) /\
    answer dataset history (GetAllCenters (Some l2) (Some (offset + l1)%Z)) =
      Ok (AllCenters (length dataset) l2 (offset + l1) d2) /\
    answer dataset history (GetAllCenters (Some (l1 + l2)%Z) (Some offset)) =
      Ok (AllCenters (length dataset) (l1 + l2) offset (d1 ++ d2)).
Proof.
  intros Ho H1 H2 H. rewrite !answer_page by lia.
  eexists. eexists. split; [reflexivity |]. split; [reflexivity |].
  do 2 f_equal.
  replace (Z.to_nat (offset + l1)) with (Z.to_nat offset + Z.to_nat l1) by lia.
  rewrite window_app. f_equal. lia.
Qed.

Lemma consecutive_pages_concatenate_witness :
  exists d1 d2,
    answer [sample "a" [] zero zero; sample "b" [] zero zero;
            sample "c" [] zero zero] [] (GetAllCenters (Some 1%Z) (Some 1%Z)) =
      Ok (AllCenters 3 1 1 d1) /\
    answer [sample "a" [] zero zero; sample "b" [] zero zero;
            sample "c" [] zero zero] []
      (GetAllCenters (Some 2%Z) (Some (1 + 1)%Z)) =
      Ok (AllCenters 3 2 (1 + 1) d2) /\
    answer [sample "a" [] zero zero; sample "b" [] zero zero;
            sample "c" [] zero zero] []
      (GetAllCenters (Some (1 + 2)%Z) (Some 1%Z)) =
      Ok (AllCenters 3 (1 + 2) 1 (d1 ++ d2)).
Proof.
  apply (consecutive_pages_concatenate
           [sample "a" [] zero zero; sample "b" [] zero zero;
            sample "c" [] zero zero] [] 1 1 2); lia.
Defined.

Lemma pages_concat {A} (l : list A) (size : nat) : forall n,
  concat (map (fun k => firstn size (skipn (k * size) l)) (seq 0 n)) =
  firstn (n * size) l.
Proof.
  induction n as [|n IH].
  - reflexivity.
  - rewrite seq_S, map_app, concat_app, IH. simpl.
    rewrite app_nil_r.
    pose proof (window_app l 0 (n * size) size) as W. simpl in W.
    rewrite W. f_equal. lia.
Qed.

(** X6: walking the collection with a fixed [limit] in [1, 500] and the
    offsets [0, limit, 2 * limit, ...] returns pages that, one after the
    other, are the collection itself: no record is skipped or repeated,
    and the pages past the end are empty. *)
Theorem pages_cover_the_collection {RT : Runtime} dataset history
  (limit : Z) (n : nat) :
  (1 <= limit <= 500)%Z ->
  (Z.of_nat (length dataset) <= Z.of_nat n * limit)%Z ->
  let page k :=
    firstn (Z.to_nat limit) (skipn (k * Z.to_nat limit) dataset) in
  (forall k,
     answer dataset history
       (GetAllCenters (Some limit) (Some (Z.of_nat k * limit)%Z)) =
     Ok (AllCenters (length dataset) limit (Z.of_nat k * limit) (page k))) /\
  concat (map page (seq 0 n)) = dataset /\
  (forall k, n <= k -> page k = []).
Proof.
  intros Hl Hn page. split; [| split].
  - intros k. rewrite answer_page by nia. unfold page.
    do 4 f_equal. nia.
  - unfold page. rewrite pages_concat. apply firstn_all2. nia.
  - intros k Hk. unfold page. rewrite skipn_all2 by nia. apply firstn_nil.
Qed.

Lemma pages_cover_the_collection_witness :
  concat (map (fun k =>
            firstn (Z.to_nat 2)
              (skipn (k * Z.to_nat 2)
                 [sample "a" [] zero zero; sample "b" [] zero zero;
                  sample "c" [] zero zero])) (seq 0 2)) =
  [sample "a" [] zero zero; sample "b" [] zero zero; sample "c" [] zero zero].
Proof.
  apply (pages_cover_the_collection
           [sample "a" [] zero zero; sample "b" [] zero zero;
            sample "c" [] zero zero] [] 2 2); simpl; lia.
Defined.

(** ** Lookup by id and the listing *)

Lemma lookup_skips_other_ids {RT : Runtime} before c after history :
  (forall c', In c' before -> Center.id c' <> Center.id c) ->
  answer (before ++ c :: after) history (GetCenterById (Center.id c)) =
  Ok (OneCenter c).
Proof.
  intros H. rewrite answer_reply. cbn [reply].
  induction before as [|b before IH]; simpl.
  - rewrite str_eqb_refl. reflexivity.
  - destruct (Str.eqb (Center.id b) (Center.id c)) eqn:E.
    + apply str_eqb_eq in E. exfalso.
      apply (H b); [left; reflexivity | exact E].
    + apply IH. intros c' Hc'. apply H. right. exact Hc'.
Qed.

(** X7: [get_center_by_id] returns the first record, in collection order,
    that carries the requested id, also when later records carry it
    too. *)
Theorem get_center_by_id_first_match {RT : Runtime} before c after history :
  (forall c', In c' before -> Center.id c' <> Center.id c) ->
  answer (before ++ c :: after) history (GetCenterById (Center.id c)) =
  Ok (OneCenter c).
Proof.
  apply lookup_skips_other_ids.
Qed.

Lemma get_center_by_id_first_match_witness :
  answer ([sample "a" (py "x") zero zero] ++
          sample "b" (py "first") zero zero ::
          [sample "b" (py "second") zero zero]) []
    (GetCenterById (Center.id (sample "b" (py "first") zero zero))) =
  Ok (OneCenter (sample "b" (py "first") zero zero)).
Proof.
  apply (get_center_by_id_first_match
           [sample "a" (py "x") zero zero]
           (sample "b" (py "first") zero zero)
           [sample "b" (py "second") zero zero] []).
  intros c' [<- | []]. discriminate.
Defined.

(** X8: when the ids of the collection are pairwise distinct, every
    record of the collection is what the lookup of its own id returns. *)
Theorem unique_ids_round_trip {RT : Runtime} dataset history c :
  NoDup (map Center.id dataset) ->
  In c dataset ->
  answer dataset history (GetCenterById (Center.id c)) = Ok (OneCenter c).
Proof.
  intros N Hin. apply in_split in Hin. destruct Hin as [before [after ->]].
  apply lookup_skips_other_ids.
  intros c' Hc' E. rewrite map_app in N. simpl in N.
  apply NoDup_remove_2 in N. apply N. apply in_or_app. left.
  rewrite <- E. apply in_map. exact Hc'.
Qed.

Lemma unique_ids_round_trip_witness :
  answer [sample "a" [] zero zero; sample "b" [] zero zero] []
    (GetCenterById (Center.id (sample "b" [] zero zero))) =
  Ok (OneCenter (sample "b" [] zero zero)).
Proof.
  apply (unique_ids_round_trip
           [sample "a" [] zero zero; sample "b" [] zero zero] []).
  - repeat constructor; simpl; intuition discriminate.
  - right. left. reflexivity.
Defined.

(** ** What a response can hold *)

Lemma in_firstn {A} (x : A) n l : In x (firstn n l) -> In x l.
Proof.
  intros H. rewrite <- (firstn_skipn n l). apply in_or_app. left. exact H.
Qed.

Lemma in_skipn {A} (x : A) n l : In x (skipn n l) -> In x l.
Proof.
  intros H. rewrite <- (firstn_skipn n l). apply in_or_app. right. exact H.
Qed.

Lemma in_slice {A} (x : A) l a b : In x (slice l a b) -> In x l.
Proof. unfold slice. intros H. apply in_firstn, in_skipn in H. exact H. Qed.

Lemma slice_length {A} (l : list A) a b : length (slice l a b) <= length l.
Proof. unfold slice. rewrite length_firstn, length_skipn. lia. Qed.

Lemma nearby_scan_kept {RT : Runtime} lat lng radius_km ds :
  forall kept, nearby_scan lat lng radius_km ds = Ok kept ->
  length kept <= length ds /\
  forall kc, In kc kept ->
    exists c d, In c ds /\ snd kc = Center.with_distance_km c d.
Proof.
  induction ds as [|c ds IH]; simpl; intros kept H.
  - inversion H. split; [simpl; lia | intros kc []].
  - destruct (distance_to lat lng c) as [dist|e]; simpl in H; [| discriminate].
    destruct (nearby_scan lat lng radius_km ds) as [rest|e]; simpl in H;
      [| discriminate].
    destruct (IH rest eq_refl) as [L M]. inversion H; subst; clear H.
    destruct (F.leb dist radius_km); simpl.
    + split; [lia |]. intros kc [<- | Hk].
      * exists c, (F.round dist 2). auto.
      * destruct (M kc Hk) as [c' [d [H1 H2]]]. exists c', d. auto.
    + split; [lia |]. intros kc Hk.
      destruct (M kc Hk) as [c' [d [H1 H2]]]. exists c', d. auto.
Qed.

(** X9: whatever the request and the history, a response holds at most
    as many records as the collection, each of them a record of the
    collection, as it is or with [distance_km] set on it, and its
    ["count"] is the number of items it carries. *)
Theorem response_within_collection {RT : Runtime} dataset history req resp :
  answer dataset history req = Ok resp ->
  length (response_data resp) <= length dataset /\
  (forall e, In e (response_data resp) ->
     exists c, In c dataset /\
       (e = c \/ exists d, e = Center.with_distance_km c d)) /\
  (forall count n, response_count resp = Some (count, n) -> count = n).
Proof.
  rewrite answer_reply.
  destruct req as [|limit offset|center_id|q|name| |name| |lat lng r];
    cbn [reply]; intros H.
  - inversion H; subst. simpl. split; [lia |].
    split; [intros e [] | discriminate].
  - destruct (Query_default 100%Z valid_limit limit); [| discriminate].
    destruct (Query_default 0%Z valid_offset offset); [| discriminate].
    simpl in H. inversion H; subst. simpl. split; [apply slice_length |].
    split; [| discriminate].
    intros e He. exists e. split; [eapply in_slice; exact He | auto].
  - destruct (find _ dataset) as [c|] eqn:E; [| discriminate].
    inversion H; subst. apply find_some in E. destruct E as [E _]. simpl.
    split; [destruct dataset; [destruct E | simpl; lia] |].
    split; [| discriminate].
    intros e [<- | []]. exists c. auto.
  - destruct (Query_required (fun v => 2 <=? length v) q);
      [| discriminate].
    simpl in H. inversion H; subst. simpl. split; [apply filter_length_le |].
    split; [| intros ? ? E; inversion E; reflexivity].
    intros e He. apply filter_In in He. exists e. tauto.
  - destruct (Query_required (fun _ => true) name); [| discriminate].
    simpl in H. inversion H; subst. simpl. split; [apply filter_length_le |].
    split; [| intros ? ? E; inversion E; reflexivity].
    intros e He. apply filter_In in He. exists e. tauto.
  - inversion H; subst. simpl. split; [lia |]. split; [intros e [] |].
    intros ? ? E. inversion E.
    apply Permutation_length, Permutation_sym, str_sorted_perm.
  - destruct (Query_required (fun _ => true) name); [| discriminate].
    simpl in H. inversion H; subst. simpl. split; [apply filter_length_le |].
    split; [| intros ? ? E; inversion E; reflexivity].
    intros e He. apply filter_In in He. exists e. tauto.
  - inversion H; subst. simpl. split; [lia |]. split; [intros e [] |].
    intros ? ? E. inversion E.
    apply Permutation_length, Permutation_sym, str_sorted_perm.
  - destruct (Query_required (fun _ => true) lat) as [la|];
      [| discriminate].
    destruct (Query_required (fun _ => true) lng) as [lo|];
      [| discriminate].
    destruct (Query_default (F.of_Z 50) valid_radius r) as [rad|];
      [| discriminate].
    cbn [result_bind] in H.
    destruct (nearby_scan la lo rad dataset) as [kept|] eqn:E;
      [| discriminate].
    cbn [result_bind] in H. inversion H; subst. simpl.
    destruct (nearby_scan_kept la lo rad dataset kept E) as [L M].
    pose proof (sort_by_key_perm kept) as P.
    split; [rewrite length_map, (Permutation_length P); exact L |].
    split; [| intros ? ? E'; inversion E'; reflexivity].
    intros e He. apply in_map_iff in He. destruct He as [kc [<- Hk]].
    apply (Permutation_in _ P) in Hk.
    destruct (M kc Hk) as [c [d [H1 H2]]]. exists c. split; [exact H1 |].
    right. exists d. exact H2.
Qed.

Lemma response_within_collection_witness :
  length (response_data
            (SearchResult (py "ten") 1 [sample "a" (py "Tennis") zero zero]))
  <= length [sample "a" (py "Tennis") zero zero;
             sample "b" (py "Basket") zero zero].
Proof.
  apply (response_within_collection
           [sample "a" (py "Tennis") zero zero;
            sample "b" (py "Basket") zero zero] []
           (GetSearch (Some (py "ten")))).
  vm_compute. reflexivity.
Defined.

(** ** How the searches relate *)

Lemma filter_filter_imp {A} (P Q : A -> bool) (l : list A) :
  (forall x, P x = true -> Q x = true) ->
  filter P (filter Q l) = filter P l.
Proof.
  intros H. induction l as [|x l IH]; simpl; [reflexivity |].
  destruct (Q x) eqn:Eq; simpl.
  - rewrite IH. reflexivity.
  - destruct (P x) eqn:Ep; [| exact IH].
    rewrite (H x Ep) in Eq. discriminate.
Qed.

(** X10: for a [name] of at least 2 characters, what [by_discipline(name)]
    returns is what [search(name)] returns, restricted to the records
    whose discipline field matches: every record of the first is in the
    second, in the same order, and its count is not larger. *)
Theorem by_discipline_within_search {RT : Runtime} dataset history (name : str) :
  2 <= length name ->
  exists found listed,
    answer dataset history (GetSearch (Some name)) =
      Ok (SearchResult name (length found) found) /\
    answer dataset history (GetDiscipline (Some name)) =
      Ok (DisciplineResult name (length listed) listed) /\
    listed = filter (field_match Center.Discipline (str_lower name)) found /\
    (forall c, In c listed -> In c found) /\
    length listed <= length found.
Proof.
  intros H. rewrite !answer_reply. cbn [reply Query_required].
  destruct (Nat.leb_spec 2 (length name)); [| lia].
  eexists. eexists. split; [reflexivity |]. split; [reflexivity |].
  assert (E : filter (field_match Center.Discipline (str_lower name)) dataset =
              filter (field_match Center.Discipline (str_lower name))
                (filter (keyword_match (str_lower name)) dataset)).
  { symmetry. apply filter_filter_imp. intros c Hc.
    unfold keyword_match. unfold field_match in Hc. rewrite Hc.
    apply orb_true_r. }
  split; [exact E |]. rewrite E. split.
  - intros c Hc. apply filter_In in Hc. tauto.
  - apply filter_length_le.
Qed.

Lemma by_discipline_within_search_witness :
  exists found listed,
    answer [sample "Tennis" (py "Basket") zero zero;
            sample "b" (py "Tennis") zero zero] []
      (GetSearch (Some (py "tennis"))) =
      Ok (SearchResult (py "tennis") (length found) found) /\
    answer [sample "Tennis" (py "Basket") zero zero;
            sample "b" (py "Tennis") zero zero] []
      (GetDiscipline (Some (py "tennis"))) =
      Ok (DisciplineResult (py "tennis") (length listed) listed) /\
    length listed <= length found.
Proof.
  destruct (by_discipline_within_search
              [sample "Tennis" (py "Basket") zero zero;
               sample "b" (py "Tennis") zero zero] [] (py "tennis"))
    as [found [listed [H1 [H2 [_ [_ H3]]]]]].
  - simpl. lia.
  - exists found, listed. auto.
Defined.

(** X11: a longer keyword narrows a search: when the lower-cased [q]
    occurs in the lower-cased [q'], the records that [search(q')] returns
    are those of [search(q)] that match [q'], so all of them are among
    the records of [search(q)]. *)
Theorem longer_keyword_narrows_search {RT : Runtime} dataset history
  (q q' : str) :
  2 <= length q -> 2 <= length q' ->
  substring (str_lower q) (str_lower q') ->
  exists wide narrow,
    answer dataset history (GetSearch (Some q)) =
      Ok (SearchResult q (length wide) wide) /\
    answer dataset history (GetSearch (Some q')) =
      Ok (SearchResult q' (length narrow) narrow) /\
    narrow = filter (keyword_match (str_lower q')) wide /\
    (forall c, In c narrow -> In c wide) /\
    length narrow <= length wide.
Proof.
  intros H H' S. rewrite !answer_reply. cbn [reply Query_required].
  destruct (Nat.leb_spec 2 (length q)); [| lia].
  destruct (Nat.leb_spec 2 (length q')); [| lia].
  eexists. eexists. split; [reflexivity |]. split; [reflexivity |].
  assert (E : filter (keyword_match (str_lower q')) dataset =
              filter (keyword_match (str_lower q'))
                (filter (keyword_match (str_lower q)) dataset)).
  { symmetry. apply filter_filter_imp. intros c Hc.
    apply keyword_match_spec in Hc. apply keyword_match_spec.
    destruct Hc as [Hc | [Hc | Hc]];
      [left | right; left | right; right];
      eapply substring_trans; eassumption. }
  split; [exact E |]. rewrite E. split.
  - intros c Hc. apply filter_In in Hc. tauto.
  - apply filter_length_le.
Qed.

Lemma longer_keyword_narrows_search_witness :
  exists wide narrow,
    answer [sample "a" (py "Tennis") zero zero;
            sample "b" (py "Tennis de table") zero zero] []
      (GetSearch (Some (py "tennis"))) =
      Ok (SearchResult (py "tennis") (length wide) wide) /\
    answer [sample "a" (py "Tennis") zero zero;
            sample "b" (py "Tennis de table") zero zero] []
      (GetSearch (Some (py "tennis de"))) =
      Ok (SearchResult (py "tennis de") (length narrow) narrow) /\
    length narrow <= length wide.
Proof.
  destruct (longer_keyword_narrows_search
              [sample "a" (py "Tennis") zero zero;
               sample "b" (py "Tennis de table") zero zero] []
              (py "tennis") (py "tennis de"))
    as [wide [narrow [H1 [H2 [_ [_ H3]]]]]].
  - simpl. lia.
  - simpl. lia.
  - exists [], (py " de"). reflexivity.
  - exists wide, narrow. auto.
Defined.

(** ** When the nearby search answers *)

Lemma nearby_scan_answers {RT : Runtime} lat lng radius_km ds :
  (exists kept, nearby_scan lat lng radius_km ds = Ok kept) <->
  distances_defined lat lng ds.
Proof.
  split.
  - intros [kept H]. revert kept H.
    induction ds as [|c ds IH]; simpl; intros kept H c' Hc'; [destruct Hc' |].
    destruct (distance_to lat lng c) as [dist|e] eqn:E; simpl in H;
      [| discriminate].
    destruct (nearby_scan lat lng radius_km ds) as [rest|e]; simpl in H;
      [| discriminate].
    destruct Hc' as [<- | Hc']; [eauto | exact (IH rest eq_refl c' Hc')].
  - intros D. eexists. apply nearby_scan_defined. exact D.
Qed.

(** X12: with [lat] and [lng] given and [radius_km] in [1, 500], the
    nearby search answers exactly when the distance of every record of
    the collection is defined, whether or not the record is within the
    radius; one record with an unusable coordinate makes every nearby
    request fail. *)
Theorem nearby_answers_iff_distances_defined {RT : Runtime} dataset history
  (lat lng radius_km : float) :
  valid_radius radius_km = true ->
  ((exists resp,
      answer dataset history
        (GetNearby (Some lat) (Some lng) (Some radius_km)) = Ok resp) <->
   distances_defined lat lng dataset).
Proof.
  intros V. rewrite answer_reply.
  cbn [reply Query_required Query_default result_bind]. rewrite V.
  cbn [result_bind]. rewrite <- (nearby_scan_answers lat lng radius_km).
  destruct (nearby_scan lat lng radius_km dataset) as [kept|e];
    cbn [result_bind].
  - split; intros _; eexists; reflexivity.
  - split; intros [x H]; discriminate.
Qed.

Lemma nearby_answers_iff_distances_defined_witness :
  ~ (exists resp,
       answer [sample "a" [] tours_lat tours_lng;
               Center.Build (py "b") [] [] [] [] [] (Text (py "n/a"))
                 (Num tours_lng) None] []
         (GetNearby (Some tours_lat) (Some tours_lng) (Some (F.of_Z 50))) =
       Ok resp).
Proof.
  intros H.
  apply (nearby_answers_iff_distances_defined
           [sample "a" [] tours_lat tours_lng;
            Center.Build (py "b") [] [] [] [] [] (Text (py "n/a"))
              (Num tours_lng) None] []
           tours_lat tours_lng (F.of_Z 50)) in H.
  - destruct (H _ (or_intror (or_introl eq_refl))) as [d E].
    vm_compute in E. discriminate.
  - vm_compute. reflexivity.
Defined.

(** X13: the nearby search raises the exception of the first record, in
    collection order, whose distance is not defined; the records after it
    are not looked at and nothing is returned for the records before
    it. *)
Theorem nearby_raises_first_failure {RT : Runtime} before c after history
  (lat lng radius_km : float) (e : exn) :
  valid_radius radius_km = true ->
  distances_defined lat lng before ->
  distance_to lat lng c = Raise e ->
  answer (before ++ c :: after) history
    (GetNearby (Some lat) (Some lng) (Some radius_km)) = Raise e.
Proof.
  intros V D E. rewrite answer_reply.
  cbn [reply Query_required Query_default result_bind]. rewrite V.
  cbn [result_bind].
  assert (S : nearby_scan lat lng radius_km (before ++ c :: after) = Raise e).
  { induction before as [|b before IH]; simpl.
    - rewrite E. reflexivity.
    - destruct (D b (or_introl eq_refl)) as [d Hd]. rewrite Hd. simpl.
      rewrite IH by (intros c' H; apply D; right; exact H). reflexivity. }
  rewrite S. reflexivity.
Qed.

Lemma nearby_raises_first_failure_witness :
  answer ([sample "a" [] tours_lat tours_lng] ++
          Center.Build (py "b") [] [] [] [] [] (Text (py "n/a"))
            (Num tours_lng) None ::
          [sample "c" [] tours_lat tours_lng]) []
    (GetNearby (Some tours_lat) (Some tours_lng) (Some (F.of_Z 50))) =
  Raise ValueError.
Proof.
  apply (nearby_raises_first_failure
           [sample "a" [] tours_lat tours_lng]
           (Center.Build (py "b") [] [] [] [] [] (Text (py "n/a"))
              (Num tours_lng) None)
           [sample "c" [] tours_lat tours_lng] []
           tours_lat tours_lng (F.of_Z 50) ValueError).
  - vm_compute. reflexivity.
  - intros c [<- | []]. eexists. vm_compute. reflexivity.
  - vm_compute. reflexivity.
Defined.

Lemma filter_length_imp {A} (P Q : A -> bool) (l : list A) :
  (forall x, P x = true -> Q x = true) ->
  length (filter P l) <= length (filter Q l).
Proof.
  intros H. rewrite <- (filter_filter_imp P Q l H). apply filter_length_le.
Qed.

(** X14: a larger radius never loses a record: for the same query point
    and radii [r1 <= r2] in [1, 500], every record returned for [r1] is
    returned for [r2], with the same [distance_km], and the count for
    [r1] is at most the count for [r2]. *)
Theorem larger_radius_keeps_records {RT : Runtime} dataset history
  (lat lng r1 r2 : float) :
  valid_radius r1 = true -> valid_radius r2 = true -> fle r1 r2 ->
  distances_defined lat lng dataset ->
  exists data1 data2,
    answer dataset history (GetNearby (Some lat) (Some lng) (Some r1)) =
      Ok (NearbyResult lat lng r1 (length data1) data1) /\
    answer dataset history (GetNearby (Some lat) (Some lng) (Some r2)) =
      Ok (NearbyResult lat lng r2 (length data2) data2) /\
    (forall e, In e data1 -> In e data2) /\
    length data1 <= length data2.
Proof.
  intros V1 V2 L D. rewrite !answer_reply.
  rewrite (nearby_reply_defined lat lng r1 dataset V1 D).
  rewrite (nearby_reply_defined lat lng r2 dataset V2 D).
  eexists. eexists. split; [reflexivity |]. split; [reflexivity |].
  assert (W : forall c, within lat lng r1 c = true ->
                        within lat lng r2 c = true).
  { intros c Hc. apply within_spec in Hc. destruct Hc as [d [E Hd]].
    apply within_spec. exists d. split; [exact E |].
    eapply fleb_trans; eassumption. }
  split.
  - intros e He. apply (Permutation_in _ (sort_on_perm km _)) in He.
    apply (Permutation_in _ (Permutation_sym (sort_on_perm km _))).
    apply in_map_iff in He. destruct He as [c [<- Hc]].
    apply in_map. apply filter_In in Hc. apply filter_In.
    split; [tauto | apply W; tauto].
  - rewrite (Permutation_length (sort_on_perm km _)).
    rewrite (Permutation_length (sort_on_perm km _)).
    rewrite !length_map. apply filter_length_imp. exact W.
Qed.

Lemma larger_radius_keeps_records_witness :
  exists data1 data2,
    answer [sample "far" [] (F.decimal 4790 2) (F.decimal 191 2);
            sample "tours" [] tours_lat tours_lng] []
      (GetNearby (Some tours_lat) (Some tours_lng) (Some (F.of_Z 50))) =
      Ok (NearbyResult tours_lat tours_lng (F.of_Z 50)
            (length data1) data1) /\
    answer [sample "far" [] (F.decimal 4790 2) (F.decimal 191 2);
            sample "tours" [] tours_lat tours_lng] []
      (GetNearby (Some tours_lat) (Some tours_lng) (Some (F.of_Z 200))) =
      Ok (NearbyResult tours_lat tours_lng (F.of_Z 200)
            (length data2) data2) /\
    length data1 <= length data2.
Proof.
  destruct (larger_radius_keeps_records
              [sample "far" [] (F.decimal 4790 2) (F.decimal 191 2);
               sample "tours" [] tours_lat tours_lng] []
              tours_lat tours_lng (F.of_Z 50) (F.of_Z 200))
    as [data1 [data2 [H1 [H2 [_ H3]]]]].
  - vm_compute. reflexivity.
  - vm_compute. reflexivity.
  - vm_compute. reflexivity.
  - intros c [<- | [<- | []]]; eexists; vm_compute; reflexivity.
  - exists data1, data2. auto.
Defined.

(** ** The listed values and the filters *)

Lemma in_join_substring (sep : str) (parts : list str) (p : str) :
  In p parts -> substring p (Str.join sep parts).
Proof.
  induction parts as [|x parts IH]; intros H; [destruct H |].
  cbn [Str.join]. destruct parts as [|y parts].
  - destruct H as [<- | []]. exists [], []. rewrite app_nil_r. reflexivity.
  - destruct H as [<- | H].
    + exists [], (sep ++ Str.join sep (y :: parts)). reflexivity.
    + destruct (IH H) as [a [b E]]. rewrite E.
      exists (x ++ sep ++ a), b. rewrite <- !app_assoc. reflexivity.
Qed.

Lemma token_in_field (field t : str) :
  In t (tokens field) -> substring t field.
Proof.
  unfold tokens. intros H. apply in_map_iff in H.
  destruct H as [part [<- Hp]].
  apply substring_trans with (b := part).
  - destruct (strip_spec part) as [l [r [E _]]]. exists l, r. exact E.
  - rewrite <- (split_join field CRLF) by discriminate.
    apply in_join_substring. exact Hp.
Qed.

Lemma ascii_only_substring (a b : str) :
  substring a b -> ascii_only b -> ascii_only a.
Proof.
  intros [p [q ->]] H. unfold ascii_only in *.
  apply Forall_app in H. destruct H as [_ H].
  apply Forall_app in H. tauto.
Qed.

(** X15: on a collection whose discipline fields are ASCII text, and
    with [str.lower] the ASCII lower-casing on such text, every value
    that [list_disciplines()] lists selects at least one record when it
    is passed to [by_discipline]: the listing never offers a value that
    the filter does not find. *)
Theorem listed_discipline_is_found {RT : Runtime} dataset history
  (count : nat) (disciplines : list str) (d : str) :
  lower_on_ascii RT ->
  (forall c, In c dataset -> ascii_only (Center.Discipline c)) ->
  answer dataset history GetDisciplines =
    Ok (DisciplineList count disciplines) ->
  In d disciplines ->
  exists data,
    answer dataset history (GetDiscipline (Some d)) =
      Ok (DisciplineResult d (length data) data) /\
    1 <= length data.
Proof.
  intros Hlow Hascii H Hd. rewrite answer_reply in H. cbn [reply] in H.
  inversion H; subst; clear H.
  destruct (sorted_values Center.Discipline dataset) as [_ [M _]].
  apply M in Hd. destruct Hd as [_ [c [Hc Ht]]].
  rewrite answer_reply. cbn [reply Query_required result_bind].
  eexists. split; [reflexivity |].
  assert (In c (filter (field_match Center.Discipline (str_lower d)) dataset)).
  { apply filter_In. split; [exact Hc |]. apply field_match_spec.
    pose proof (token_in_field _ _ Ht) as S.
    rewrite (Hlow _ (Hascii c Hc)).
    rewrite (Hlow _ (ascii_only_substring _ _ S (Hascii c Hc))).
    apply substring_map. exact S. }
  destruct (filter _ dataset); [contradiction | simpl; lia].
Qed.

Lemma listed_discipline_is_found_witness :
  exists data,
    answer [sample "a" (py "Tennis de table" ++ CRLF ++ py " Basket ") zero
              zero] [] (GetDiscipline (Some (py "Basket"))) =
      Ok (DisciplineResult (py "Basket") (length data) data) /\
    1 <= length data.
Proof.
  apply (listed_discipline_is_found
           [sample "a" (py "Tennis de table" ++ CRLF ++ py " Basket ") zero
              zero] [] 2 [py "Basket"; py "Tennis de table"]).
  - exact approx_lower_on_ascii.
  - intros c [<- | []]. repeat constructor.
  - vm_compute. reflexivity.
  - left. reflexivity.
Defined.

(** X16: the order of the records does not show in [list_disciplines()]
    or [list_pathologies()]: two collections that hold the same records
    in different orders get the same answer, count included. *)
Theorem listing_ignores_record_order {RT : Runtime} dataset dataset'
  history history' :
  Permutation dataset dataset' ->
  answer dataset history GetDisciplines =
    answer dataset' history' GetDisciplines /\
  answer dataset history GetPathologies =
    answer dataset' history' GetPathologies.
Proof.
  intros P. rewrite !answer_reply. cbn [reply].
  assert (E : forall field,
            Str.sorted (field_values field dataset) =
            Str.sorted (field_values field dataset')).
  { intros field.
    destruct (sorted_values field dataset) as [_ [M [S _]]].
    destruct (sorted_values field dataset') as [_ [M' [S' _]]].
    apply strictly_sorted_unique; [exact S | exact S' |].
    intros t. rewrite M, M'. split; intros [Ht [c [Hc Hin]]];
      (split; [exact Ht |]); exists c; (split; [| exact Hin]).
    - apply (Permutation_in _ P). exact Hc.
    - apply (Permutation_in _ (Permutation_sym P)). exact Hc. }
  assert (L : forall field,
            length (field_values field dataset) =
            length (field_values field dataset')).
  { intros field.
    rewrite <- (Permutation_length (str_sorted_perm (field_values field dataset))).
    rewrite <- (Permutation_length (str_sorted_perm (field_values field dataset'))).
    rewrite E. reflexivity. }
  rewrite !E, !L. split; reflexivity.
Qed.

Lemma listing_ignores_record_order_witness :
  answer [sample "a" (py "Tennis") zero zero;
          sample "b" (py "Basket") zero zero] [] GetDisciplines =
  answer [sample "b" (py "Basket") zero zero;
          sample "a" (py "Tennis") zero zero] [GetRoot] GetDisciplines.
Proof.
  apply (listing_ignores_record_order
           [sample "a" (py "Tennis") zero zero;
            sample "b" (py "Basket") zero zero]
           [sample "b" (py "Basket") zero zero;
            sample "a" (py "Tennis") zero zero] [] [GetRoot]).
  apply perm_swap.
Defined.

(** ** The empty collection *)

(** X17: on an empty collection the handler of every accepted request
    except the lookup by id returns an answer: the root reports 0
    centers, the page, the filters and the listings are empty with count
    0, and the nearby search returns an empty list with count 0 for
    every finite query point, whatever the libm functions do, since no
    distance is computed; the lookup by id raises 404. *)
Theorem empty_collection_answers {RT : Runtime} history :
  answer [] history GetRoot =
    Ok (RootInfo (py "Sports Health Centers API") 0 endpoints) /\
  (forall limit offset,
     rejected (GetAllCenters (Some limit) (Some offset)) = false ->
     answer [] history (GetAllCenters (Some limit) (Some offset)) =
       Ok (AllCenters 0 limit offset [])) /\
  (forall center_id,
     answer [] history (GetCenterById center_id) =
       Raise (not_found center_id)) /\
  (forall q, 2 <= length q ->
     answer [] history (GetSearch (Some q)) = Ok (SearchResult q 0 [])) /\
  (forall name,
     answer [] history (GetDiscipline (Some name)) =
       Ok (DisciplineResult name 0 []) /\
     answer [] history (GetPathology (Some name)) =
       Ok (PathologyResult name 0 [])) /\
  answer [] history GetDisciplines = Ok (DisciplineList 0 []) /\
  answer [] history GetPathologies = Ok (PathologyList 0 []) /\
  (forall lat lng radius_km,
     is_finite lat = true -> is_finite lng = true ->
     valid_radius radius_km = true ->
     answer [] history (GetNearby (Some lat) (Some lng) (Some radius_km)) =
       Ok (NearbyResult lat lng radius_km 0 [])).
Proof.
  rewrite !answer_reply. cbn [reply].
  split; [reflexivity |]. split.
  { intros limit offset H. rewrite answer_reply.
    cbn [reply Query_default rejected] in *.
    apply orb_false_iff in H. destruct H as [H1 H2].
    apply negb_false_iff in H1, H2. rewrite H1, H2. cbn [result_bind].
    unfold slice. rewrite skipn_nil, firstn_nil. reflexivity. }
  split; [intros center_id; rewrite answer_reply; reflexivity |].
  split.
  { intros q H. rewrite answer_reply. cbn [reply Query_required].
    destruct (Nat.leb_spec 2 (length q)); [reflexivity | lia]. }
  split; [intros name; rewrite !answer_reply; split; reflexivity |].
  split; [reflexivity |]. split; [reflexivity |].
  intros lat lng r _ _ V. rewrite answer_reply.
  cbn [reply Query_required Query_default result_bind]. rewrite V.
  reflexivity.
Qed.

Lemma empty_collection_answers_witness :
  answer [] [] (GetNearby (Some (F.of_Z 135)) (Some (F.of_Z (-180)))
                  (Some (F.of_Z 50))) =
    Ok (NearbyResult (F.of_Z 135) (F.of_Z (-180)) (F.of_Z 50) 0 []) /\
  answer [] [] (GetSearch (Some (py "tennis"))) =
    Ok (SearchResult (py "tennis") 0 []) /\
  answer [] [] (GetAllCenters (Some 10%Z) (Some 5%Z)) =
    Ok (AllCenters 0 10 5 []).
Proof.
  pose proof (empty_collection_answers []) as [_ [H1 [_ [H2 [_ [_ [_ H3]]]]]]].
  split; [| split].
  - apply H3; vm_compute; reflexivity.
  - apply H2. simpl. lia.
  - apply H1. reflexivity.
Defined.

(** ** The routing of the agent *)

Lemma contains_false (needle hay : str) :
  ~ substring needle hay -> Str.contains needle hay = false.
Proof.
  intros H. destruct (Str.contains needle hay) eqn:E; [| reflexivity].
  apply contains_spec in E. contradiction.
Qed.

Lemma existsb_contains (words : list str) (q : str) :
  existsb (fun word => Str.contains word q) words = true <->
  exists w, In w words /\ substring w q.
Proof.
  rewrite existsb_exists. split; intros [w [H1 H2]]; exists w;
    (split; [exact H1 |]); apply contains_spec; exact H2.
Qed.

Lemma city_loop_first (q : str) before city lat lng after :
  (exists w, In w Agent.proximity_words /\ substring w q) ->
  (forall e, In e before -> ~ substring (fst e) q) ->
  substring city q ->
  Agent.city_loop q (before ++ (city, (lat, lng)) :: after) =
  Some (Agent.Nearby lat lng).
Proof.
  intros W H S. apply existsb_contains in W.
  induction before as [|[c [la lo]] before IH];
    cbn [Agent.city_loop app].
  - rewrite (proj2 (contains_spec city q) S), W. reflexivity.
  - rewrite (contains_false c q (H _ (or_introl eq_refl))).
    apply IH. intros e He. apply H. right. exact He.
Qed.

Lemma city_loop_some (q : str) items query :
  Agent.city_loop q items = Some query ->
  (exists w, In w Agent.proximity_words /\ substring w q) /\
  exists city lat lng,
    In (city, (lat, lng)) items /\ substring city q /\
    query = Agent.Nearby lat lng.
Proof.
  induction items as [|[c [la lo]] items IH];
    cbn [Agent.city_loop]; [discriminate |].
  intros H.
  assert (R : Agent.city_loop q items = Some query ->
              (exists w, In w Agent.proximity_words /\ substring w q) /\
              exists city lat lng,
                In (city, (lat, lng)) ((c, (la, lo)) :: items) /\
                substring city q /\ query = Agent.Nearby lat lng).
  { intros H'. destruct (IH H') as [W [city [lat [lng [H1 H2]]]]].
    split; [exact W |]. exists city, lat, lng. split; [right |]; tauto. }
  destruct (Str.contains c q) eqn:E; [| auto].
  destruct (existsb _ Agent.proximity_words) eqn:W; [| auto].
  inversion H; subst. split; [apply existsb_contains; exact W |].
  exists c, la, lo. split; [left; reflexivity |].
  split; [apply contains_spec; exact E | reflexivity].
Qed.

Lemma city_loop_none (q : str) items :
  (~ exists w, In w Agent.proximity_words /\ substring w q) \/
  (forall e, In e items -> ~ substring (fst e) q) ->
  Agent.city_loop q items = None.
Proof.
  intros H. destruct (Agent.city_loop q items) as [query|] eqn:E;
    [| reflexivity].
  destruct (city_loop_some q items query E)
    as [W [city [lat [lng [H1 [H2 _]]]]]].
  destruct H as [H | H]; [contradiction |].
  exfalso. apply (H _ H1). exact H2.
Qed.

Lemma keyword_loop_first (q prefix : str) before w after :
  (forall x, In x before -> ~ substring x q) ->
  substring w q ->
  Agent.keyword_loop q prefix (before ++ w :: after) =
  Some (Agent.Endpoint (prefix ++ w)).
Proof.
  intros H S. induction before as [|x before IH]; simpl.
  - rewrite (proj2 (contains_spec w q) S). reflexivity.
  - rewrite (contains_false x q (H _ (or_introl eq_refl))).
    apply IH. intros y Hy. apply H. right. exact Hy.
Qed.

Lemma keyword_loop_some (q prefix : str) words query :
  Agent.keyword_loop q prefix words = Some query ->
  exists w, In w words /\ substring w q /\
            query = Agent.Endpoint (prefix ++ w).
Proof.
  induction words as [|x words IH]; simpl; [discriminate |].
  destruct (Str.contains x q) eqn:E.
  - intros H. inversion H. exists x.
    split; [left; reflexivity |].
    split; [apply contains_spec; exact E | reflexivity].
  - intros H. destruct (IH H) as [w [H1 H2]]. exists w.
    split; [right; exact H1 | exact H2].
Qed.

Lemma keyword_loop_none (q prefix : str) words :
  (forall x, In x words -> ~ substring x q) ->
  Agent.keyword_loop q prefix words = None.
Proof.
  intros H. induction words as [|x words IH]; simpl; [reflexivity |].
  rewrite (contains_false x q (H _ (or_introl eq_refl))).
  apply IH. intros y Hy. apply H. right. exact Hy.
Qed.

(** X18: the agent asks for the nearby centers exactly when the
    lower-cased question contains, anywhere and not only as whole words,
    a city name of its table and one of its proximity words; the point it
    sends is that of the first such city in table order, and no other
    keyword of the question is then looked at. *)
Theorem agent_routes_nearby {RT : Runtime} (question : str) :
  ((exists lat lng, Agent.agent question = Agent.Nearby lat lng) <->
   (exists city, In city (map fst Agent.city_coords) /\
                 substring city (str_lower question)) /\
   (exists w, In w Agent.proximity_words /\
              substring w (str_lower question))) /\
  (forall before city lat lng after,
     Agent.city_coords = before ++ (city, (lat, lng)) :: after ->
     (forall e, In e before -> ~ substring (fst e) (str_lower question)) ->
     substring city (str_lower question) ->
     (exists w, In w Agent.proximity_words /\
                substring w (str_lower question)) ->
     Agent.agent question = Agent.Nearby lat lng).
Proof.
  assert (First : forall before city lat lng after,
     Agent.city_coords = before ++ (city, (lat, lng)) :: after ->
     (forall e, In e before -> ~ substring (fst e) (str_lower question)) ->
     substring city (str_lower question) ->
     (exists w, In w Agent.proximity_words /\
                substring w (str_lower question)) ->
     Agent.agent question = Agent.Nearby lat lng).
  { intros before city lat lng after E H S W. unfold Agent.agent. cbv zeta.
    rewrite E, (city_loop_first _ before city lat lng after W H S).
    reflexivity. }
  split; [| exact First]. split.
  - intros [lat [lng H]]. unfold Agent.agent in H. cbv zeta in H.
    destruct (Agent.city_loop (str_lower question) Agent.city_coords)
      as [query|] eqn:E.
    + destruct (city_loop_some _ _ _ E) as [W [city [la [lo [H1 [H2 _]]]]]].
      split; [| exact W]. exists city. split; [| exact H2].
      apply (in_map fst) in H1. exact H1.
    + exfalso.
      destruct (Agent.keyword_loop _ (py "/discipline?name=") _) eqn:E1.
      { apply keyword_loop_some in E1. destruct E1 as [w [_ [_ E1]]].
        congruence. }
      destruct (Agent.keyword_loop _ (py "/pathology?name=") _) eqn:E2.
      { apply keyword_loop_some in E2. destruct E2 as [w [_ [_ E2]]].
        congruence. }
      destruct (_ || _ || _); [discriminate |].
      destruct (_ || _ || _); discriminate.
  - intros [[city0 [Hc Sc]] W].
    assert (Some_city : exists query,
              Agent.city_loop (str_lower question) Agent.city_coords =
              Some query).
    { destruct (Agent.city_loop (str_lower question) Agent.city_coords)
        as [query|] eqn:E; [eauto |].
      exfalso. revert Hc Sc E. generalize Agent.city_coords.
      induction l as [|[c [la lo]] l IH];
        cbn [Agent.city_loop map In fst]; [tauto |].
      intros [<- | Hc] Sc.
      - rewrite (proj2 (contains_spec c _) Sc).
        rewrite (proj2 (existsb_contains _ _) W). discriminate.
      - destruct (Str.contains c (str_lower question)); [| auto].
        rewrite (proj2 (existsb_contains _ _) W). discriminate. }
    destruct Some_city as [query E].
    destruct (city_loop_some _ _ _ E) as [_ [city [la [lo [_ [_ Q]]]]]].
    exists la, lo. unfold Agent.agent. cbv zeta. rewrite E. exact Q.
Qed.

Lemma agent_routes_nearby_witness :
  Agent.agent (py "Detours NEARLY done") =
  Agent.Nearby (F.decimal 4739 2) (F.decimal 69 2).
Proof.
  apply (proj2 (agent_routes_nearby (py "Detours NEARLY done")) []
           (py "tours") _ _ (tl Agent.city_coords)).
  - reflexivity.
  - intros e [].
  - exists (py "de"), (py " nearly done"). reflexivity.
  - exists (py "near"). split; [right; left; reflexivity |].
    exists (py "detours "), (py "ly done"). reflexivity.
Defined.

Lemma none_occurs (words : list str) (q : str) :
  forallb (fun w => negb (Str.contains w q)) words = true ->
  forall w, In w words -> ~ substring w q.
Proof.
  rewrite forallb_forall. intros H w Hw S.
  apply contains_spec in S. specialize (H w Hw).
  rewrite S in H. discriminate.
Qed.

(** X19: whatever the question, the agent sends one of six kinds of
    query: the nearby query at the point of a city of its table, the
    discipline query for a sport of its list, the pathology query for a
    condition of its list, one of the two listings, or the search for the
    stripped question.  It never asks for the index, for a page of the
    collection or for a record by identifier. *)
Theorem agent_queries_known_endpoints {RT : Runtime} (question : str) :
  match Agent.agent question with
  | Agent.Nearby lat lng =>
      exists city, In (city, (lat, lng)) Agent.city_coords
  | Agent.Endpoint path =>
      (exists sport, In sport Agent.sports /\
                     path = py "/discipline?name=" ++ sport) \/
      (exists patho, In patho Agent.pathologies /\
                     path = py "/pathology?name=" ++ patho) \/
      path = py "/disciplines" \/
      path = py "/pathologies" \/
      path = py "/search?q=" ++ Str.strip question
  end.
Proof.
  unfold Agent.agent. cbv zeta.
  destruct (Agent.city_loop (str_lower question) Agent.city_coords)
    as [query|] eqn:E.
  { destruct (city_loop_some _ _ _ E) as [_ [city [la [lo [H [_ ->]]]]]].
    exists city. exact H. }
  destruct (Agent.keyword_loop _ (py "/discipline?name=") _) eqn:E1.
  { apply keyword_loop_some in E1. destruct E1 as [w [H [_ ->]]].
    left. exists w. split; [exact H | reflexivity]. }
  destruct (Agent.keyword_loop _ (py "/pathology?name=") _) eqn:E2.
  { apply keyword_loop_some in E2. destruct E2 as [w [H [_ ->]]].
    right; left. exists w. split; [exact H | reflexivity]. }
  destruct (_ || _ || _); [right; right; left; reflexivity |].
  destruct (_ || _ || _); [right; right; right; left; reflexivity |].
  right; right; right; right. reflexivity.
Qed.

(** X20: a sport of the list that occurs in the lower-cased question
    wins over every pathology and listing keyword: when the nearby route
    is not taken, the agent asks for the discipline named by the first
    sport of its list that occurs, with the spelling of the list. *)
Theorem agent_sport_before_other_keywords {RT : Runtime}
    (question : str) before sport after :
  Agent.sports = before ++ sport :: after ->
  (forall x, In x before -> ~ substring x (str_lower question)) ->
  substring sport (str_lower question) ->
  ((forall city, In city (map fst Agent.city_coords) ->
                 ~ substring city (str_lower question)) \/
   (forall w, In w Agent.proximity_words ->
              ~ substring w (str_lower question))) ->
  Agent.agent question =
  Agent.Endpoint (py "/discipline?name=" ++ sport).
Proof.
  intros E H S N. unfold Agent.agent. cbv zeta.
  rewrite city_loop_none.
  - rewrite E, (keyword_loop_first _ _ before sport after H S).
    reflexivity.
  - destruct N as [N | N].
    + right. intros e He. apply N. apply in_map. exact He.
    + left. intros [w [H1 H2]]. exact (N w H1 H2).
Qed.

Lemma agent_sport_before_other_keywords_witness :
  Agent.agent (py "Quel SPORT contre le cancer : le Yoga ?") =
  Agent.Endpoint (py "/discipline?name=yoga").
Proof.
  apply (agent_sport_before_other_keywords
           (py "Quel SPORT contre le cancer : le Yoga ?")
           (firstn 12 Agent.sports) (py "yoga") (skipn 13 Agent.sports)).
  - reflexivity.
  - apply none_occurs. vm_compute. reflexivity.
  - apply contains_spec. vm_compute. reflexivity.
  - right. apply none_occurs. vm_compute. reflexivity.
Defined.

(** X21: a question in which no keyword of the agent occurs (no city
    together with a proximity word, no sport, no condition, none of the
    six listing words) is sent to the search endpoint, stripped of its
    surrounding white space but in its original case; when fewer than two
    characters are left, that keyword is one the search handler
    rejects. *)
Theorem agent_falls_back_to_search {RT : Runtime} (question : str) :
  ((forall city, In city (map fst Agent.city_coords) ->
                 ~ substring city (str_lower question)) \/
   (forall w, In w Agent.proximity_words ->
              ~ substring w (str_lower question))) ->
  (forall w, In w (Agent.sports ++ Agent.pathologies ++
                   [py "discipline"; py "sport"; py "activit";
                    py "patholog"; py "maladie"; py "condition"]) ->
             ~ substring w (str_lower question)) ->
  Agent.agent question =
  Agent.Endpoint (py "/search?q=" ++ Str.strip question) /\
  ((length (Str.strip question) < 2)%nat ->
   rejected (GetSearch (Some (Str.strip question))) = true).
Proof.
  intros N K. split.
  - unfold Agent.agent. cbv zeta.
    rewrite city_loop_none.
    2:{ destruct N as [N | N].
        - right. intros e He. apply N. apply in_map. exact He.
        - left. intros [w [H1 H2]]. exact (N w H1 H2). }
    rewrite keyword_loop_none.
    2:{ intros x Hx. apply K. apply in_or_app. left. exact Hx. }
    rewrite keyword_loop_none.
    2:{ intros x Hx. apply K. apply in_or_app. right.
        apply in_or_app. left. exact Hx. }
    assert (L : forall w,
              In w [py "discipline"; py "sport"; py "activit";
                    py "patholog"; py "maladie"; py "condition"] ->
              Str.contains w (str_lower question) = false).
    { intros w Hw. apply contains_false. apply K.
      apply in_or_app. right. apply in_or_app. right. exact Hw. }
    rewrite !L by (simpl; tauto). reflexivity.
  - intros Short. cbn [rejected].
    destruct (length (Str.strip question)) as [|[|n]] eqn:E;
      [reflexivity | reflexivity | lia].
Qed.

Lemma agent_falls_back_to_search_witness :
  Agent.agent (py "  Z ") = Agent.Endpoint (py "/search?q=Z") /\
  rejected (GetSearch (Some (py "Z"))) = true.
Proof.
  destruct (agent_falls_back_to_search (py "  Z ")) as [H1 H2].
  - right. apply none_occurs. vm_compute. reflexivity.
  - apply none_occurs. vm_compute. reflexivity.
  - split; [exact H1 | apply H2; vm_compute; lia].
Defined.
